(** * INFUGEN API extractor: a shallow embedding of [app.py]

    The script reads an export table, normalises its numeric columns,
    derives an "API" token from each product name, keeps the human-use
    rows and reports the five APIs with the largest total quantity.

    Modelling choices, fixed here once:
    - a Python [str] is a list of characters ([list ascii]); the model
      covers ASCII text, on which [str.upper], [str.strip], [\d], [\s],
      [\w] and [\b] are the functions below;
    - a pandas [Series] is either an object column (text cells, [None]
      for NaN) or a numeric column (numbers, [None] for NaN); a
      [DataFrame] is a finite map from column labels to columns;
    - float64 arithmetic is idealised as exact rational arithmetic
      ([Qc]): no rounding, no infinities; a statement that compares or
      equates sums is made for cells that pandas adds without error
      ([Spec.adds_exactly]), where the two arithmetics agree;
    - an uncaught Python exception is a [Raise] in the [result] monad;
    - the report is [analysis_data], the list built by lines 68-91; its
      rounding, formatting and download (lines 93-104) are left out. *)

From Stdlib Require Import QArith Qcanon Ascii String.
From stdpp Require Import numbers strings gmap sorting list.

(* [naive_solver] clears hypotheses by name, some of which are gone. *)
#[local] Set Warnings "-clear-no-such-hyp".

Open Scope string_scope.
Open Scope list_scope.

Abbreviation str := (list ascii).

(** A string literal as a Python [str]. *)
Definition lit (s : string) : str := list_ascii_of_string s.

(** ** Characters *)

Module Char.

Definition code (c : ascii) : nat := nat_of_ascii c.

Definition between (lo hi : nat) (c : ascii) : bool :=
  (lo <=? code c)%nat && (code c <=? hi)%nat.

(** [str.isspace] / [\s] on ASCII: TAB LF VT FF CR, FS GS RS US, SPACE. *)
Definition is_space (c : ascii) : bool :=
  between 9 13 c || between 28 32 c.

(** [\d] on ASCII. *)
Definition is_digit (c : ascii) : bool := between 48 57 c.

Definition is_lower (c : ascii) : bool := between 97 122 c.
Definition is_upper (c : ascii) : bool := between 65 90 c.

(** [\w] on ASCII: letters, digits and the underscore. *)
Definition is_word (c : ascii) : bool :=
  is_digit c || is_upper c || is_lower c || (code c =? 95)%nat.

Definition upper (c : ascii) : ascii :=
  if is_lower c then ascii_of_nat (code c - 32) else c.

Definition newline : ascii := ascii_of_nat 10.

End Char.

(** ** The [str] methods the script calls *)

Module Str.

(** [s.upper()] *)
Definition upper (s : str) : str := map Char.upper s.

Fixpoint lstrip (s : str) : str :=
  match s with
  | c :: s' => if Char.is_space c then lstrip s' else s
  | [] => []
  end.

Definition rstrip (s : str) : str := reverse (lstrip (reverse s)).

(** [s.strip()] *)
Definition strip (s : str) : str := rstrip (lstrip s).

(** [s.split()]: the maximal runs of non-whitespace characters. *)
Fixpoint split (s : str) : list str :=
  match s with
  | [] => []
  | c :: s' =>
      if Char.is_space c then split s'
      else match s' with
           | [] => [[c]]
           | c' :: _ =>
               if Char.is_space c' then [c] :: split s'
               else match split s' with
                    | w :: ws => (c :: w) :: ws
                    | [] => [[c]]
                    end
           end
  end.

(** [sep.join(l)] *)
Fixpoint join (sep : str) (l : list str) : str :=
  match l with
  | [] => []
  | [x] => x
  | x :: l' => x ++ sep ++ join sep l'
  end.

(** Python compares strings by code point, lexicographically. *)
Definition le (s1 s2 : str) : Prop :=
  String.le (string_of_list_ascii s1) (string_of_list_ascii s2).

End Str.

(** ** Regular expressions

    The fragment of Python's [re] that the script's four patterns use,
    with a backtracking matcher that tries alternatives in Python's
    order (left branch first, greedy repetition first). *)

Module Re.

Inductive regex : Type :=
| Eps
| Chr (c : ascii)                  (* a literal character *)
| Cls (p : ascii → bool)           (* a character class: \d, \s, [...] *)
| Cat (r1 r2 : regex)
| Alt (r1 r2 : regex)              (* r1|r2 *)
| Opt (r : regex)                  (* r? *)
| Plus (p : ascii → bool)          (* c+ for a class c *)
| Bol                              (* ^ *)
| Eol                              (* $ *)
| WordB.                           (* \b *)

(** A literal word. *)
Definition word (s : string) : regex :=
  foldr (λ c r, Cat (Chr c) r) Eps (lit s).

(** [r1|r2|...|rn] *)
Fixpoint alts (r : regex) (rs : list regex) : regex :=
  match rs with
  | [] => r
  | r' :: rs' => Alt r (alts r' rs')
  end.

Section Matcher.
Context {A : Type}.
(** [ic]: the IGNORECASE flag. *)
Variable ic : bool.

Definition chr_eq (c x : ascii) : bool :=
  if ic then bool_decide (Char.upper c = Char.upper x)
  else bool_decide (c = x).

Definition word_at (o : option ascii) : bool :=
  match o with Some c => Char.is_word c | None => false end.

Fixpoint plus_loop (p : ascii → bool) (s : str)
    (k : option ascii → str → option A) : option A :=
  match s with
  | c :: s' =>
      if p c then
        match plus_loop p s' k with
        | Some a => Some a
        | None => k (Some c) s'
        end
      else None
  | [] => None
  end.

(** [rmatch r prev s k]: match [r] at the head of [s], where [prev] is
    the character just before [s] in the subject (if any), then hand
    the position reached to the continuation [k]; a continuation that
    fails makes the matcher backtrack. *)
Fixpoint rmatch (r : regex) (prev : option ascii) (s : str)
    (k : option ascii → str → option A) : option A :=
  match r with
  | Eps => k prev s
  | Chr c =>
      match s with
      | x :: s' => if chr_eq c x then k (Some x) s' else None
      | [] => None
      end
  | Cls p =>
      match s with
      | x :: s' => if p x then k (Some x) s' else None
      | [] => None
      end
  | Cat r1 r2 => rmatch r1 prev s (λ prev' s', rmatch r2 prev' s' k)
  | Alt r1 r2 =>
      match rmatch r1 prev s k with
      | Some a => Some a
      | None => rmatch r2 prev s k
      end
  | Opt r1 =>
      match rmatch r1 prev s k with
      | Some a => Some a
      | None => k prev s
      end
  | Plus p => plus_loop p s k
  | Bol => match prev with None => k prev s | Some _ => None end
  | Eol =>
      match s with
      | [] => k prev s
      | [c] => if bool_decide (c = Char.newline) then k prev s else None
      | _ => None
      end
  | WordB =>
      if xorb (word_at prev) (word_at (head s)) then k prev s else None
  end.
End Matcher.

(** [bool(re.compile(r, flags).match(s))] *)
Definition matches (ic : bool) (r : regex) (s : str) : bool :=
  bool_decide (is_Some (rmatch ic r None s (λ _ _, Some ()))).

Fixpoint search_from (ic : bool) (r : regex) (prev : option ascii) (s : str) : bool :=
  if bool_decide (is_Some (rmatch ic r prev s (λ _ _, Some ()))) then true
  else match s with
       | [] => false
       | c :: s' => search_from ic r (Some c) s'
       end.

(** [bool(re.search(r, s, flags))] *)
Definition search (ic : bool) (r : regex) (s : str) : bool :=
  search_from ic r None s.

(** [re.findall] for a pattern whose only group is the whole pattern:
    the successive non-overlapping matches, leftmost first. *)
Fixpoint findall_from (fuel : nat) (ic : bool) (r : regex)
    (prev : option ascii) (s : str) : list str :=
  match fuel with
  | 0 => []
  | S fuel' =>
      match rmatch ic r prev s (λ prev' s', Some (prev', s')) with
      | Some (prev', rest) =>
          let m := take (length s - length rest) s in
          match m, s with
          | [], c :: s' => [] :: findall_from fuel' ic r (Some c) s'
          | [], [] => [[]]
          | _, _ => m :: findall_from fuel' ic r prev' rest
          end
      | None =>
          match s with
          | [] => []
          | c :: s' => findall_from fuel' ic r (Some c) s'
          end
      end
  end.

Definition findall (ic : bool) (r : regex) (s : str) : list str :=
  findall_from (S (length s)) ic r None s.

(** [re.split] with a pattern that is one character class: every match
    is exactly one character of the class. *)
Fixpoint split (p : ascii → bool) (s : str) : list str :=
  match s with
  | [] => [[]]
  | c :: s' =>
      if p c then [] :: split p s'
      else match split p s' with
           | t :: ts => (c :: t) :: ts
           | [] => [[c]]
           end
  end.

End Re.

(** ** The API extractor (lines 25-44) *)

(** [r"^\d+\s?(MG|ML|GM|G|KG)$"], compiled with [re.IGNORECASE]. *)
Definition dosage_pattern : Re.regex :=
  Re.Cat Re.Bol
    (Re.Cat (Re.Plus Char.is_digit)
       (Re.Cat (Re.Opt (Re.Cls Char.is_space))
          (Re.Cat
             (Re.alts (Re.word "MG")
                [Re.word "ML"; Re.word "GM"; Re.word "G"; Re.word "KG"])
             Re.Eol))).

Definition is_invalid (token : str) : bool :=
  Re.matches true dosage_pattern token || (length token <? 4)%nat.

Definition exclude_terms : gset str :=
  list_to_set (lit <$>
    ["PHARMACEUTICAL"; "LIMITED"; "PRIVATE"; "HARMLESS"; "EXPORT";
     "LAB"; "LABS"; "INDIA"; "TABLET"; "CAPSULE"; "INJECTION";
     "SYRUP"; "CREAM"; "OINTMENT"; "DROPS"; "NOS"; "KGS"; "KG"]).

(** The class [[-+/(),.% ]]. *)
Definition separators : str := lit "-+/(),.% ".
Definition is_separator (c : ascii) : bool := bool_decide (c ∈ separators).

Definition INVALID : str := lit "INVALID".

(** The comprehension's condition on [t.strip()]. *)
Definition keep_token (t : str) : bool :=
  negb (bool_decide (t = []))
  && negb (bool_decide (t ∈ exclude_terms))
  && negb (is_invalid t).

Definition valid_tokens (name : str) : list str :=
  let name := Str.upper name in
  let tokens := Re.split is_separator name in
  filter (λ t, keep_token t = true) (Str.strip <$> tokens).

Definition extract_api (name : str) : str :=
  match valid_tokens name with
  | t :: _ => t
  | [] => INVALID
  end.

(** ** Exceptions *)

Inductive exn : Type :=
| KeyError (label : string)
| AttributeError
| TypeError
| ZeroDivisionError.

Inductive result (A : Type) : Type :=
| Ok (a : A)
| Raise (e : exn).
Arguments Ok {A} a.
Arguments Raise {A} e.

Definition bind {A B} (m : result A) (f : A → result B) : result B :=
  match m with Ok a => f a | Raise e => Raise e end.

Notation "x <- m ;; k" := (bind m (λ x, k))
  (at level 100, m at next level, right associativity).

Fixpoint traverse {A B} (f : A → result B) (l : list A) : result (list B) :=
  match l with
  | [] => Ok []
  | x :: l' => y <- f x ;; ys <- traverse f l' ;; Ok (y :: ys)
  end.

Definition is_Ok {A} (m : result A) : Prop := ∃ a, m = Ok a.

(** ** Lists: the helpers behind the pandas operations *)

(** Distinct values in order of first appearance ([Series.unique]). *)
Fixpoint unique `{EqDecision A} (l : list A) : list A :=
  match l with
  | [] => []
  | x :: l' => x :: filter (λ y, y ≠ x) (unique l')
  end.

Definition count `{EqDecision A} (x : A) (l : list A) : nat :=
  length (filter (λ y, y = x) l).

(** Boolean-mask indexing. *)
Fixpoint select {A} (mask : list bool) (l : list A) : list A :=
  match mask, l with
  | b :: mask', x :: l' => if b then x :: select mask' l' else select mask' l'
  | _, _ => []
  end.

(** A stable sort: an element goes before the first one it is [leb]. *)
Fixpoint insert_by {A} (leb : A → A → bool) (x : A) (l : list A) : list A :=
  match l with
  | [] => [x]
  | y :: l' => if leb x y then x :: l else y :: insert_by leb x l'
  end.

Definition sort_by {A} (leb : A → A → bool) (l : list A) : list A :=
  foldr (insert_by leb) [] l.

Definition str_leb (s1 s2 : str) : bool :=
  String.leb (string_of_list_ascii s1) (string_of_list_ascii s2).

(** ** pandas: Series and DataFrame *)

Inductive Series : Type :=
| Object (cells : list (option str))    (* dtype object: text, None = NaN *)
| Float64 (cells : list (option Qc)).   (* numeric dtype, None = NaN *)

(** A value taken out of a column. *)
Inductive scalar : Type :=
| SStr (s : str)
| SNum (q : Qc).

Global Instance scalar_eq_dec : EqDecision scalar.
Proof. solve_decision. Defined.

Global Instance SStr_inj : Inj (=) (=) SStr.
Proof. by intros x y [= ->]. Qed.

Abbreviation DataFrame := (gmap string Series).

Module Pd.

Definition len (s : Series) : nat :=
  match s with Object l => length l | Float64 l => length l end.

(** [s[mask]] *)
Definition mask_series (mask : list bool) (s : Series) : Series :=
  match s with
  | Object l => Object (select mask l)
  | Float64 l => Float64 (select mask l)
  end.

(** [df[mask]] *)
Definition mask_rows (mask : list bool) (df : DataFrame) : DataFrame :=
  mask_series mask <$> df.

(** [df[col]] *)
Definition getitem (df : DataFrame) (col : string) : result Series :=
  match df !! col with
  | Some s => Ok s
  | None => Raise (KeyError col)
  end.

(** [s.fillna(v)] on a numeric array. *)
Definition fillna (v : Qc) (l : list (option Qc)) : list (option Qc) :=
  (λ c, Some (default v c)) <$> l.

(** [s.sum()]: NaN is skipped. Every column the script sums has been
    through [to_numeric]; an object column is a TypeError here. *)
Definition sum (s : Series) : result Qc :=
  match s with
  | Float64 l => Ok (foldr Qcplus 0%Qc (omap id l))
  | Object _ => Raise TypeError
  end.

(** [s * r] *)
Definition mul (s : Series) (r : Qc) : result Series :=
  match s with
  | Float64 l => Ok (Float64 ((λ c : option Qc, (λ x, x * r)%Qc <$> c) <$> l))
  | Object _ => Raise TypeError
  end.

(** [s != v] and [s == v] against a string. *)
Definition ne (s : Series) (v : str) : list bool :=
  match s with
  | Object l => (λ c, bool_decide (c ≠ Some v)) <$> l
  | Float64 l => (λ _, true) <$> l
  end.

Definition eq (s : Series) (v : str) : list bool :=
  match s with
  | Object l => (λ c, bool_decide (c = Some v)) <$> l
  | Float64 l => (λ _, false) <$> l
  end.

(** [s.isin(vs)] *)
Definition isin (s : Series) (vs : list str) : list bool :=
  match s with
  | Object l =>
      (λ c, match c with Some x => bool_decide (x ∈ vs) | None => false end) <$> l
  | Float64 l => (λ _, false) <$> l
  end.

(** The [.str] accessor exists on object columns only. *)
Definition str_accessor (s : Series) : result (list (option str)) :=
  match s with
  | Object l => Ok l
  | Float64 _ => Raise AttributeError
  end.

(** [s.str.contains(pat, case=..., na=...)] *)
Definition str_contains (ic : bool) (pat : Re.regex) (na : bool)
    (s : Series) : result (list bool) :=
  l <- str_accessor s ;;
  Ok ((λ c, match c with Some x => Re.search ic pat x | None => na end) <$> l).

(** [s.str.upper()] *)
Definition str_upper (s : Series) : result Series :=
  l <- str_accessor s ;; Ok (Object ((λ c : option str, Str.upper <$> c) <$> l)).

(** [s.str.split().str[0]]: the first word of each cell, NaN when the
    cell is NaN or has no word. *)
Definition str_split_first (s : Series) : result (list (option str)) :=
  l <- str_accessor s ;; Ok ((λ c, c ≫= (head ∘ Str.split)) <$> l).

(** [s.str.extractall(pat)[0]]: every match of every cell, in order. *)
Definition str_extractall (pat : Re.regex) (s : Series) : result (list str) :=
  l <- str_accessor s ;;
  Ok (concat ((λ c, match c with Some x => Re.findall false pat x | None => [] end) <$> l)).

(** The non-NaN values of a column. *)
Definition values (s : Series) : list scalar :=
  match s with
  | Object l => SStr <$> omap id l
  | Float64 l => SNum <$> omap id l
  end.

(** [s.value_counts().index.tolist()]: the distinct non-NaN values, most
    frequent first. Equally frequent values are kept in their order of
    first appearance, as pandas' sort leaves them on short columns; no
    statement below depends on that order. *)
Definition value_counts_index (s : Series) : list scalar :=
  let vs := values s in
  sort_by (λ x y, (count y vs <=? count x vs)%nat) (unique vs).

(** [s.mode()] on text: the most frequent non-NaN values, in sorted order. *)
Definition mode (l : list (option str)) : list str :=
  let vs := omap id l in
  let top := max_list ((λ x, count x vs) <$> vs) in
  sort_by str_leb (filter (λ x, count x vs = top) (unique vs)).

(** [s[0]] on the result of [mode()], whose index is 0, 1, ... *)
Definition first (l : list str) : result str :=
  match l with
  | x :: _ => Ok x
  | [] => Raise (KeyError "0")
  end.

End Pd.

(** [", ".join(xs)]: a TypeError when an item is not a string. *)
Definition join_scalars (sep : str) (xs : list scalar) : result str :=
  l <- traverse (λ x, match x with SStr s => Ok s | SNum _ => Raise TypeError end) xs ;;
  Ok (Str.join sep l).

(** Python's [max(x, y)] on two arguments: [y] when [y > x], else [x]. *)
Definition py_max (x y : Qc) : Qc :=
  if bool_decide (x < y)%Qc then y else x.

(** [x / y]. A zero divisor is an error of the model, whatever the
    number types at hand do with it (ZeroDivisionError for Python's, inf
    or nan with a warning for numpy's). *)
Definition py_div (x y : Qc) : result Qc :=
  if bool_decide (y = 0%Qc) then Raise ZeroDivisionError else Ok (x / y)%Qc.

Definition Qc_of_nat (n : nat) : Qc := Q2Qc (inject_Z (Z.of_nat n)).

(** ** The script (lines 12-106) *)

Record AnalysisRecord : Type := {
  API : str;
  Category : str;
  Export_Count : nat;
  Total_Shipments : Qc;
  Common_Strengths : str;
  Avg_Qty_Export : Qc;
  Packaging_Types : str;
  Total_Nos : Qc;
  Total_Kg : Qc;
  Avg_FOB_Pack : Qc;
  Avg_Price_Unit : Qc
}.

(** What one run of the script shows. *)
Inductive outcome : Type :=
| Report (analysis_data : list AnalysisRecord)
| Warning (message : string)
| Uncaught (e : exn).

Definition numeric_cols : list string :=
  ["Quantity"; "FOB (INR)"; "Item Rate(INR)"; "FOB (USD)"].

(** The literal 0.012 of line 22. *)
Definition inr_usd_rate : Qc := Q2Qc (12 # 1000).

(** [r"\b(TABLET|CAPSULE|INJECTION|SYRUP|CREAM|OINTMENT|DROPS)\b"] *)
Definition human_indicators : Re.regex :=
  Re.Cat Re.WordB
    (Re.Cat
       (Re.alts (Re.word "TABLET")
          [Re.word "CAPSULE"; Re.word "INJECTION"; Re.word "SYRUP";
           Re.word "CREAM"; Re.word "OINTMENT"; Re.word "DROPS"])
       Re.WordB).

(** [r"(\d+\s?MG|\d+\s?ML)"] *)
Definition strengths_pattern : Re.regex :=
  Re.Alt
    (Re.Cat (Re.Plus Char.is_digit)
       (Re.Cat (Re.Opt (Re.Cls Char.is_space)) (Re.word "MG")))
    (Re.Cat (Re.Plus Char.is_digit)
       (Re.Cat (Re.Opt (Re.Cls Char.is_space)) (Re.word "ML"))).

(** The number of rows of a frame. All columns of a frame have the same
    length, and every frame the script measures has the "API" column. *)
Definition shape0 (df : DataFrame) : nat :=
  match df !! "API" with Some s => Pd.len s | None => 0 end.

Section Script.
(** Two functions of pandas and Python that the script relies on:
    [pd.to_numeric] on one text cell ([None] when the text is no
    number), and [str] on a number. *)
Variable parse_number : str → option Qc.
Variable str_of_number : Qc → str.

(** [pd.to_numeric(s, errors="coerce")] *)
Definition to_numeric (s : Series) : list (option Qc) :=
  match s with
  | Object l => (λ c : option str, c ≫= parse_number) <$> l
  | Float64 l => l
  end.

(** Lines 16-18, one turn of the loop. *)
Definition coerce_col (df : DataFrame) (col : string) : DataFrame :=
  match df !! col with
  | Some s => <[col := Float64 (Pd.fillna 0%Qc (to_numeric s))]> df
  | None => df
  end.

Definition numeric_cleanup (df : DataFrame) : DataFrame :=
  foldl coerce_col df numeric_cols.

(** Lines 21-22. *)
Definition fob_usd_fallback (df : DataFrame) : result DataFrame :=
  unusable <- match df !! "FOB (USD)" with
              | None => Ok true
              | Some s => t <- Pd.sum s ;; Ok (bool_decide (t = 0%Qc))
              end ;;
  if unusable : bool then
    inr <- Pd.getitem df "FOB (INR)" ;;
    usd <- Pd.mul inr inr_usd_rate ;;
    Ok (<["FOB (USD)" := usd]> df)
  else Ok df.

Definition normalize (df : DataFrame) : result DataFrame :=
  fob_usd_fallback (numeric_cleanup df).

(** [str(name)] for each cell of a column; [str(nan)] is ["nan"]. *)
Definition str_cells (s : Series) : list str :=
  match s with
  | Object l => (λ c, match c with Some x => x | None => lit "nan" end) <$> l
  | Float64 l =>
      (λ c, match c with Some q => str_of_number q | None => lit "nan" end) <$> l
  end.

(** Line 46. *)
Definition add_api (df : DataFrame) : result DataFrame :=
  names <- Pd.getitem df "Product Name" ;;
  Ok (<["API" := Object ((λ name, Some (extract_api name)) <$> str_cells names)]> df).

(** Line 47. *)
Definition valid_df (df : DataFrame) : result DataFrame :=
  api <- Pd.getitem df "API" ;;
  Ok (Pd.mask_rows (Pd.ne api INVALID) df).

(** Line 51. *)
Definition human_df (valid : DataFrame) : result DataFrame :=
  names <- Pd.getitem valid "Product Name" ;;
  m <- Pd.str_contains true human_indicators false names ;;
  Ok (Pd.mask_rows m valid).

(** [sorted(s.unique())] on the cells of a text column. [unique] keeps
    NaN as one value; [sorted] compares the values, and comparing NaN
    with text is a TypeError. *)
Definition sorted_unique (cells : list (option str)) : result (list (option str)) :=
  match unique cells with
  | [] => Ok []
  | [c] => Ok [c]
  | values =>
      texts <- traverse (λ c : option str,
                 match c with Some s => Ok s | None => Raise TypeError end) values ;;
      Ok (Some <$> sort_by str_leb texts)
  end.

(** Line 55: the entries of the select box, for the cells of
    [human_df["API"]], the text column that line 46 makes. *)
Definition filter_options (apis : list (option str)) : result (list (option str)) :=
  values <- sorted_unique apis ;; Ok (Some (lit "All") :: values).

(** Line 57; [api_filter] is the sidebar's selection. *)
Definition filtered_df (human : DataFrame) (api_filter : str) : result DataFrame :=
  if bool_decide (api_filter = lit "All") then Ok human
  else
    api <- Pd.getitem human "API" ;;
    Ok (Pd.mask_rows (Pd.eq api api_filter) human).

(** Lines 12-57. *)
Definition prepare (df : DataFrame) (api_filter : str) : result DataFrame :=
  df <- normalize df ;;
  df <- add_api df ;;
  valid <- valid_df df ;;
  human <- human_df valid ;;
  filtered_df human api_filter.

(** The keys of [groupby]: the distinct non-NaN values, sorted. The
    "API" column is the text column of line 46. *)
Definition group_keys (s : Series) : result (list str) :=
  match s with
  | Object l => Ok (sort_by str_leb (unique (omap id l)))
  | Float64 _ => Raise TypeError
  end.

(** [df.groupby("API").agg(Total_Quantity=..., Total_FOB=...)]: one
    row per key, in key order. *)
Definition groupby_agg (df : DataFrame) : result (list (str * Qc * Qc)) :=
  api <- Pd.getitem df "API" ;;
  keys <- group_keys api ;;
  qty <- Pd.getitem df "Quantity" ;;
  fob <- Pd.getitem df "FOB (USD)" ;;
  traverse (λ k,
    let rows := Pd.eq api k in
    total_quantity <- Pd.sum (Pd.mask_series rows qty) ;;
    total_fob <- Pd.sum (Pd.mask_series rows fob) ;;
    Ok (k, total_quantity, total_fob)) keys.

(** [.nlargest(5, "Total_Quantity")]: largest first, ties in the
    order of the frame. *)
Definition nlargest (n : nat) (rows : list (str * Qc * Qc)) : list (str * Qc * Qc) :=
  take n (sort_by (λ a b, bool_decide (b.1.2 ≤ a.1.2)%Qc) rows).

(** Lines 61-64. *)
Definition top_apis (filtered : DataFrame) : result (list str) :=
  groups <- groupby_agg filtered ;;
  Ok ((λ g, g.1.1) <$> nlargest 5 groups).

(** Lines 70-91: the record of one API. *)
Definition analyse (filtered : DataFrame) (api : str) : result AnalysisRecord :=
  col <- Pd.getitem filtered "API" ;;
  let api_df := Pd.mask_rows (Pd.eq col api) filtered in
  names <- Pd.getitem api_df "Product Name" ;;
  found <- Pd.str_extractall strengths_pattern names ;;
  let strengths := take 3 (unique found) in
  units <- Pd.getitem api_df "Unit" ;;
  let packaging := take 3 (Pd.value_counts_index units) in
  first_words <- Pd.str_split_first names ;;
  category <- Pd.first (Pd.mode first_words) ;;
  qty <- Pd.getitem api_df "Quantity" ;;
  total <- Pd.sum qty ;;
  let common :=
    if existsb (λ s, negb (bool_decide (s = []))) strengths
    then Str.join (lit ", ") strengths else lit "Standard" in
  avg_qty <- py_div total (Qc_of_nat (shape0 api_df `max` 1)) ;;
  packaging_types <-
    match packaging with
    | [] => Ok (lit "Various")
    | _ => join_scalars (lit ", ") packaging
    end ;;
  unit_upper <- Pd.str_upper units ;;
  nos <- Pd.sum (Pd.mask_series (Pd.eq unit_upper (lit "NOS")) qty) ;;
  kg <- Pd.sum (Pd.mask_series (Pd.isin unit_upper [lit "KG"; lit "KGS"]) qty) ;;
  fob <- Pd.getitem api_df "FOB (USD)" ;;
  fob_total <- Pd.sum fob ;;
  fob_pack <- py_div fob_total (py_max total 1%Qc) ;;
  price_unit <- py_div fob_total (py_max total 1%Qc) ;;
  Ok {| API := api;
        Category := category;
        Export_Count := shape0 api_df;
        Total_Shipments := total;
        Common_Strengths := common;
        Avg_Qty_Export := avg_qty;
        Packaging_Types := packaging_types;
        Total_Nos := nos;
        Total_Kg := kg;
        Avg_FOB_Pack := fob_pack;
        Avg_Price_Unit := price_unit |}.

(** Lines 61-91. *)
Definition analysis_data (filtered : DataFrame) : result (list AnalysisRecord) :=
  apis <- top_apis filtered ;;
  traverse (analyse filtered) apis.

Definition no_data : string :=
  "No valid pharmaceutical data found in uploaded file".

(** Lines 12-106, for an uploaded table [df]. *)
Definition run (df : DataFrame) (api_filter : str) : outcome :=
  match prepare df api_filter with
  | Raise e => Uncaught e
  | Ok filtered =>
      if (shape0 filtered =? 0)%nat then Warning no_data
      else match analysis_data filtered with
           | Ok records => Report records
           | Raise e => Uncaught e
           end
  end.

End Script.

(** * The vocabulary of the statements

    Predicates that follow the words of the specification (what a
    dosage form is, when a token is discarded, what a split is), and the
    names that the statements about frames need. *)

Module Spec.
Import Re.

(** ** Strings *)

(** No whitespace at the front. *)
Definition no_lead (s : str) : Prop :=
  match s with
  | c :: _ => Char.is_space c = false
  | [] => True
  end.

(** What [strip] returns: no whitespace at either end. *)
Definition trimmed (s : str) : Prop := no_lead s ∧ no_lead (reverse s).

(** Text of ASCII characters, on which [str.upper] maps one character
    to one character. *)
Definition is_ascii (s : str) : Prop := Forall (λ c, (Char.code c < 128)%nat) s.

(** ** Patterns *)

(** [steps ic r prev s prev' s']: [r] can match a prefix of [s] (with
    [prev] just before it) and leave [s'] (with [prev'] just before). *)
Fixpoint steps (ic : bool) (r : regex) (prev : option ascii) (s : str)
    (prev' : option ascii) (s' : str) : Prop :=
  match r with
  | Eps => prev' = prev ∧ s' = s
  | Chr c => ∃ x, s = x :: s' ∧ chr_eq ic c x = true ∧ prev' = Some x
  | Cls p => ∃ x, s = x :: s' ∧ p x = true ∧ prev' = Some x
  | Cat r1 r2 => ∃ p1 s1, steps ic r1 prev s p1 s1 ∧ steps ic r2 p1 s1 prev' s'
  | Alt r1 r2 => steps ic r1 prev s prev' s' ∨ steps ic r2 prev s prev' s'
  | Opt r1 => steps ic r1 prev s prev' s' ∨ (prev' = prev ∧ s' = s)
  | Plus p =>
      ∃ x xs, s = (x :: xs) ++ s' ∧ Forall (λ c, p c = true) (x :: xs)
        ∧ prev' = list.last (x :: xs)
  | Bol => prev = None ∧ prev' = prev ∧ s' = s
  | Eol => (s = [] ∨ s = [Char.newline]) ∧ prev' = prev ∧ s' = s
  | WordB => xorb (word_at prev) (word_at (head s)) = true ∧ prev' = prev ∧ s' = s
  end.

(** Joining the tokens with the separators that were removed gives the
    subject back. *)
Fixpoint interleave (ts : list str) (seps : str) : str :=
  match ts, seps with
  | t :: ts', c :: seps' => t ++ c :: interleave ts' seps'
  | t :: _, [] => t
  | [], _ => []
  end.

(** [raw] is the split of [s] on the separator characters: no token
    holds a separator, and putting the separators back gives [s]. *)
Definition split_on_separators (s : str) (raw : list str) : Prop :=
  Forall (Forall (λ c, c ∉ separators)) raw
  ∧ ∃ seps, Forall (λ c, c ∈ separators) seps
      ∧ length raw = S (length seps)
      ∧ interleave raw seps = s.

(** ** Tokens *)

(** The units of the dosage pattern. *)
Definition dosage_units : list str := lit <$> ["MG"; "ML"; "GM"; "G"; "KG"].

(** "One or more digits, an optional single whitespace character, then
    one of the units", read case-insensitively. *)
Definition dosage_form (t : str) : Prop :=
  ∃ ds ws u, t = ds ++ ws ++ u
    ∧ ds ≠ [] ∧ Forall (λ c, Char.is_digit c = true) ds
    ∧ (ws = [] ∨ ∃ c, ws = [c] ∧ Char.is_space c = true)
    ∧ Str.upper u ∈ dosage_units.

(** The three reasons for which the comprehension drops a token, and
    the emptiness test before them. *)
Definition discarded (t : str) : Prop :=
  t = [] ∨ t ∈ exclude_terms ∨ dosage_form t ∨ length t < 4.

(** The same, with the constants of lines 31-37 written out: the nine
    characters on which a name is split, the words of the exclusion
    vocabulary, and what a split and a discarded token are in their
    terms. *)
Definition nine_separators : list ascii :=
  ["-"; "+"; "/"; "("; ")"; ","; "."; "%"; " "]%char.

Definition vocabulary : list str :=
  lit <$> ["PHARMACEUTICAL"; "LIMITED"; "PRIVATE"; "HARMLESS"; "EXPORT";
           "LAB"; "LABS"; "INDIA"; "TABLET"; "CAPSULE"; "INJECTION";
           "SYRUP"; "CREAM"; "OINTMENT"; "DROPS"; "NOS"; "KGS"; "KG"].

Definition split_on (seps : list ascii) (s : str) (raw : list str) : Prop :=
  Forall (Forall (λ c, c ∉ seps)) raw
  ∧ ∃ cs, Forall (λ c, c ∈ seps) cs
      ∧ length raw = S (length cs)
      ∧ interleave raw cs = s.

Definition dropped (t : str) : Prop :=
  t = [] ∨ t ∈ vocabulary ∨ dosage_form t ∨ length t < 4.

(** The words of the human-use pattern. *)
Definition human_keywords : list str :=
  lit <$> ["TABLET"; "CAPSULE"; "INJECTION"; "SYRUP"; "CREAM"; "OINTMENT"; "DROPS"].

(** [w] stands in [s] as a whole word: the character before it and the
    character after it, if there are any, are not word characters. *)
Definition whole_word_in (w s : str) : Prop :=
  ∃ pre post, s = pre ++ w ++ post
    ∧ word_at (list.last pre) = false ∧ word_at (head post) = false.

(** A name with a human-use keyword, in any letter case. *)
Definition human_use (s : str) : Prop :=
  ∃ w, Str.upper w ∈ human_keywords ∧ whole_word_in w s.

(** What [r"(\d+\s?MG|\d+\s?ML)"] matches: one or more digits, an
    optional single whitespace character, then MG or ML in capitals. *)
Definition strength_form (s : str) : Prop :=
  ∃ ds ws u, s = ds ++ ws ++ u
    ∧ ds ≠ [] ∧ Forall (λ c, Char.is_digit c = true) ds
    ∧ (ws = [] ∨ ∃ c, ws = [c] ∧ Char.is_space c = true)
    ∧ (u = lit "MG" ∨ u = lit "ML").

(** ** Normalisation *)

Section Normalize.
Variable parse_number : str → option Qc.

(** What lines 16-18 make of a column that is present. *)
Definition coerced (s : Series) : Series :=
  Float64 (Pd.fillna 0%Qc (to_numeric parse_number s)).

(** A numeric column without NaN. *)
Definition all_numbers (s : Series) : Prop := ∃ l, s = Float64 (Some <$> l).

(** The FOB (USD) column cannot be used as it is: it is absent, or its
    coerced entries sum to 0. *)
Definition usd_unusable (df : DataFrame) : Prop :=
  df !! "FOB (USD)" = None
  ∨ ∃ s, df !! "FOB (USD)" = Some s ∧ Pd.sum (coerced s) = Ok 0%Qc.

Definition usd_usable (df : DataFrame) : Prop :=
  ∃ s t, df !! "FOB (USD)" = Some s ∧ Pd.sum (coerced s) = Ok t ∧ t ≠ 0%Qc.

End Normalize.

(** Line 22. *)
Definition fill_usd (df : DataFrame) : result DataFrame :=
  inr <- Pd.getitem df "FOB (INR)" ;;
  usd <- Pd.mul inr inr_usd_rate ;;
  Ok (<["FOB (USD)" := usd]> df).

(** ** Frames *)

Definition is_float (s : Series) : bool :=
  match s with Float64 _ => true | Object _ => false end.

(** The "Product Name" and "API" columns, row by row. *)
Definition aligned (R : option str → option str → Prop) (df : DataFrame) : Prop :=
  ∃ names apis,
    df !! "Product Name" = Some (Object names)
    ∧ df !! "API" = Some (Object apis)
    ∧ Forall2 R names apis.

(** A row of the filtered frame: it has a product name with a
    human-use keyword, its API is the token extracted from that name,
    and the token is not the sentinel. *)
Definition valid_row (n a : option str) : Prop :=
  ∃ s, n = Some s ∧ a = Some (extract_api s) ∧ extract_api s ≠ INVALID
    ∧ Re.search true human_indicators s = true.

(** The rows of one API: line 70. *)
Definition api_df (filtered : DataFrame) (api : str) : result DataFrame :=
  col <- Pd.getitem filtered "API" ;;
  Ok (Pd.mask_rows (Pd.eq col api) filtered).

(** [df[col].sum()] *)
Definition column_sum (df : DataFrame) (col : string) : result Qc :=
  s <- Pd.getitem df col ;; Pd.sum s.

(** The API tokens of a frame, row by row. *)
Definition api_tokens (df : DataFrame) : list str :=
  match df !! "API" with
  | Some (Object l) => omap id l
  | _ => []
  end.

(** Whether lines 46-57 keep a row, read off its product name: the
    name is present, it has a valid token, it has a human-use keyword,
    and the token is the one selected in the sidebar, if one is. *)
Definition keeps_row (api_filter : str) (name : option str) : bool :=
  match name with
  | Some s =>
      negb (bool_decide (extract_api s = INVALID))
      && Re.search true human_indicators s
      && (bool_decide (api_filter = lit "All")
          || bool_decide (extract_api s = api_filter))
  | None => false
  end.

(** [filtered[filtered["API"] == api]["Quantity"].sum()] *)
Definition group_quantity (filtered : DataFrame) (api : str) : result Qc :=
  group <- api_df filtered api ;; column_sum group "Quantity".

(** The sum of a list of numbers, as [Pd.sum] computes it. *)
Definition Qc_sum (l : list Qc) : Qc := foldr Qcplus 0%Qc l.

(** The unit of a row reads as one of [names], whatever its letter
    case; a missing unit reads as none. *)
Definition unit_reads (names : list str) (unit : option str) : bool :=
  match unit with
  | Some u => bool_decide (Str.upper u ∈ names)
  | None => false
  end.

(** The non-NaN cells of the Unit column on the rows of [api], when
    that column is numeric. *)
Definition unit_numbers (filtered : DataFrame) (api : str) : list Qc :=
  match api_df filtered api with
  | Ok group =>
      match group !! "Unit" with
      | Some (Float64 cells) => omap id cells
      | _ => []
      end
  | Raise _ => []
  end.

(** What a numeric Unit column makes of the record of [api]: line 86
    joins the unit values as text, a TypeError when there is one; with
    none, line 87 asks the column for [.str], an AttributeError. *)
Definition numeric_unit_error (filtered : DataFrame) (api : str) : exn :=
  match unit_numbers filtered api with
  | [] => AttributeError
  | _ :: _ => TypeError
  end.

(** ** Sums without rounding *)

Definition Qc_of_Z (z : Z) : Qc := Q2Qc (inject_Z z).

(** Cells that the program adds without error: whole numbers whose
    absolute values add up to less than 2^53. Any sum of some of them,
    taken in any order, is a whole number below 2^53 in absolute value
    at every step; float64 holds such numbers exactly and int64 holds
    them without wrap-around, so that on these cells the exact sums of
    [Pd.sum] are the sums that pandas computes. *)
Definition adds_exactly (l : list (option Qc)) : Prop :=
  ∃ zs : list Z, l = (λ z, Some (Qc_of_Z z)) <$> zs
    ∧ (foldr Z.add 0 (Z.abs <$> zs) < 2 ^ 53)%Z.

(** A frame whose Quantity column is made of such cells. *)
Definition exact_quantities (df : DataFrame) : Prop :=
  ∃ l, df !! "Quantity" = Some (Float64 l) ∧ adds_exactly l.

(** There is no FOB (USD) to use: the column is absent, or its coerced
    entries, which add without error, sum to 0. *)
Definition no_usable_usd (parse_number : str → option Qc) (df : DataFrame) : Prop :=
  df !! "FOB (USD)" = None
  ∨ ∃ s l, df !! "FOB (USD)" = Some s
      ∧ coerced parse_number s = Float64 l ∧ adds_exactly l
      ∧ Pd.sum (Float64 l) = Ok 0%Qc.

(** ** Rankings *)

(** The order of a list sorted by [leb] with a stable sort: by [leb],
    and, where [leb] holds both ways, by [R2], the order that the
    elements had before. *)
Definition stable_order {A} (leb : A → A → bool) (R2 : A → A → Prop) (x y : A) : Prop :=
  leb x y = true ∧ (leb y x = true → R2 x y).

(** The comparison of [nlargest], and the order of the groups' keys. *)
Abbreviation by_quantity :=
  (λ a b : str * Qc * Qc, bool_decide (b.1.2 ≤ a.1.2)%Qc).
Abbreviation by_key := (λ a b : str * Qc * Qc, str_leb a.1.1 b.1.1 = true).

End Spec.

Import Spec.

(** * Sample tables *)

(** Stand-ins for the two library functions, for the sample tables:
    text made of decimal digits is a number, any other text is not.
    The one sample table with a numeric "Product Name" column stops
    at line 51 whatever [str] makes of its numbers. *)
Module Sample.

Definition digit_value (c : ascii) : Z := Z.of_nat (Char.code c - 48).

Definition parse_number (s : str) : option Qc :=
  match s with
  | [] => None
  | _ =>
      if forallb Char.is_digit s
      then Some (Q2Qc (inject_Z (foldl (λ n c, 10 * n + digit_value c)%Z 0%Z s)))
      else None
  end.

Definition str_of_number (q : Qc) : str := lit "0".

Definition num (z : Z) : option Qc := Some (Q2Qc (inject_Z z)).
Definition text (s : string) : option str := Some (lit s).

Definition show (s : str) : string := string_of_list_ascii s.

(** The entries of a numeric column, as plain fractions. *)
Definition entries (s : option Series) : list (option Q) :=
  match s with
  | Some (Float64 l) => (λ c : option Qc, this <$> c) <$> l
  | _ => []
  end.

Definition normalized (df : DataFrame) : DataFrame :=
  match normalize parse_number df with
  | Ok df' => df'
  | Raise _ => ∅
  end.

Definition run_sample (df : DataFrame) (api_filter : string) : outcome :=
  run parse_number str_of_number df (lit api_filter).

Definition filtered_sample (df : DataFrame) (api_filter : string) : DataFrame :=
  match prepare parse_number str_of_number df (lit api_filter) with
  | Ok filtered => filtered
  | Raise _ => ∅
  end.

Definition records_of (o : outcome) : list AnalysisRecord :=
  match o with Report records => records | _ => [] end.

Definition blank : AnalysisRecord :=
  {| API := []; Category := []; Export_Count := 0; Total_Shipments := 0%Qc;
     Common_Strengths := []; Avg_Qty_Export := 0%Qc; Packaging_Types := [];
     Total_Nos := 0%Qc; Total_Kg := 0%Qc; Avg_FOB_Pack := 0%Qc;
     Avg_Price_Unit := 0%Qc |}.

Definition record_at (df : DataFrame) (api_filter : string) (i : nat) : AnalysisRecord :=
  default blank (records_of (run_sample df api_filter) !! i).

(** FOB (INR) given as text, one entry unparseable; no FOB (USD). *)
Definition inr_table : DataFrame :=
  {[ "FOB (INR)" := Object [text "1000"; text "n/a"; None] ]}.

(** FOB (USD) entries that cancel out. *)
Definition cancelling_usd_table : DataFrame :=
  {[ "FOB (INR)" := Float64 [num 1000; num 2000];
     "FOB (USD)" := Float64 [num 3; num (-3)] ]}.

(** Neither FOB column. *)
Definition no_fob_table : DataFrame :=
  {[ "Product Name" := Object [text "ASPIRIN TABLET"];
     "Unit" := Object [text "NOS"];
     "Quantity" := Float64 [num 5] ]}.

(** No Quantity column. *)
Definition no_quantity_table : DataFrame :=
  {[ "Product Name" := Object [text "ASPIRIN TABLET"];
     "Unit" := Object [text "NOS"];
     "FOB (INR)" := Float64 [num 1000] ]}.

(** A negative quantity. *)
Definition negative_table : DataFrame :=
  {[ "Quantity" := Float64 [num (-5)];
     "FOB (INR)" := Float64 [num 1000] ]}.

(** Six APIs, one of them on two rows. *)
Definition six_api_table : DataFrame :=
  {[ "Product Name" :=
       Object [text "ASPIRIN 75MG TABLET"; text "IBUPROFEN SYRUP";
               text "PARACETAMOL 500MG TABLET"; text "AMOXICILLIN CAPSULE";
               text "CETIRIZINE DROPS"; text "METFORMIN TABLET";
               text "ASPIRIN TABLET"; text "XYZ POWDER"];
     "Unit" := Object [text "NOS"; text "KGS"; text "NOS"; text "NOS";
                       text "NOS"; text "KG"; text "NOS"; text "KG"];
     "Quantity" := Float64 [num 10; num 20; num 30; num 40; num 50; num 60; num 5; num 99];
     "FOB (INR)" := Float64 [num 100; num 100; num 100; num 100;
                             num 100; num 100; num 100; num 100] ]}.

(** Two rows of one API whose first words differ; the quantities are 0. *)
Definition tie_table : DataFrame :=
  {[ "Product Name" := Object [text "ZYX PARACETAMOL TABLET"; text "ABC PARACETAMOL TABLET"];
     "Unit" := Object [text "NOS"; text "NOS"];
     "Quantity" := Float64 [num 0; num 0];
     "FOB (INR)" := Float64 [num 1000; num 2000] ]}.

Definition no_unit_table : DataFrame := delete "Unit" tie_table.
Definition no_name_table : DataFrame := delete "Product Name" tie_table.

(** Two APIs with the same total quantity; a strength in lower case,
    a unit in lower case and a missing unit. *)
Definition tied_table : DataFrame :=
  {[ "Product Name" := Object [text "ZINC TABLET 50 MG"; text "ASPIRIN tablet 75mg";
                               text "ZINC SYRUP"];
     "Unit" := Object [text "nos"; text "KG"; None];
     "Quantity" := Float64 [num 4; num 10; num 6];
     "FOB (INR)" := Float64 [num 100; num 200; num 300] ]}.

(** A Unit column of numbers, and a Product Name column of numbers. *)
Definition numeric_unit_table : DataFrame :=
  <["Unit" := Float64 [num 1; num 2; None]]> tied_table.
Definition numeric_name_table : DataFrame :=
  <["Product Name" := Float64 [num 1; None; num 3]]> tied_table.

(** The cells of a text column. *)
Definition text_cells (s : option Series) : list (option str) :=
  match s with Some (Object l) => l | _ => [] end.

(** The record of one API of a table's filtered frame. *)
Definition analysed (df : DataFrame) (api : string) : AnalysisRecord :=
  match analyse (filtered_sample df "All") (lit api) with
  | Ok r => r
  | Raise _ => blank
  end.

Definition sentinel_table : DataFrame :=
  {[ "Product Name" := Object [text "INVALID SYRUP"; text "ASPIRIN TABLET"];
     "Unit" := Object [text "NOS"; text "NOS"];
     "Quantity" := Float64 [num 7; num 3];
     "FOB (INR)" := Float64 [num 1000; num 2000] ]}.

End Sample.

(** * Properties *)

(** ** Characters and strings *)

Module CharFacts.

Lemma upper_idem (c : ascii) : Char.upper (Char.upper c) = Char.upper c.
Proof. destruct c as [[] [] [] [] [] [] [] []]; reflexivity. Qed.

Lemma newline_is_space : Char.is_space Char.newline = true.
Proof. reflexivity. Qed.

End CharFacts.

Module StrFacts.

Lemma lstrip_no_lead (s : str) : no_lead (Str.lstrip s).
Proof.
  induction s as [|c s IH]; simpl; [done|].
  destruct (Char.is_space c) eqn:E; [done|]. simpl. done.
Qed.

Lemma no_lead_lstrip (s : str) : no_lead s → Str.lstrip s = s.
Proof. destruct s as [|c s]; simpl; [done|]. by intros ->. Qed.

Lemma lstrip_suffix (s : str) : Str.lstrip s `suffix_of` s.
Proof.
  induction s as [|c s IH]; simpl; [done|].
  destruct (Char.is_space c); [by apply suffix_cons_r | done].
Qed.

Lemma lstrip_snoc (s : str) (c : ascii) :
  Char.is_space c = false → ∃ s', Str.lstrip (s ++ [c]) = s' ++ [c].
Proof.
  intros Hc. induction s as [|x s IH]; simpl.
  - rewrite Hc. by exists [].
  - destruct (Char.is_space x); [done|]. by exists (x :: s).
Qed.

Lemma rstrip_no_lead (s : str) : no_lead s → no_lead (Str.rstrip s).
Proof.
  destruct s as [|c s]; [done|]. simpl. intros Hc.
  unfold Str.rstrip. simpl.
  rewrite reverse_cons.
  destruct (lstrip_snoc (reverse s) c Hc) as [s' ->].
  rewrite reverse_snoc. simpl. done.
Qed.

Lemma strip_trimmed (s : str) : trimmed (Str.strip s).
Proof.
  split.
  - apply rstrip_no_lead, lstrip_no_lead.
  - unfold Str.strip, Str.rstrip. rewrite reverse_involutive. apply lstrip_no_lead.
Qed.

Lemma trimmed_strip (s : str) : trimmed s → Str.strip s = s.
Proof.
  intros [H1 H2]. unfold Str.strip, Str.rstrip.
  rewrite (no_lead_lstrip s H1), (no_lead_lstrip _ H2).
  apply reverse_involutive.
Qed.

Lemma Forall_lstrip (P : ascii → Prop) (s : str) : Forall P s → Forall P (Str.lstrip s).
Proof.
  intros H. destruct (lstrip_suffix s) as [pre Hpre].
  rewrite Hpre in H. by apply Forall_app in H as [_ ?].
Qed.

Lemma Forall_strip (P : ascii → Prop) (s : str) : Forall P s → Forall P (Str.strip s).
Proof.
  intros H. unfold Str.strip, Str.rstrip.
  apply Forall_reverse, Forall_lstrip, Forall_reverse, Forall_lstrip, H.
Qed.

(** The pieces [strip] removes are whitespace. *)
Lemma lstrip_spec (s : str) :
  ∃ pre, s = pre ++ Str.lstrip s ∧ Forall (λ c, Char.is_space c = true) pre.
Proof.
  induction s as [|c s (pre & IH & Hpre)]; simpl.
  - by exists [].
  - destruct (Char.is_space c) eqn:E.
    + exists (c :: pre). split; [simpl; congruence | by constructor].
    + by exists [].
Qed.

Lemma strip_spec (s : str) :
  ∃ pre post, s = pre ++ Str.strip s ++ post
    ∧ Forall (λ c, Char.is_space c = true) pre
    ∧ Forall (λ c, Char.is_space c = true) post.
Proof.
  destruct (lstrip_spec s) as (pre & Hs & Hpre).
  destruct (lstrip_spec (reverse (Str.lstrip s))) as (post & Hr & Hpost).
  exists pre, (reverse post). split_and!; [|done|by apply Forall_reverse].
  rewrite Hs at 1. f_equal. unfold Str.strip, Str.rstrip.
  rewrite <- reverse_app, <- Hr. by rewrite reverse_involutive.
Qed.

Lemma trimmed_last_not_newline (s : str) : trimmed s → list.last s ≠ Some Char.newline.
Proof.
  intros [_ H] Hl. apply last_Some in Hl as [s' ->].
  rewrite reverse_snoc in H. simpl in H.
  by rewrite CharFacts.newline_is_space in H.
Qed.

End StrFacts.

(** ** The matcher against a declarative reading of the patterns *)

Module ReFacts.
Import Re.

Section Correct.
Context {A : Type} (ic : bool).
Implicit Types k : option ascii → str → option A.

Lemma plus_loop_Some p s k :
  is_Some (plus_loop p s k) ↔
  ∃ prev' s', steps ic (Plus p) None s prev' s' ∧ is_Some (k prev' s').
Proof.
  induction s as [|c s IH]; simpl.
  - split; [by intros [? ?]|]. by intros (? & ? & (x & xs & ? & _) & _).
  - destruct (p c) eqn:Hc.
    + destruct (plus_loop p s k) as [a|] eqn:Hl.
      * split; [intros _|by eauto].
        destruct IH as [IH _]. destruct (IH (mk_is_Some _ _ eq_refl))
          as (p' & s' & (x & xs & -> & Hall & ->) & Hk).
        exists (list.last (c :: x :: xs)), s'. split; [|done].
        exists c, (x :: xs). split_and!; [done| by constructor |done].
      * split.
        -- intros Hk. exists (Some c), s. split; [|done].
           exists c, []. split_and!; [done|by repeat constructor|done].
        -- intros (p' & s' & (x & xs & Heq & Hall & ->) & Hk).
           simpl in Heq. injection Heq as <- ->.
           destruct xs as [|y ys]; [done|].
           destruct IH as [_ IH]. destruct IH as [? ?]; [|done].
           exists (list.last (y :: ys)), s'. split; [|done].
           exists y, ys. split_and!; [done| by inversion Hall |done].
    + split; [by intros [? ?]|].
      intros (? & ? & (x & xs & Heq & Hall & _) & _).
      simpl in Heq. injection Heq as <- _. inversion Hall; congruence.
Qed.

(** The matcher succeeds exactly when the pattern has a match after
    which the continuation succeeds. *)
Theorem rmatch_Some r : ∀ prev s k,
  is_Some (rmatch ic r prev s k) ↔
  ∃ prev' s', steps ic r prev s prev' s' ∧ is_Some (k prev' s').
Proof.
  induction r as [|c|p|r1 IH1 r2 IH2|r1 IH1 r2 IH2|r1 IH1|p| | |];
    intros prev s k; simpl.
  - naive_solver.
  - destruct s as [|x s].
    { split; [by intros [? ?]|]. by intros (?&?&(?&?&_)&_). }
    destruct (chr_eq ic c x) eqn:E.
    + split; [by eauto 8|]. intros (?&?&(?&?&?&?)&?). by simplify_eq.
    + split; [by intros [? ?]|]. intros (?&?&(?&?&?&?)&?). simplify_eq. congruence.
  - destruct s as [|x s].
    { split; [by intros [? ?]|]. by intros (?&?&(?&?&_)&_). }
    destruct (p x) eqn:E.
    + split; [by eauto 8|]. intros (?&?&(?&?&?&?)&?). by simplify_eq.
    + split; [by intros [? ?]|]. intros (?&?&(?&?&?&?)&?). simplify_eq. congruence.
  - rewrite IH1. setoid_rewrite IH2. naive_solver.
  - destruct (rmatch ic r1 prev s k) as [a|] eqn:E1.
    + split; [intros _|by eauto].
      destruct (IH1 prev s k) as [H _]. rewrite E1 in H.
      destruct H as (?&?&?&?); [by eauto|]. naive_solver.
    + rewrite IH2. split; [naive_solver|].
      intros (p'&s'&[H|H]&Hk); [|by eauto].
      destruct (IH1 prev s k) as [_ H']. rewrite E1 in H'.
      destruct H' as [? ?]; [by eauto|done].
  - destruct (rmatch ic r1 prev s k) as [a|] eqn:E1.
    + split; [intros _|by eauto].
      destruct (IH1 prev s k) as [H _]. rewrite E1 in H.
      destruct H as (?&?&?&?); [by eauto|]. naive_solver.
    + split; [naive_solver|].
      intros (p'&s'&[H|[-> ->]]&Hk); [|done].
      destruct (IH1 prev s k) as [_ H']. rewrite E1 in H'.
      destruct H' as [? ?]; [by eauto|done].
  - rewrite plus_loop_Some. simpl. done.
  - destruct prev; [split; [by intros [? ?]|naive_solver]|naive_solver].
  - destruct s as [|c [|c' s]].
    + naive_solver.
    + case_bool_decide; [naive_solver|].
      split; [by intros [? ?]|naive_solver].
    + split; [by intros [? ?]|naive_solver].
  - destruct (xorb _ _); [naive_solver|].
    split; [by intros [? ?]|naive_solver].
Qed.
End Correct.

Lemma matches_spec ic r s :
  matches ic r s = true ↔ ∃ prev' s', steps ic r None s prev' s'.
Proof.
  unfold matches. rewrite bool_decide_eq_true, rmatch_Some. naive_solver.
Qed.

(** [re.split] on a character class *)

Lemma split_no_sep p s :
  Forall (Forall (λ c, p c = false)) (split p s).
Proof.
  induction s as [|c s IH]; simpl; [by repeat constructor|].
  destruct (p c) eqn:Hc; [by constructor|].
  destruct (split p s) as [|t ts]; [by repeat constructor|].
  inversion IH; subst. by repeat constructor.
Qed.

Lemma split_id p s : Forall (λ c, p c = false) s → split p s = [s].
Proof.
  induction 1 as [|c s Hc _ IH]; simpl; [done|]. by rewrite Hc, IH.
Qed.

Lemma split_interleave p s :
  ∃ seps, Forall (λ c, p c = true) seps
    ∧ length (split p s) = S (length seps)
    ∧ interleave (split p s) seps = s.
Proof.
  induction s as [|c s (seps & Hseps & Hlen & Hs)]; simpl.
  - by exists [].
  - destruct (p c) eqn:Hc.
    + exists (c :: seps). simpl. split_and!; [by constructor|lia|by rewrite Hs].
    + exists seps. destruct (split p s) as [|t ts] eqn:E; [done|].
      split_and!; [done|done|]. simpl in *.
      destruct seps; simpl in *; congruence.
Qed.

End ReFacts.

(** ** The extractor *)

Module ExtractFacts.
Import Re ReFacts StrFacts.

Lemma steps_literal (l : str) : ∀ p s p' s',
  steps true (foldr (λ c r, Cat (Chr c) r) Eps l) p s p' s' ↔
  ∃ u, s = u ++ s' ∧ Str.upper u = Str.upper l
    ∧ p' = from_option Some p (list.last u).
Proof.
  induction l as [|c l IH]; intros p s p' s'; simpl.
  - split.
    + intros [-> ->]. by exists [].
    + intros (u & -> & Hu & ->). by destruct u.
  - split.
    + intros (p1 & s1 & (x & -> & Hx & ->) & H).
      apply IH in H as (u & -> & Hu & ->).
      exists (x :: u). split_and!; [done| |].
      * simpl. unfold chr_eq in Hx. apply bool_decide_eq_true in Hx.
        by rewrite Hu, Hx.
      * rewrite last_cons. by destruct (list.last u).
    + intros (u & -> & Hu & ->). destruct u as [|x u]; [done|].
      simpl in Hu. injection Hu as Hx Hu.
      exists (Some x), (u ++ s'). split.
      * exists x. split_and!; [done| |done].
        unfold chr_eq. by apply bool_decide_eq_true.
      * apply IH. exists u. split_and!; [done..|].
        rewrite last_cons. by destruct (list.last u).
Qed.

Lemma steps_word w p s p' s' :
  steps true (word w) p s p' s' ↔
  ∃ u, s = u ++ s' ∧ Str.upper u = Str.upper (lit w)
    ∧ p' = from_option Some p (list.last u).
Proof. apply steps_literal. Qed.

Lemma steps_units p s p' s' :
  steps true
    (alts (word "MG") [word "ML"; word "GM"; word "G"; word "KG"]) p s p' s' ↔
  ∃ u, s = u ++ s' ∧ Str.upper u ∈ dosage_units
    ∧ p' = from_option Some p (list.last u).
Proof.
  cbn [alts steps]. rewrite !steps_word. unfold dosage_units.
  rewrite !fmap_cons, fmap_nil.
  split.
  - intros [H|[H|[H|[H|H]]]]; destruct H as (u & -> & Hu & ->);
      exists u; (split_and!; [done| |done]); rewrite Hu;
      change (Str.upper (lit ?w)) with (lit w); set_solver.
  - intros (u & -> & Hu & ->).
    rewrite !elem_of_cons, elem_of_nil in Hu.
    destruct Hu as [Hu|[Hu|[Hu|[Hu|[Hu|[]]]]]];
      [left|right; left|do 2 right; left|do 3 right; left|do 4 right];
      by exists u.
Qed.

(** What [dosage_pattern.match] accepts: a dosage form, possibly
    followed by one final newline (the [$] of Python). *)
Lemma dosage_match (t : str) :
  matches true dosage_pattern t = true ↔
  ∃ body tail, t = body ++ tail ∧ dosage_form body
    ∧ (tail = [] ∨ tail = [Char.newline]).
Proof.
  rewrite matches_spec. unfold dosage_pattern.
  cbn [steps]. setoid_rewrite steps_units.
  split.
  - intros (p' & s' & p1 & s1 & (_ & Hp1 & Hs1) & p2 & s2
              & (x & xs & Hs2 & Hall & Hp2) & p3 & s3 & Hopt
              & p4 & s4 & (u & Hs3 & Hu & Hp4) & Hend & _ & _).
    subst s1 s3. destruct Hopt as [(c & -> & Hc & ->)|[-> <-]]; subst t.
    + exists ((x :: xs) ++ [c] ++ u), s4. split_and!; [|by exists (x :: xs), [c], u; eauto 10|done].
      by rewrite <- !app_assoc.
    + exists ((x :: xs) ++ [] ++ u), s4. split_and!; [|by exists (x :: xs), [], u; eauto 10|done].
      by rewrite <- !app_assoc.
  - intros (body & tail & -> & (ds & ws & u & -> & Hne & Hds & Hws & Hu) & Htail).
    destruct ds as [|x xs]; [done|].
    set (p2 := list.last (x :: xs)).
    set (p3 := match ws with c :: _ => Some c | [] => p2 end).
    exists (from_option Some p3 (list.last u)), tail, None, ((x :: xs) ++ ws ++ u ++ tail).
    split; [by rewrite <- !app_assoc|].
    exists p2, (ws ++ u ++ tail). split; [by exists x, xs|].
    exists p3, (u ++ tail). split.
    { destruct Hws as [->|(c & -> & Hc)]; [by right|left; by exists c]. }
    exists (from_option Some p3 (list.last u)), tail.
    split; [by exists u|done].
Qed.

(** On a trimmed token the pattern accepts exactly the dosage forms. *)
Lemma dosage_match_trimmed (t : str) :
  trimmed t → (matches true dosage_pattern t = true ↔ dosage_form t).
Proof.
  intros Ht. rewrite dosage_match. split.
  - intros (body & tail & -> & Hb & [-> | ->]); [by rewrite app_nil_r|].
    apply trimmed_last_not_newline in Ht. by rewrite last_snoc in Ht.
  - intros Hb. exists t, []. by rewrite app_nil_r; eauto.
Qed.

Lemma keep_token_spec (t : str) :
  trimmed t → (keep_token t = true ↔ ¬ discarded t).
Proof.
  intros Ht. unfold keep_token, is_invalid, discarded.
  rewrite !andb_true_iff, !negb_true_iff, !bool_decide_eq_false, orb_false_iff.
  rewrite Nat.ltb_ge, <- not_true_iff_false, (dosage_match_trimmed t Ht).
  split; [|naive_solver lia]. intros [[? ?] [? ?]] [?|[?|[?|?]]]; [done..|lia].
Qed.

End ExtractFacts.

Module ExtractTheorems.
Import Re ReFacts StrFacts ExtractFacts.

Lemma split_is_split_on_separators (s : str) :
  split_on_separators s (Re.split is_separator s).
Proof.
  split.
  - pose proof (split_no_sep is_separator s) as H.
    eapply Forall_impl; [exact H|]. intros t Ht. simpl in Ht.
    eapply Forall_impl; [exact Ht|]. intros c Hc. simpl in Hc.
    unfold is_separator in Hc. by apply bool_decide_eq_false in Hc.
  - destruct (split_interleave is_separator s) as (seps & Hseps & Hlen & Hs).
    exists seps. split_and!; [|done..].
    eapply Forall_impl; [exact Hseps|]. intros c Hc. simpl in Hc.
    unfold is_separator in Hc. by apply bool_decide_eq_true in Hc.
Qed.

Lemma filter_first {A} (P : A → Prop) `{!∀ x, Decision (P x)} (l : list A) :
  (∃ pre t post, l = pre ++ t :: post ∧ Forall (λ x, ¬ P x) pre ∧ P t
     ∧ filter P l = t :: filter P post)
  ∨ (Forall (λ x, ¬ P x) l ∧ filter P l = []).
Proof.
  induction l as [|x l IH]; [by right|].
  destruct (decide (P x)) as [Hx|Hx].
  - left. exists [], x, l. by rewrite filter_cons_True.
  - rewrite filter_cons_False by done.
    destruct IH as [(pre & t & post & -> & Hpre & Ht & Hf)|[Hl Hf]].
    + left. exists (x :: pre), t, post. split_and!; [done|by constructor|done..].
    + right. split; [by constructor|done].
Qed.

Lemma tokens_trimmed (raw : list str) : Forall trimmed (Str.strip <$> raw).
Proof. apply Forall_fmap, Forall_true. intros t. apply strip_trimmed. Qed.

Lemma keep_token_false (t : str) :
  trimmed t → (keep_token t = false ↔ discarded t).
Proof.
  intros Ht. unfold keep_token, is_invalid, discarded.
  rewrite !andb_false_iff, !negb_false_iff, !bool_decide_eq_true, orb_true_iff.
  rewrite Nat.ltb_lt, (dosage_match_trimmed t Ht). tauto.
Qed.

Lemma Forall_discarded (ts : list str) :
  Forall trimmed ts → Forall (λ t, keep_token t ≠ true) ts → Forall discarded ts.
Proof.
  intros Ht Hk. induction Hk as [|t ts Hk _ IH]; [done|].
  apply Forall_cons in Ht as [Ht Hts]. constructor; [|by apply IH].
  apply keep_token_false; [done|]. by destruct (keep_token t).
Qed.

(** The constants of lines 31-37 are the characters and the words
    written out in [nine_separators] and [vocabulary]. *)
Lemma split_on_nine (s : str) (raw : list str) :
  split_on_separators s raw → split_on nine_separators s raw.
Proof. done. Qed.

Lemma dropped_discarded (t : str) : dropped t ↔ discarded t.
Proof.
  unfold dropped, discarded, exclude_terms. by rewrite elem_of_list_to_set.
Qed.


(** A token that [extract_api] returns goes through [extract_api]
    unchanged. *)
Lemma split_Forall (P : ascii → Prop) p (s : str) :
  Forall P s → Forall (Forall P) (Re.split p s).
Proof.
  induction 1 as [|c s Hc _ IH]; simpl; [by repeat constructor|].
  destruct (p c); [by constructor|].
  destruct (Re.split p s) as [|t ts]; [by repeat constructor|].
  apply Forall_cons in IH as [? ?]. by repeat constructor.
Qed.

Lemma upper_fixed (s : str) : Forall (λ c, Char.upper c = c) s → Str.upper s = s.
Proof. induction 1 as [|c s Hc _ IH]; simpl; [done|]. by rewrite Hc, IH. Qed.

Lemma valid_tokens_elem (name t : str) :
  t ∈ valid_tokens name →
  keep_token t = true ∧ trimmed t
  ∧ Forall (λ c, is_separator c = false) t ∧ Forall (λ c, Char.upper c = c) t.
Proof.
  unfold valid_tokens. rewrite list_elem_of_filter, list_elem_of_fmap.
  intros (Hk & raw & -> & Hraw). split_and!; [done|apply strip_trimmed|..].
  - apply Forall_strip.
    pose proof (split_no_sep is_separator (Str.upper name)) as H.
    rewrite Forall_forall in H. by apply H.
  - apply Forall_strip.
    assert (Forall (λ c, Char.upper c = c) (Str.upper name)) as Hu.
    { apply Forall_fmap, Forall_true. intros c. apply CharFacts.upper_idem. }
    pose proof (split_Forall _ is_separator _ Hu) as H.
    rewrite Forall_forall in H. by apply H.
Qed.

Lemma valid_tokens_token (t : str) :
  keep_token t = true → trimmed t
  → Forall (λ c, is_separator c = false) t → Forall (λ c, Char.upper c = c) t
  → valid_tokens t = [t].
Proof.
  intros Hk Ht Hsep Hup. unfold valid_tokens.
  rewrite (upper_fixed t Hup), (split_id _ _ Hsep). simpl.
  rewrite (trimmed_strip t Ht). by rewrite filter_cons_True.
Qed.

Lemma extract_api_fixed (name : str) :
  extract_api (extract_api name) = extract_api name.
Proof.
  unfold extract_api at 2 3.
  destruct (valid_tokens name) as [|t ts] eqn:E; [by vm_compute|].
  assert (t ∈ valid_tokens name) as Ht by (rewrite E; left).
  apply valid_tokens_elem in Ht as (Hk & Ht & Hsep & Hup).
  unfold extract_api. by rewrite valid_tokens_token.
Qed.

(** C9. Feeding the token that [extract_api] returns back through
    [extract_api] yields that same token or ["INVALID"]. *)
Theorem extract_api_idempotent (name : str) :
  extract_api (extract_api name) = extract_api name
  ∨ extract_api (extract_api name) = INVALID.
Proof. left. apply extract_api_fixed. Qed.

End ExtractTheorems.

(** ** The error monad *)

Lemma bind_Ok {A B} (m : result A) (f : A → result B) (b : B) :
  (x <- m ;; f x) = Ok b ↔ ∃ a, m = Ok a ∧ f a = Ok b.
Proof. destruct m as [a|e]; simpl; [|naive_solver]. split; [by eauto|]. by intros (? & [= <-] & ?). Qed.

Lemma traverse_Ok {A B} (f : A → result B) (l : list A) (l' : list B) :
  traverse f l = Ok l' ↔ Forall2 (λ x y, f x = Ok y) l l'.
Proof.
  revert l'. induction l as [|x l IH]; intros l'; simpl.
  - split; [by intros [= <-]; constructor|]. by inversion 1.
  - rewrite bind_Ok. setoid_rewrite bind_Ok. setoid_rewrite IH. split.
    + intros (y & Hy & ys & Hys & [= <-]). by constructor.
    + inversion 1; subst. eauto 10.
Qed.

Lemma traverse_total {A B} (f : A → result B) (l : list A) :
  Forall (λ x, is_Ok (f x)) l → is_Ok (traverse f l).
Proof.
  induction 1 as [|x l [y Hy] _ [ys Hys]]; simpl; [by eexists|].
  rewrite Hy, Hys. by eexists.
Qed.

Lemma traverse_length {A B} (f : A → result B) (l : list A) (l' : list B) :
  traverse f l = Ok l' → length l' = length l.
Proof. rewrite traverse_Ok. intros H. symmetry. by eapply Forall2_length. Qed.

(** ** The normaliser *)

Section NormalizeFacts.
Variable parse_number : str → option Qc.

Local Abbreviation coerced := (Spec.coerced parse_number).
Local Abbreviation usd_unusable := (Spec.usd_unusable parse_number).
Local Abbreviation usd_usable := (Spec.usd_usable parse_number).
Local Abbreviation no_usable_usd := (Spec.no_usable_usd parse_number).

Lemma coerced_numbers (s : Series) : all_numbers (coerced s).
Proof.
  exists (default 0%Qc <$> to_numeric parse_number s).
  unfold Spec.coerced, Pd.fillna. by rewrite <- list_fmap_compose.
Qed.

Lemma coerce_col_lookup (df : DataFrame) (col c : string) :
  coerce_col parse_number df col !! c
  = if decide (c = col) then coerced <$> df !! c else df !! c.
Proof.
  unfold coerce_col. destruct (df !! col) as [s|] eqn:E.
  - destruct (decide (c = col)) as [->|Hne].
    + by rewrite lookup_insert_eq, E.
    + by rewrite lookup_insert_ne.
  - destruct (decide (c = col)) as [->|Hne]; [by rewrite E|done].
Qed.

(** Lines 16-18 coerce the numeric columns that are present and touch
    nothing else; no column is created. *)
Lemma numeric_cleanup_lookup (df : DataFrame) (c : string) :
  numeric_cleanup parse_number df !! c
  = if decide (c ∈ numeric_cols) then coerced <$> df !! c else df !! c.
Proof.
  unfold numeric_cleanup, numeric_cols. simpl.
  rewrite !coerce_col_lookup.
  destruct (decide (c ∈ _)) as [Hin|Hout].
  - rewrite !elem_of_cons, elem_of_nil in Hin.
    destruct Hin as [->|[->|[->|[->|[]]]]]; simpl; done.
  - rewrite !elem_of_cons, elem_of_nil in Hout.
    repeat (destruct (decide _) as [->|?]; [tauto|]). done.
Qed.

Lemma sum_numbers (s : Series) : all_numbers s → is_Ok (Pd.sum s).
Proof. intros [l ->]. by eexists. Qed.

Lemma usd_cases (df : DataFrame) : usd_unusable df ∨ usd_usable df.
Proof.
  unfold Spec.usd_unusable, Spec.usd_usable.
  destruct (df !! "FOB (USD)") as [s|]; [|by left; left].
  destruct (sum_numbers _ (coerced_numbers s)) as [t Ht].
  destruct (decide (t = 0%Qc)) as [->|Hne]; [left; right|right]; eauto.
Qed.

Lemma numeric_cleanup_numeric (df : DataFrame) (c : string) :
  c ∈ numeric_cols →
  numeric_cleanup parse_number df !! c = coerced <$> df !! c.
Proof. intros Hc. rewrite numeric_cleanup_lookup. by rewrite decide_True. Qed.

Lemma numeric_cleanup_other (df : DataFrame) (c : string) :
  c ∉ numeric_cols → numeric_cleanup parse_number df !! c = df !! c.
Proof. intros Hc. rewrite numeric_cleanup_lookup. by rewrite decide_False. Qed.

Lemma fob_usd_fallback_cases (df : DataFrame) :
  fob_usd_fallback df =
    match df !! "FOB (USD)" with
    | None => fill_usd df
    | Some s =>
        match Pd.sum s with
        | Ok t => if bool_decide (t = 0%Qc) then fill_usd df else Ok df
        | Raise e => Raise e
        end
    end.
Proof.
  unfold fob_usd_fallback. destruct (df !! "FOB (USD)") as [s|]; [|done].
  by destruct (Pd.sum s).
Qed.

Lemma numeric_cols_usd : "FOB (USD)" ∈ numeric_cols.
Proof. unfold numeric_cols. set_solver. Qed.
Lemma numeric_cols_inr : "FOB (INR)" ∈ numeric_cols.
Proof. unfold numeric_cols. set_solver. Qed.
Lemma numeric_cols_quantity : "Quantity" ∈ numeric_cols.
Proof. unfold numeric_cols. set_solver. Qed.

Lemma normalize_usable (df : DataFrame) :
  usd_usable df → normalize parse_number df = Ok (numeric_cleanup parse_number df).
Proof.
  intros (s & t & Hs & Ht & Hne). unfold normalize.
  rewrite fob_usd_fallback_cases.
  rewrite (numeric_cleanup_numeric _ _ numeric_cols_usd), Hs.
  change (coerced <$> Some s) with (Some (coerced s)). cbv beta iota.
  rewrite Ht. by rewrite bool_decide_eq_false_2.
Qed.

Lemma normalize_unusable (df : DataFrame) :
  usd_unusable df →
  normalize parse_number df = fill_usd (numeric_cleanup parse_number df).
Proof.
  intros Hu. unfold normalize. rewrite fob_usd_fallback_cases.
  rewrite (numeric_cleanup_numeric _ _ numeric_cols_usd).
  destruct Hu as [->|(s & -> & Hs)]; [done|].
  change (coerced <$> Some s) with (Some (coerced s)). cbv beta iota.
  rewrite Hs. by rewrite bool_decide_eq_true_2.
Qed.

Lemma fill_usd_present (df : DataFrame) (inr : list Qc) :
  df !! "FOB (INR)" = Some (Float64 (Some <$> inr)) →
  fill_usd df =
    Ok (<["FOB (USD)" := Float64 ((λ x, Some (x * inr_usd_rate)%Qc) <$> inr)]> df).
Proof.
  intros H. unfold fill_usd, Pd.getitem. rewrite H. cbn.
  by rewrite <- list_fmap_compose.
Qed.

Lemma fill_usd_absent (df : DataFrame) :
  df !! "FOB (INR)" = None → fill_usd df = Raise (KeyError "FOB (INR)").
Proof. intros H. unfold fill_usd, Pd.getitem. by rewrite H. Qed.

Lemma normalize_cases (df : DataFrame) :
  (usd_usable df ∧ normalize parse_number df = Ok (numeric_cleanup parse_number df))
  ∨ (usd_unusable df ∧ df !! "FOB (INR)" = None
     ∧ normalize parse_number df = Raise (KeyError "FOB (INR)"))
  ∨ (usd_unusable df ∧ ∃ s inr, df !! "FOB (INR)" = Some s
     ∧ coerced s = Float64 (Some <$> inr)
     ∧ normalize parse_number df =
         Ok (<["FOB (USD)" := Float64 ((λ x, Some (x * inr_usd_rate)%Qc) <$> inr)]>
               (numeric_cleanup parse_number df))).
Proof.
  destruct (usd_cases df) as [Hu|Hu]; [|left; split; [done|by apply normalize_usable]].
  right. rewrite (normalize_unusable df Hu).
  destruct (df !! "FOB (INR)") as [s|] eqn:E.
  - right. split; [done|]. destruct (coerced_numbers s) as [inr Hinr].
    exists s, inr. split_and!; [done..|]. apply fill_usd_present.
    by rewrite (numeric_cleanup_numeric _ _ numeric_cols_inr), E, <- Hinr.
  - left. split_and!; [done..|]. apply fill_usd_absent.
    by rewrite (numeric_cleanup_numeric _ _ numeric_cols_inr), E.
Qed.

Lemma no_usable_usd_unusable (df : DataFrame) : no_usable_usd df → usd_unusable df.
Proof.
  intros [H|(s & l & Hs & Hl & _ & Hsum)]; [by left|right].
  exists s. split; [done|]. by rewrite Hl.
Qed.

(** C3, as amended. For a table that has the FOB (INR) column the
    normalisation raises nothing. In Quantity, FOB (INR) and
    Item Rate(INR), when present, each unparseable or missing entry
    becomes 0, and a column that is absent stays absent (it is not
    filled with zeros). FOB (USD), when absent, is the coerced
    FOB (INR) times 0.012; when present, it is either its own coerced
    entries or, again, the coerced FOB (INR) times 0.012. *)
Theorem normalize_succeeds (df : DataFrame) (inr : Series) :
  df !! "FOB (INR)" = Some inr →
  ∃ df' l, normalize parse_number df = Ok df'
    ∧ (∀ c, c ∈ ["Quantity"; "FOB (INR)"; "Item Rate(INR)"] →
         df' !! c = coerced <$> df !! c)
    ∧ coerced inr = Float64 (Some <$> l)
    ∧ (let derived := Float64 ((λ x, Some (x * inr_usd_rate)%Qc) <$> l) in
       match df !! "FOB (USD)" with
       | None => df' !! "FOB (USD)" = Some derived
       | Some usd =>
           df' !! "FOB (USD)" = Some (coerced usd) ∨ df' !! "FOB (USD)" = Some derived
       end)
    ∧ (∀ cells, coerced (Object cells)
            = Float64 ((λ c, Some (default 0%Qc (c ≫= parse_number))) <$> cells))
    ∧ (∀ cells, coerced (Float64 cells) = Float64 ((λ c, Some (default 0%Qc c)) <$> cells)).
Proof.
  intros Hin.
  assert (∀ c, c ∈ ["Quantity"; "FOB (INR)"; "Item Rate(INR)"] →
            c ∈ numeric_cols ∧ c ≠ "FOB (USD)") as Hcols.
  { intros c Hc. unfold numeric_cols. set_solver. }
  assert (∀ cells, coerced (Object cells)
            = Float64 ((λ c, Some (default 0%Qc (c ≫= parse_number))) <$> cells)) as Hobj.
  { intros cells. unfold Spec.coerced, Pd.fillna. cbn. by rewrite <- list_fmap_compose. }
  destruct (coerced_numbers inr) as [l Hl].
  destruct (normalize_cases df)
    as [[Hu ->]|[(Hu & Hn & _)|(Hu & s & l' & Hs & Hc & ->)]].
  - exists (numeric_cleanup parse_number df), l. split_and!; [done| |done| |done..].
    + intros c [Hc _]%Hcols. by apply numeric_cleanup_numeric.
    + destruct Hu as (usd & t & Hs & _ & _). cbn zeta. rewrite Hs. left.
      by rewrite (numeric_cleanup_numeric _ _ numeric_cols_usd), Hs.
  - congruence.
  - rewrite Hin in Hs. injection Hs as <-. rewrite Hl in Hc. injection Hc as Hc.
    apply (inj (fmap Some)) in Hc as <-.
    eexists _, l. split_and!; [done| |done| |done..].
    + intros c [Hc' Hne]%Hcols. rewrite lookup_insert_ne by done.
      by apply numeric_cleanup_numeric.
    + cbn zeta. rewrite lookup_insert_eq. destruct (df !! "FOB (USD)"); [by right|done].
Qed.


(** C4, as amended. After normalisation each of the four numeric
    columns that is present holds numbers only (no NaN). The entries
    are not clamped: they are non-negative when no entry of the
    table's numeric columns is a negative number. *)
Theorem normalized_columns_numeric (df df' : DataFrame) :
  normalize parse_number df = Ok df' →
  ∀ c s, c ∈ numeric_cols → df' !! c = Some s →
  ∃ l, s = Float64 (Some <$> l)
    ∧ ((∀ c' s', c' ∈ numeric_cols → df !! c' = Some s' →
          Forall (λ e, ∀ q, e = Some q → (0 ≤ q)%Qc) (to_numeric parse_number s'))
       → Forall (λ q, (0 ≤ q)%Qc) l).
Proof.
  intros Hn c s Hc Hs.
  assert (∀ c0 s0, c0 ∈ numeric_cols → coerced <$> df !! c0 = Some s0 →
    ∃ l, s0 = Float64 (Some <$> l)
      ∧ ((∀ c' s', c' ∈ numeric_cols → df !! c' = Some s' →
            Forall (λ e, ∀ q, e = Some q → (0 ≤ q)%Qc) (to_numeric parse_number s'))
         → Forall (λ q, (0 ≤ q)%Qc) l)) as Hcoerced.
  { intros c0 s0 Hc0 Hs0. destruct (df !! c0) as [s1|] eqn:E; [|done].
    injection Hs0 as <-. exists (default 0%Qc <$> to_numeric parse_number s1).
    split; [unfold Spec.coerced, Pd.fillna; by rewrite <- list_fmap_compose|].
    intros Hpos. specialize (Hpos c0 s1 Hc0 E).
    apply Forall_fmap. eapply Forall_impl; [exact Hpos|].
    intros [q|] Hq; simpl; [by apply Hq|done]. }
  destruct (normalize_cases df) as [[Hu Hn']|[(_ & _ & Hn')|(_ & s1 & inr & Hs1 & Hc1 & Hn')]];
    rewrite Hn' in Hn; [|done|]; injection Hn as <-.
  - rewrite numeric_cleanup_numeric in Hs by done. by eapply Hcoerced.
  - destruct (decide (c = "FOB (USD)")) as [->|Hne].
    + rewrite lookup_insert_eq in Hs. injection Hs as <-.
      exists ((λ x, (x * inr_usd_rate)%Qc) <$> inr).
      split; [by rewrite <- list_fmap_compose|]. intros Hpos.
      destruct (Hcoerced "FOB (INR)" (coerced s1) numeric_cols_inr) as (l & Hl & Hl').
      { by rewrite Hs1. }
      rewrite Hc1 in Hl. injection Hl as Hl. apply (inj (fmap Some)) in Hl as <-.
      apply Forall_fmap. eapply Forall_impl; [exact (Hl' Hpos)|].
      intros q Hq. simpl. by apply Qcmult_nonneg_nonneg.
    + rewrite lookup_insert_ne in Hs by done.
      rewrite numeric_cleanup_numeric in Hs by done. by eapply Hcoerced.
Qed.

End NormalizeFacts.

(** ** Sample tables for the normaliser *)

Module NormalizeSamples.
Import Sample.

(** The example of the specification: FOB (INR) = 1000 and no usable
    FOB (USD) give FOB (USD) = 12.0; unparseable entries count as 0. *)
Example inr_table_normalized :
  is_Ok (normalize parse_number inr_table)
  ∧ entries (normalized inr_table !! "FOB (INR)") = [Some 1000%Q; Some 0%Q; Some 0%Q]
  ∧ entries (normalized inr_table !! "FOB (USD)") = [Some 12%Q; Some 0%Q; Some 0%Q].
Proof. split; [by eexists|]. split; reflexivity. Qed.

(** C3, witness: [inr_table] has FOB (INR). *)
Lemma normalize_succeeds_witness :
  inr_table !! "FOB (INR)" = Some (Object [text "1000"; text "n/a"; None])
  ∧ ∃ df' l, normalize parse_number inr_table = Ok df'
      ∧ (∀ c, c ∈ ["Quantity"; "FOB (INR)"; "Item Rate(INR)"] →
           df' !! c = coerced parse_number <$> inr_table !! c)
      ∧ coerced parse_number (Object [text "1000"; text "n/a"; None]) = Float64 (Some <$> l)
      ∧ (let derived := Float64 ((λ x, Some (x * inr_usd_rate)%Qc) <$> l) in
         match inr_table !! "FOB (USD)" with
         | None => df' !! "FOB (USD)" = Some derived
         | Some usd =>
             df' !! "FOB (USD)" = Some (coerced parse_number usd)
             ∨ df' !! "FOB (USD)" = Some derived
         end)
      ∧ (∀ cells, coerced parse_number (Object cells)
              = Float64 ((λ c, Some (default 0%Qc (c ≫= parse_number))) <$> cells))
      ∧ (∀ cells, coerced parse_number (Float64 cells)
              = Float64 ((λ c, Some (default 0%Qc c)) <$> cells)).
Proof.
  assert (inr_table !! "FOB (INR)" = Some (Object [text "1000"; text "n/a"; None])) as H
    by reflexivity.
  split; [exact H|]. exact (normalize_succeeds parse_number inr_table _ H).
Defined.

(** C3, counterexample: without both FOB columns the normalisation
    raises KeyError; and a table without Quantity keeps no Quantity
    column after normalisation, so that the run stops in [groupby]. *)
Lemma normalize_raises_without_fob :
  normalize parse_number no_fob_table = Raise (KeyError "FOB (INR)")
  ∧ is_Ok (normalize parse_number no_quantity_table)
  ∧ normalized no_quantity_table !! "Quantity" = None
  ∧ run parse_number str_of_number no_quantity_table (lit "All")
    = Uncaught (KeyError "Quantity").
Proof. split_and!; [reflexivity|by eexists|reflexivity|by vm_compute]. Qed.

(** C4, witness. *)
Lemma normalized_columns_numeric_witness :
  normalize parse_number inr_table = Ok (normalized inr_table)
  ∧ ∀ c s, c ∈ numeric_cols → normalized inr_table !! c = Some s →
    ∃ l, s = Float64 (Some <$> l)
      ∧ ((∀ c' s', c' ∈ numeric_cols → inr_table !! c' = Some s' →
            Forall (λ e, ∀ q, e = Some q → (0 ≤ q)%Qc) (to_numeric parse_number s'))
         → Forall (λ q, (0 ≤ q)%Qc) l).
Proof.
  assert (normalize parse_number inr_table = Ok (normalized inr_table)) as H
    by reflexivity.
  split; [exact H|].
  exact (normalized_columns_numeric parse_number inr_table _ H).
Defined.

(** C4, counterexample: a negative quantity is still negative after
    normalisation. *)
Lemma negative_quantity_survives :
  is_Ok (normalize parse_number negative_table)
  ∧ entries (normalized negative_table !! "Quantity") = [Some (-5)%Q]
  ∧ (-5 < 0)%Q.
Proof. split_and!; [by eexists|reflexivity|reflexivity]. Qed.



(** The entries 3 and -3 are replaced by 12 and 24. *)
Example cancelling_usd_replaced :
  entries (normalized cancelling_usd_table !! "FOB (USD)") = [Some 12%Q; Some 24%Q].
Proof. reflexivity. Qed.

End NormalizeSamples.

(** ** Lists: masks, distinct values, sorting *)

Module ListFacts.

Section Select.
Context {A B : Type}.
Implicit Types (m : list bool) (l : list A).

Lemma elem_of_select m l x : x ∈ select m l → x ∈ l.
Proof.
  revert l. induction m as [|b m IH]; intros [|y l]; simpl; try by inversion 1.
  destruct b; [|by right; apply IH].
  intros [->|H]%elem_of_cons; [by left|by right; apply IH].
Qed.

Lemma Forall2_select (R : A → B → Prop) m l (k : list B) :
  Forall2 R l k → Forall2 R (select m l) (select m k).
Proof.
  intros H. revert m. induction H as [|x y l k Hxy _ IH]; intros [|b m]; simpl;
    try by constructor.
  destruct b; [constructor|]; auto.
Qed.

(** A mask computed from one of two aligned columns adds what it
    tests to what is known of the selected rows. *)
Lemma Forall2_select_l (R : A → B → Prop) (p : A → bool) l (k : list B) :
  Forall2 R l k →
  Forall2 (λ x y, R x y ∧ p x = true) (select (p <$> l) l) (select (p <$> l) k).
Proof.
  induction 1 as [|x y l k Hxy _ IH]; simpl; [constructor|].
  destruct (p x) eqn:E; [by constructor|done].
Qed.

Lemma Forall2_select_r (R : A → B → Prop) (p : B → bool) l (k : list B) :
  Forall2 R l k →
  Forall2 (λ x y, R x y ∧ p y = true) (select (p <$> k) l) (select (p <$> k) k).
Proof.
  induction 1 as [|x y l k Hxy _ IH]; simpl; [constructor|].
  destruct (p y) eqn:E; [by constructor|done].
Qed.

(** A row that the mask accepts is among the selected rows. *)
Lemma Forall2_select_elem (R : A → B → Prop) (p : B → bool) l (k : list B) y :
  Forall2 R l k → y ∈ k → p y = true →
  ∃ x, x ∈ select (p <$> k) l ∧ R x y.
Proof.
  induction 1 as [|x y' l k Hxy _ IH]; [by inversion 1|].
  intros [->|Hy]%elem_of_cons Hp; simpl.
  - rewrite Hp. exists x. split; [by left|done].
  - destruct (IH Hy Hp) as (x' & Hx' & HR). exists x'.
    split; [|done]. destruct (p y'); [by right|done].
Qed.

End Select.

Section Unique.
Context `{EqDecision A}.
Implicit Types l : list A.

Lemma elem_of_unique l x : x ∈ unique l ↔ x ∈ l.
Proof.
  induction l as [|y l IH]; simpl; [done|].
  rewrite !elem_of_cons, list_elem_of_filter, IH.
  destruct (decide (x = y)); naive_solver.
Qed.

Lemma NoDup_unique l : NoDup (unique l).
Proof.
  induction l as [|y l IH]; simpl; [constructor|].
  constructor; [|by apply NoDup_filter].
  rewrite list_elem_of_filter. naive_solver.
Qed.

Lemma count_pos l x : 0 < count x l ↔ x ∈ l.
Proof.
  unfold count. induction l as [|y l IH]; simpl.
  - split; [lia|by inversion 1].
  - destruct (decide (y = x)) as [->|Hne].
    + rewrite filter_cons_True by done. simpl. split; [by left|lia].
    + rewrite filter_cons_False by done. rewrite IH, elem_of_cons. naive_solver.
Qed.
End Unique.

Lemma size_list_to_set_unique `{Countable A} (l : list A) :
  size (list_to_set l : gset A) = length (unique l).
Proof.
  rewrite <- (size_list_to_set (C := gset A) (unique l)) by apply NoDup_unique.
  f_equal. apply set_eq. intros x.
  by rewrite !elem_of_list_to_set, elem_of_unique.
Qed.

Section Sort.
Context {A : Type} (leb : A → A → bool).
Implicit Types l : list A.

Lemma insert_by_perm x l : insert_by leb x l ≡ₚ x :: l.
Proof.
  induction l as [|y l IH]; simpl; [done|].
  destruct (leb x y); [done|]. by rewrite IH, Permutation_swap.
Qed.

Lemma sort_by_perm l : sort_by leb l ≡ₚ l.
Proof.
  unfold sort_by. induction l as [|x l IH]; simpl; [done|].
  by rewrite insert_by_perm, IH.
Qed.

Lemma sort_by_length l : length (sort_by leb l) = length l.
Proof. by rewrite sort_by_perm. Qed.

Lemma elem_of_sort_by l x : x ∈ sort_by leb l ↔ x ∈ l.
Proof. by rewrite sort_by_perm. Qed.

Hypothesis leb_total : ∀ x y, leb x y = true ∨ leb y x = true.
Hypothesis leb_trans : ∀ x y z, leb x y = true → leb y z = true → leb x z = true.

Lemma insert_by_head x l m :
  (∀ y, head l = Some y → ∀ z, z ∈ l → leb y z = true) →
  head (insert_by leb x l) = Some m →
  ∀ z, z ∈ x :: l → leb m z = true.
Proof.
  assert (∀ a, leb a a = true) as Hrefl by (intros a; by destruct (leb_total a a)).
  destruct l as [|y l]; simpl.
  - intros _ [= ->] z ->%list_elem_of_singleton. apply Hrefl.
  - intros Hy. specialize (Hy y eq_refl).
    destruct (leb x y) eqn:E; simpl; intros [= ->] z Hz.
    + apply elem_of_cons in Hz as [->|Hz]; [apply Hrefl|].
      eapply leb_trans; [exact E|by apply Hy].
    + apply elem_of_cons in Hz as [->|Hz]; [|by apply Hy].
      destruct (leb_total m x); congruence.
Qed.

(** The first element of the sorted list is a least element. *)
Lemma sort_by_head l m :
  head (sort_by leb l) = Some m → ∀ z, z ∈ l → leb m z = true.
Proof.
  revert m. induction l as [|x l IH]; [done|].
  change (sort_by leb (x :: l)) with (insert_by leb x (sort_by leb l)).
  intros m Hm z Hz. apply (insert_by_head x (sort_by leb l) m); [|exact Hm|].
  - intros y Hy z' Hz'. apply (IH y Hy). by apply elem_of_sort_by.
  - apply elem_of_cons in Hz as [->|Hz]; [by left|right].
    by apply elem_of_sort_by.
Qed.
End Sort.

Lemma str_leb_total (s1 s2 : str) : str_leb s1 s2 = true ∨ str_leb s2 s1 = true.
Proof.
  unfold str_leb.
  destruct (total String.le (string_of_list_ascii s1) (string_of_list_ascii s2)) as [H|H];
    [left|right]; unfold String.le in H; by apply Is_true_true.
Qed.

Lemma str_leb_trans (s1 s2 s3 : str) :
  str_leb s1 s2 = true → str_leb s2 s3 = true → str_leb s1 s3 = true.
Proof.
  unfold str_leb. rewrite <- !Is_true_true.
  intros H1 H2. by apply (transitivity (R := String.le) H1 H2).
Qed.

Lemma str_leb_le (s1 s2 : str) : str_leb s1 s2 = true ↔ Str.le s1 s2.
Proof. unfold str_leb, Str.le, String.le. by rewrite Is_true_true. Qed.

Lemma max_list_attained (l : list nat) : l ≠ [] → max_list l ∈ l.
Proof.
  induction l as [|n l IH]; [done|]. intros _. simpl.
  destruct l as [|n' l'].
  - simpl. rewrite Nat.max_0_r. by left.
  - destruct (Nat.max_spec n (max_list (n' :: l'))) as [[_ ->]|[_ ->]];
      [right; by apply IH|by left].
Qed.

End ListFacts.

(** ** Frames: masks keep the columns and their dtypes *)

Module FrameFacts.
Import ListFacts.

Lemma mask_rows_lookup (m : list bool) (df : DataFrame) (c : string) :
  Pd.mask_rows m df !! c = Pd.mask_series m <$> df !! c.
Proof. unfold Pd.mask_rows. by rewrite lookup_fmap. Qed.

Lemma mask_rows_object m (df : DataFrame) c l :
  df !! c = Some (Object l) → Pd.mask_rows m df !! c = Some (Object (select m l)).
Proof. intros H. by rewrite mask_rows_lookup, H. Qed.

Lemma mask_rows_float m (df : DataFrame) c l :
  df !! c = Some (Float64 l) → Pd.mask_rows m df !! c = Some (Float64 (select m l)).
Proof. intros H. by rewrite mask_rows_lookup, H. Qed.

Lemma mask_rows_None m (df : DataFrame) c :
  df !! c = None → Pd.mask_rows m df !! c = None.
Proof. intros H. by rewrite mask_rows_lookup, H. Qed.

Lemma mask_rows_is_float m (df : DataFrame) c :
  is_float <$> Pd.mask_rows m df !! c = is_float <$> df !! c.
Proof. rewrite mask_rows_lookup. by destruct (df !! c) as [[]|]. Qed.

Lemma is_float_true (o : option Series) :
  is_float <$> o = Some true → ∃ l, o = Some (Float64 l).
Proof. destruct o as [[]|]; naive_solver. Qed.

Lemma is_float_false (o : option Series) :
  is_float <$> o = Some false → ∃ l, o = Some (Object l).
Proof. destruct o as [[]|]; naive_solver. Qed.

Lemma aligned_mask_rows R m df : aligned R df → aligned R (Pd.mask_rows m df).
Proof.
  intros (names & apis & Hn & Ha & HR).
  exists (select m names), (select m apis).
  split_and!; [by apply mask_rows_object..|by apply Forall2_select].
Qed.

End FrameFacts.

(** ** Lines 12-57: what the filtered frame holds *)

Section PrepareFacts.
Import ListFacts FrameFacts.
Variable parse_number : str → option Qc.
Variable str_of_number : Qc → str.

Lemma add_api_Ok (df adf : DataFrame) :
  add_api str_of_number df = Ok adf →
  ∃ names, df !! "Product Name" = Some names
    ∧ adf = <["API" := Object ((λ name, Some (extract_api name))
                                 <$> str_cells str_of_number names)]> df.
Proof.
  unfold add_api, Pd.getitem. destruct (df !! "Product Name") as [names|]; [|done].
  intros [= <-]. by exists names.
Qed.

Lemma prepare_Ok (df fdf : DataFrame) (api_filter : str) :
  prepare parse_number str_of_number df api_filter = Ok fdf →
  ∃ ndf, normalize parse_number df = Ok ndf
    ∧ is_float <$> ndf !! "Product Name" = Some false
    ∧ aligned valid_row fdf
    ∧ ∀ c, c ≠ "API" → is_float <$> fdf !! c = is_float <$> ndf !! c.
Proof.
  unfold prepare. intros H.
  apply bind_Ok in H as (ndf & Hn & H).
  apply bind_Ok in H as (adf & Ha & H).
  apply bind_Ok in H as (vdf & Hv & H).
  apply bind_Ok in H as (hdf & Hh & Hf).
  exists ndf. split; [done|].
  apply add_api_Ok in Ha as (names_s & Hnames & ->).
  unfold valid_df, Pd.getitem in Hv. rewrite lookup_insert_eq in Hv.
  cbn in Hv. injection Hv as <-.
  unfold human_df, Pd.getitem in Hh.
  rewrite mask_rows_lookup, lookup_insert_ne, Hnames in Hh by done.
  cbn in Hh. apply bind_Ok in Hh as (m2 & Hm2 & [= <-]).
  unfold Pd.str_contains in Hm2. apply bind_Ok in Hm2 as (l & Hl & [= <-]).
  destruct names_s as [names|names]; [|done]. cbn in Hl. injection Hl as <-.
  split; [by rewrite Hnames|].
  set (apis := (λ name, Some (extract_api name)) <$> _) in *.
  set (adf := <["API" := Object apis]> ndf) in *.
  set (m1 := (λ c, bool_decide (c ≠ Some INVALID)) <$> apis) in *.
  set (q := λ c : option str,
         match c with Some x => Re.search true human_indicators x | None => false end) in *.
  set (hdf := Pd.mask_rows (q <$> select m1 names) (Pd.mask_rows m1 adf)) in *.
  assert (aligned valid_row hdf) as Hal.
  { exists (select (q <$> select m1 names) (select m1 names)),
           (select (q <$> select m1 names) (select m1 apis)).
    split_and!.
    - apply mask_rows_object, mask_rows_object.
      unfold adf. by rewrite lookup_insert_ne.
    - apply mask_rows_object, mask_rows_object.
      unfold adf. by rewrite lookup_insert_eq.
    - assert (Forall2 (λ n a, a = Some (extract_api
                (match n with Some x => x | None => lit "nan" end))) names apis) as H0.
      { unfold apis. cbn. clear. induction names; constructor; auto. }
      apply (Forall2_select_r _ (λ c, bool_decide (c ≠ Some INVALID))) in H0.
      fold m1 in H0.
      apply (Forall2_select_l _ q) in H0.
      eapply Forall2_impl; [exact H0|]. clear.
      intros [s|] a [[-> Ha] Hq]; [|done].
      apply bool_decide_eq_true in Ha. exists s. split_and!; [done..| |done].
      congruence. }
  assert (∀ c, c ≠ "API" → is_float <$> hdf !! c = is_float <$> ndf !! c) as Hdt.
  { intros c Hc. unfold hdf. rewrite !mask_rows_is_float.
    unfold adf. by rewrite lookup_insert_ne. }
  unfold filtered_df in Hf. case_bool_decide.
  - injection Hf as <-. done.
  - apply bind_Ok in Hf as (api & _ & [= <-]). split.
    + by apply aligned_mask_rows.
    + intros c Hc. rewrite mask_rows_is_float. by apply Hdt.
Qed.
End PrepareFacts.

(** ** Lines 61-91: the analysis *)

Module AnalysisFacts.
Import ListFacts FrameFacts.

(** *** Arithmetic: the divisions never divide by zero *)

Lemma py_max_ge (x y : Qc) : (y ≤ py_max x y)%Qc.
Proof.
  unfold py_max. case_bool_decide as H; [done|]. by apply Qcnot_lt_le.
Qed.

Lemma py_max_1_nonzero (x : Qc) : py_max x 1%Qc ≠ 0%Qc.
Proof.
  intros H. pose proof (py_max_ge x 1%Qc) as Hge. rewrite H in Hge.
  by apply Qcle_not_lt in Hge.
Qed.

Lemma py_max_below_1 (x : Qc) : (x < 1)%Qc → py_max x 1%Qc = 1%Qc.
Proof. intros H. unfold py_max. by rewrite bool_decide_eq_true_2. Qed.

Lemma py_div_Ok (x y : Qc) : y ≠ 0%Qc → py_div x y = Ok (x / y)%Qc.
Proof. intros H. unfold py_div. by rewrite bool_decide_eq_false_2. Qed.

Lemma py_div_max (x y : Qc) :
  py_div x (py_max y 1%Qc) = Ok (x / py_max y 1%Qc)%Qc.
Proof. apply py_div_Ok, py_max_1_nonzero. Qed.

Lemma Qc_of_nat_nonzero (n : nat) : n ≠ 0 → Qc_of_nat n ≠ 0%Qc.
Proof.
  intros Hn H. unfold Qc_of_nat in H. apply Q2Qc_eq_iff in H.
  unfold Qeq in H. simpl in H. lia.
Qed.

Lemma py_div_count (x : Qc) (n : nat) :
  py_div x (Qc_of_nat (n `max` 1)) = Ok (x / Qc_of_nat (n `max` 1))%Qc.
Proof. apply py_div_Ok, Qc_of_nat_nonzero. lia. Qed.

(** *** Text columns *)

Lemma join_scalars_text (sep : str) (xs : list scalar) :
  Forall (λ x, ∃ s, x = SStr s) xs → is_Ok (join_scalars sep xs).
Proof.
  intros H. unfold join_scalars.
  destruct (traverse_total
    (λ x, match x with SStr s => Ok s | SNum _ => Raise TypeError end) xs) as [l Hl].
  { eapply Forall_impl; [exact H|]. intros x [s ->]. by eexists. }
  rewrite Hl. by eexists.
Qed.

Lemma value_counts_index_text (l : list (option str)) :
  Forall (λ x, ∃ s, x = SStr s) (Pd.value_counts_index (Object l)).
Proof.
  apply Forall_forall. intros x Hx. unfold Pd.value_counts_index in Hx.
  rewrite elem_of_sort_by, elem_of_unique in Hx. simpl in Hx.
  apply list_elem_of_fmap in Hx as (s & -> & _). by exists s.
Qed.

(** *** [mode] *)

Lemma mode_elem (l : list (option str)) (w : str) :
  w ∈ Pd.mode l ↔
  w ∈ omap id l ∧ count w (omap id l) = max_list ((λ x, count x (omap id l)) <$> omap id l).
Proof.
  unfold Pd.mode. rewrite elem_of_sort_by, list_elem_of_filter, elem_of_unique. tauto.
Qed.

Lemma mode_nonempty (l : list (option str)) : omap id l ≠ [] → Pd.mode l ≠ [].
Proof.
  intros Hne.
  set (vs := omap id l) in *.
  assert (max_list ((λ x, count x vs) <$> vs) ∈ (λ x, count x vs) <$> vs) as Hmax.
  { apply max_list_attained. by destruct vs. }
  apply list_elem_of_fmap in Hmax as (w & Hw & Hin).
  assert (w ∈ Pd.mode l) as H by (apply mode_elem; by split).
  intros E. rewrite E in H. by apply elem_of_nil in H.
Qed.

Lemma count_le_max (vs : list str) (w : str) :
  (count w vs ≤ max_list ((λ x, count x vs) <$> vs))%nat.
Proof.
  destruct (decide (w ∈ vs)) as [Hin|Hout].
  - apply max_list_elem_of_le, list_elem_of_fmap. by exists w.
  - assert (¬ (0 < count w vs)%nat) as H by (by rewrite count_pos). lia.
Qed.

(** What [mode()[0]] picks: a most frequent value, and among the most
    frequent values the least one in string order. *)
Lemma first_mode_spec (l : list (option str)) (c : str) :
  Pd.first (Pd.mode l) = Ok c →
  let vs := omap id l in
  c ∈ vs
  ∧ (∀ w, (count w vs ≤ count c vs)%nat)
  ∧ (∀ w, w ∈ vs → count w vs = count c vs → Str.le c w).
Proof.
  intros H. simpl.
  assert (head (Pd.mode l) = Some c) as Hhead.
  { destruct (Pd.mode l); [done|]. by injection H as ->. }
  assert (c ∈ Pd.mode l) as Hc by (by apply head_Some_elem_of).
  apply mode_elem in Hc as [Hin Hcount].
  split_and!; [done| |].
  - intros w. rewrite Hcount. apply count_le_max.
  - intros w Hw Hwc. apply str_leb_le.
    unfold Pd.mode in Hhead.
    eapply (sort_by_head str_leb str_leb_total str_leb_trans); [exact Hhead|].
    rewrite list_elem_of_filter, elem_of_unique. split; [congruence|done].
Qed.

Lemma first_mode_total (l : list (option str)) :
  omap id l ≠ [] → is_Ok (Pd.first (Pd.mode l)).
Proof.
  intros H%mode_nonempty. destruct (Pd.mode l); [done|]. by eexists.
Qed.

End AnalysisFacts.

(** ** A name with a valid token has a first word *)

Module NameFacts.
Import StrFacts ReFacts ExtractTheorems.

Lemma upper_is_space (c : ascii) : Char.is_space (Char.upper c) = Char.is_space c.
Proof. destruct c as [[] [] [] [] [] [] [] []]; reflexivity. Qed.

Lemma split_token_chars p (s t : str) (c : ascii) :
  t ∈ Re.split p s → c ∈ t → c ∈ s.
Proof.
  revert t. induction s as [|x s IH]; simpl; intros t Ht Hc.
  - apply list_elem_of_singleton in Ht as ->. by apply elem_of_nil in Hc.
  - destruct (p x).
    + apply elem_of_cons in Ht as [->|Ht]; [by apply elem_of_nil in Hc|].
      right. by apply (IH t).
    + destruct (Re.split p s) as [|t' ts] eqn:E.
      * apply list_elem_of_singleton in Ht as ->.
        apply list_elem_of_singleton in Hc as ->. by left.
      * apply elem_of_cons in Ht as [->|Ht].
        -- apply elem_of_cons in Hc as [->|Hc]; [by left|right].
           apply (IH t'); [by left|done].
        -- right. apply (IH t); [by right|done].
Qed.

Lemma strip_chars (s : str) (c : ascii) : c ∈ Str.strip s → c ∈ s.
Proof.
  intros Hc. destruct (strip_spec s) as (pre & post & Hs & _ & _).
  rewrite Hs. set_solver.
Qed.

Lemma split_words_nil (s : str) :
  Str.split s = [] → Forall (λ c, Char.is_space c = true) s.
Proof.
  induction s as [|c s IH]; simpl; [done|].
  destruct (Char.is_space c) eqn:E; [by constructor; auto|].
  destruct s as [|c' s']; [done|].
  destruct (Char.is_space c'); [done|]. by destruct (Str.split (c' :: s')).
Qed.

Lemma valid_name_has_word (s : str) :
  extract_api s ≠ INVALID → ∃ w, head (Str.split s) = Some w.
Proof.
  intros Hs. unfold extract_api in Hs.
  destruct (valid_tokens s) as [|t ts] eqn:E; [done|]. clear Hs.
  assert (t ∈ valid_tokens s) as Ht by (rewrite E; left).
  pose proof (valid_tokens_elem s t Ht) as (Hk & [Hlead _] & _ & _).
  unfold valid_tokens in Ht.
  apply list_elem_of_filter in Ht as [_ Ht].
  apply list_elem_of_fmap in Ht as (raw & -> & Hraw).
  destruct (Str.strip raw) as [|c t'] eqn:Et.
  { by vm_compute in Hk. }
  simpl in Hlead.
  assert (c ∈ Str.upper s) as Hc.
  { apply (split_token_chars is_separator _ raw); [done|]. apply strip_chars. rewrite Et. by left. }
  apply list_elem_of_fmap in Hc as (c0 & -> & Hc0).
  rewrite upper_is_space in Hlead.
  destruct (Str.split s) as [|w ws] eqn:Ew; [|by exists w].
  apply split_words_nil in Ew. rewrite Forall_forall in Ew.
  specialize (Ew c0 Hc0). congruence.
Qed.

End NameFacts.

(** ** The analysis of a well-formed filtered frame runs to the end *)

Lemma traverse_fmap {A B} (f : A → result B) (g : A → B) (l : list A) :
  (∀ x, f x = Ok (g x)) → traverse f l = Ok (g <$> l).
Proof.
  intros H. induction l as [|x l IH]; simpl; [done|]. by rewrite H, IH.
Qed.

Section AnalysisTotal.
Import ListFacts FrameFacts AnalysisFacts NameFacts.

Variable filtered : DataFrame.
Variables names apis units : list (option str).
Variables qty fob : list (option Qc).
Hypothesis Hnames : filtered !! "Product Name" = Some (Object names).
Hypothesis Hapis : filtered !! "API" = Some (Object apis).
Hypothesis Hrows : Forall2 valid_row names apis.
Hypothesis Hqty : filtered !! "Quantity" = Some (Float64 qty).
Hypothesis Hfob : filtered !! "FOB (USD)" = Some (Float64 fob).
Hypothesis Hunits : filtered !! "Unit" = Some (Object units).

Local Abbreviation tokens := (omap id apis).

Lemma groupby_agg_Ok :
  ∃ groups, groupby_agg filtered = Ok groups
    ∧ (λ g : str * Qc * Qc, g.1.1) <$> groups = sort_by str_leb (unique tokens).
Proof.
  unfold groupby_agg, Pd.getitem. rewrite Hapis, Hqty, Hfob. cbn [bind group_keys].
  eexists. split.
  - apply (traverse_fmap _ (λ k,
      (k, foldr Qcplus 0%Qc (omap id (select (Pd.eq (Object apis) k) qty)),
          foldr Qcplus 0%Qc (omap id (select (Pd.eq (Object apis) k) fob))))).
    done.
  - rewrite <- list_fmap_compose. apply list_fmap_id.
Qed.

Lemma top_apis_Ok :
  ∃ tops, top_apis filtered = Ok tops
    ∧ length tops = 5 `min` length (unique tokens)
    ∧ ∀ a, a ∈ tops → Some a ∈ apis.
Proof.
  destruct groupby_agg_Ok as (groups & Hg & Hkeys).
  unfold top_apis. rewrite Hg. cbn [bind]. eexists. split; [done|].
  assert (length groups = length (unique tokens)) as Hlen.
  { by rewrite <- (length_fmap (λ g : str * Qc * Qc, g.1.1)), Hkeys, sort_by_length. }
  split.
  - unfold nlargest. by rewrite length_fmap, length_take, sort_by_length, Hlen.
  - intros a Ha. apply list_elem_of_fmap in Ha as (g & -> & Hin).
    unfold nlargest in Hin. apply elem_of_take in Hin as (i & Hi & _).
    apply list_elem_of_lookup_2, elem_of_sort_by in Hi.
    assert (g.1.1 ∈ sort_by str_leb (unique tokens)) as Hk.
    { rewrite <- Hkeys. apply list_elem_of_fmap. by exists g. }
    rewrite elem_of_sort_by, elem_of_unique in Hk.
    unfold tokens in Hk. apply list_elem_of_omap in Hk as (o & Ho & Hid).
    simpl in Hid. by subst o.
Qed.

Lemma group_has_first_word (api : str) :
  Some api ∈ apis →
  omap id ((λ c : option str, c ≫= head ∘ Str.split)
             <$> select (Pd.eq (Object apis) api) names) ≠ [].
Proof.
  intros Hin.
  destruct (Forall2_select_elem valid_row (λ c, bool_decide (c = Some api))
              names apis (Some api) Hrows Hin) as (n & Hn & s & -> & Hs & Hvalid & _).
  { by apply bool_decide_eq_true. }
  destruct (valid_name_has_word s Hvalid) as [w Hw].
  assert (w ∈ omap id ((λ c : option str, c ≫= head ∘ Str.split)
             <$> select (Pd.eq (Object apis) api) names)) as H.
  { apply list_elem_of_omap. exists (Some w). split; [|done].
    apply list_elem_of_fmap. exists (Some s). split; [|done]. simpl. by rewrite Hw. }
  intros E. rewrite E in H. by apply elem_of_nil in H.
Qed.

Lemma analyse_total (api : str) :
  Some api ∈ apis → ∃ r, analyse filtered api = Ok r.
Proof.
  intros Hin. unfold analyse, Pd.getitem. rewrite Hapis. cbn [bind].
  pose (rows := Pd.eq (Object apis) api).
  change (Pd.eq (Object apis) api) with rows.
  rewrite (mask_rows_object rows _ _ _ Hnames). cbn [bind Pd.str_extractall Pd.str_accessor].
  rewrite (mask_rows_object rows _ _ _ Hunits). cbn [bind Pd.str_split_first Pd.str_accessor].
  destruct (first_mode_total _ (group_has_first_word api Hin)) as [category Hcat].
  fold rows in Hcat. rewrite Hcat.
  cbn [bind].
  rewrite (mask_rows_float rows _ _ _ Hqty). cbn [bind Pd.sum].
  rewrite py_div_count. cbn [bind].
  destruct (join_scalars_text (lit ", ") (take 3 (Pd.value_counts_index (Object (select rows units)))))
    as [joined Hjoined].
  { apply Forall_take, value_counts_index_text. }
  assert (is_Ok (match take 3 (Pd.value_counts_index (Object (select rows units))) with
                 | [] => Ok (lit "Various")
                 | _ :: _ => join_scalars (lit ", ")
                     (take 3 (Pd.value_counts_index (Object (select rows units))))
                 end)) as [packaging ->].
  { destruct (take 3 _); [by eexists|]. rewrite Hjoined. by eexists. }
  cbn [bind Pd.str_upper Pd.str_accessor Pd.mask_series Pd.sum].
  rewrite (mask_rows_float rows _ _ _ Hfob). cbn [bind Pd.sum].
  rewrite py_div_max. cbn [bind]. by eexists.
Qed.

Lemma analysis_data_total :
  ∃ records, analysis_data filtered = Ok records
    ∧ length records = 5 `min` length (unique tokens).
Proof.
  destruct top_apis_Ok as (tops & Ht & Hlen & Hin).
  unfold analysis_data. rewrite Ht. cbn [bind].
  destruct (traverse_total (analyse filtered) tops) as [records Hr].
  { apply Forall_forall. intros a Ha. destruct (analyse_total a (Hin a Ha)) as [r Hr].
    by exists r. }
  exists records. split; [done|]. by rewrite (traverse_length _ _ _ Hr).
Qed.
End AnalysisTotal.

(** ** What a finished analysis holds *)

Module ReportFacts.
Import ListFacts FrameFacts AnalysisFacts.

Lemma getitem_Ok (df : DataFrame) c s : Pd.getitem df c = Ok s ↔ df !! c = Some s.
Proof. unfold Pd.getitem. destruct (df !! c); naive_solver. Qed.

Lemma groupby_agg_inv (filtered : DataFrame) groups :
  groupby_agg filtered = Ok groups →
  (λ g : str * Qc * Qc, g.1.1) <$> groups = sort_by str_leb (unique (api_tokens filtered)).
Proof.
  unfold groupby_agg, api_tokens. intros H.
  apply bind_Ok in H as (api & Hapi%getitem_Ok & H). rewrite Hapi.
  apply bind_Ok in H as (keys & Hkeys & H).
  apply bind_Ok in H as (qty & _ & H).
  apply bind_Ok in H as (fob & _ & H).
  destruct api as [apis|]; [|done]. injection Hkeys as <-.
  apply traverse_Ok in H.
  induction H as [|k g ks gs Hg _ IH]; [done|]. simpl. rewrite <- IH. f_equal.
  apply bind_Ok in Hg as (? & _ & Hg). apply bind_Ok in Hg as (? & _ & Hg).
  by injection Hg as <-.
Qed.

Lemma top_apis_inv (filtered : DataFrame) tops :
  top_apis filtered = Ok tops →
  length tops = 5 `min` length (unique (api_tokens filtered))
  ∧ ∀ a, a ∈ tops → a ∈ api_tokens filtered.
Proof.
  unfold top_apis. intros H. apply bind_Ok in H as (groups & Hg & [= <-]).
  apply groupby_agg_inv in Hg.
  assert (length groups = length (unique (api_tokens filtered))) as Hlen.
  { by rewrite <- (length_fmap (λ g : str * Qc * Qc, g.1.1)), Hg, sort_by_length. }
  split.
  - unfold nlargest. by rewrite length_fmap, length_take, sort_by_length, Hlen.
  - intros a Ha. apply list_elem_of_fmap in Ha as (g & -> & Hin).
    unfold nlargest in Hin. apply elem_of_take in Hin as (i & Hi & _).
    apply list_elem_of_lookup_2, elem_of_sort_by in Hi.
    assert (g.1.1 ∈ sort_by str_leb (unique (api_tokens filtered))) as Hk.
    { rewrite <- Hg. apply list_elem_of_fmap. by exists g. }
    by rewrite elem_of_sort_by, elem_of_unique in Hk.
Qed.

Lemma analyse_inv (filtered : DataFrame) (api : str) (r : AnalysisRecord) :
  analyse filtered api = Ok r →
  ∃ group names first_words total fob_total,
    api_df filtered api = Ok group
    ∧ group !! "Product Name" = Some names
    ∧ Pd.str_split_first names = Ok first_words
    ∧ Pd.first (Pd.mode first_words) = Ok (Category r)
    ∧ column_sum group "Quantity" = Ok total
    ∧ column_sum group "FOB (USD)" = Ok fob_total
    ∧ API r = api
    ∧ Export_Count r = shape0 group
    ∧ Total_Shipments r = total
    ∧ py_div total (Qc_of_nat (shape0 group `max` 1)) = Ok (Avg_Qty_Export r)
    ∧ py_div fob_total (py_max total 1%Qc) = Ok (Avg_FOB_Pack r)
    ∧ py_div fob_total (py_max total 1%Qc) = Ok (Avg_Price_Unit r).
Proof.
  unfold analyse, api_df, column_sum. intros H.
  apply bind_Ok in H as (col & Hcol & H). rewrite Hcol. cbn [bind].
  apply bind_Ok in H as (names & Hnames%getitem_Ok & H).
  apply bind_Ok in H as (found & _ & H).
  apply bind_Ok in H as (units & _ & H).
  apply bind_Ok in H as (first_words & Hfw & H).
  apply bind_Ok in H as (category & Hcat & H).
  apply bind_Ok in H as (qty & Hqty & H).
  apply bind_Ok in H as (total & Htotal & H).
  apply bind_Ok in H as (avg_qty & Havg & H).
  apply bind_Ok in H as (packaging & _ & H).
  apply bind_Ok in H as (unit_upper & _ & H).
  apply bind_Ok in H as (nos & _ & H).
  apply bind_Ok in H as (kg & _ & H).
  apply bind_Ok in H as (fob & Hfob & H).
  apply bind_Ok in H as (fob_total & Hft & H).
  apply bind_Ok in H as (fob_pack & Hpack & H).
  apply bind_Ok in H as (price_unit & Hprice & [= <-]).
  eexists _, names, first_words, total, fob_total. cbn.
  split_and!; try done.
  - by rewrite Hqty.
  - by rewrite Hfob.
Qed.

Lemma analysis_data_inv (filtered : DataFrame) (records : list AnalysisRecord) :
  analysis_data filtered = Ok records →
  length records = 5 `min` length (unique (api_tokens filtered))
  ∧ Forall (λ r, API r ∈ api_tokens filtered ∧ analyse filtered (API r) = Ok r) records.
Proof.
  unfold analysis_data. intros H. apply bind_Ok in H as (tops & Ht & H).
  apply top_apis_inv in Ht as [Hlen Hin].
  split; [by rewrite (traverse_length _ _ _ H)|].
  apply traverse_Ok in H. clear Hlen.
  induction H as [|a r tops records Hr _ IH]; [done|].
  pose proof (analyse_inv _ _ _ Hr) as (?&?&?&?&?&_&_&_&_&_&_&Hapi&_).
  constructor.
  - rewrite Hapi. split; [apply Hin; by left|done].
  - apply IH. intros a' Ha'. apply Hin. by right.
Qed.

End ReportFacts.

(** ** The report *)

Section ReportTheorems.
Import ListFacts FrameFacts AnalysisFacts ReportFacts.
Variable parse_number : str → option Qc.
Variable str_of_number : Qc → str.

Lemma normalize_dtypes (df ndf : DataFrame) :
  normalize parse_number df = Ok ndf →
  is_float <$> ndf !! "FOB (USD)" = Some true
  ∧ is_float <$> ndf !! "Quantity" = (λ _, true) <$> df !! "Quantity"
  ∧ ∀ c, c ∉ numeric_cols → ndf !! c = df !! c.
Proof.
  intros Hn.
  destruct (normalize_cases parse_number df)
    as [[Hu Hn']|[(_ & _ & Hn')|(_ & s1 & inr & Hs1 & Hc1 & Hn')]];
    rewrite Hn' in Hn; [|done|]; injection Hn as <-.
  - destruct Hu as (s & t & Hs & _ & _). split_and!.
    + by rewrite (numeric_cleanup_numeric _ _ _ numeric_cols_usd), Hs.
    + rewrite (numeric_cleanup_numeric _ _ _ numeric_cols_quantity).
      by destruct (df !! "Quantity").
    + intros c Hc. by apply numeric_cleanup_other.
  - split_and!.
    + by rewrite lookup_insert_eq.
    + rewrite lookup_insert_ne by done.
      rewrite (numeric_cleanup_numeric _ _ _ numeric_cols_quantity).
      by destruct (df !! "Quantity").
    + intros c Hc. rewrite lookup_insert_ne.
      * by apply numeric_cleanup_other.
      * intros <-. apply Hc, numeric_cols_usd.
Qed.

Lemma run_prepared (df fdf : DataFrame) (api_filter : str) :
  prepare parse_number str_of_number df api_filter = Ok fdf →
  shape0 fdf ≠ 0 →
  run parse_number str_of_number df api_filter =
    match analysis_data fdf with
    | Ok records => Report records
    | Raise e => Uncaught e
    end.
Proof.
  intros Hp Hne. unfold run. rewrite Hp.
  by destruct (Nat.eqb_spec (shape0 fdf) 0).
Qed.

(** C2, as amended. For a non-empty filtered set of human-use rows of
    a table that has a Quantity column and whose Unit column is text,
    the report holds min(5, number of distinct API tokens of the set)
    records: at most 5, and at most the number of distinct tokens. *)
Theorem report_cardinality (df fdf : DataFrame) (api_filter : str) :
  prepare parse_number str_of_number df api_filter = Ok fdf →
  shape0 fdf ≠ 0 →
  is_Some (df !! "Quantity") →
  (∃ units, df !! "Unit" = Some (Object units)) →
  ∃ records,
    run parse_number str_of_number df api_filter = Report records
    ∧ length records = 5 `min` size (list_to_set (api_tokens fdf) : gset str)
    ∧ (length records ≤ 5)%nat
    ∧ (length records ≤ size (list_to_set (api_tokens fdf) : gset str))%nat.
Proof.
  intros Hp Hne [q0 Hq0] [u0 Hu0].
  rewrite (run_prepared _ _ _ Hp Hne).
  destruct (prepare_Ok _ _ _ _ _ Hp)
    as (ndf & Hn & _ & (names & apis & Hnames & Hapis & Hrows) & Hdt).
  destruct (normalize_dtypes _ _ Hn) as (Hfob & Hqty & Hother).
  destruct (is_float_true (fdf !! "FOB (USD)")) as [fob Hfob'].
  { by rewrite Hdt. }
  destruct (is_float_true (fdf !! "Quantity")) as [qty Hqty'].
  { rewrite Hdt by done. by rewrite Hqty, Hq0. }
  destruct (is_float_false (fdf !! "Unit")) as [units Hunits].
  { rewrite Hdt by done. rewrite Hother, Hu0; [done|].
    unfold numeric_cols. set_solver. }
  destruct (analysis_data_total fdf names apis units qty fob
              Hnames Hapis Hrows Hqty' Hfob' Hunits) as (records & Hr & Hlen).
  exists records. rewrite Hr. split; [done|].
  rewrite size_list_to_set_unique. unfold api_tokens. rewrite Hapis.
  split_and!; [done|lia..].
Qed.

(** The three ways in which lines 12-57 can stop. *)
Lemma prepare_Raise (df : DataFrame) (api_filter : str) (e : exn) :
  prepare parse_number str_of_number df api_filter = Raise e →
  (e = KeyError "FOB (INR)" ∧ df !! "FOB (INR)" = None)
  ∨ (e = KeyError "Product Name" ∧ df !! "Product Name" = None)
  ∨ (e = AttributeError ∧ ∃ cells, df !! "Product Name" = Some (Float64 cells)).
Proof.
  unfold prepare.
  destruct (normalize parse_number df) as [ndf|e'] eqn:Hn; cbn [bind].
  - destruct (normalize_dtypes _ _ Hn) as (_ & _ & Hother).
    assert (ndf !! "Product Name" = df !! "Product Name") as Hname.
    { apply Hother. unfold numeric_cols. set_solver. }
    unfold add_api, Pd.getitem. rewrite Hname.
    destruct (df !! "Product Name") as [names|] eqn:E; cbn [bind].
    + unfold valid_df, Pd.getitem. rewrite lookup_insert_eq. cbn [bind].
      unfold human_df, Pd.getitem.
      rewrite mask_rows_lookup, lookup_insert_ne, Hname by done.
      destruct names as [l|l]; cbn.
      * unfold filtered_df. case_bool_decide; [done|].
        unfold Pd.getitem. by rewrite !mask_rows_lookup, lookup_insert_eq.
      * intros [= <-]. do 2 right. split; [done|]. by exists l.
    + intros [= <-]. right; left. done.
  - intros [= <-]. left.
    destruct (normalize_cases parse_number df)
      as [[_ Hn']|[(_ & Hinr & Hn')|(_ & ? & ? & _ & _ & Hn')]]; [congruence| |congruence].
    split; [congruence|done].
Qed.

(** A non-empty filtered frame has a first API in the ranking. *)
Lemma first_top_api (fdf : DataFrame) names apis qty fob :
  fdf !! "API" = Some (Object apis) →
  Forall2 valid_row names apis →
  fdf !! "Quantity" = Some (Float64 qty) →
  fdf !! "FOB (USD)" = Some (Float64 fob) →
  shape0 fdf ≠ 0 →
  ∃ api tops, top_apis fdf = Ok (api :: tops) ∧ Some api ∈ apis.
Proof.
  intros Hapis Hrows Hqty Hfob Hne.
  destruct (top_apis_Ok fdf apis qty fob Hapis Hqty Hfob) as (tops & Ht & Hlen & Hin).
  destruct tops as [|a tops].
  { exfalso. simpl in Hlen. unfold shape0 in Hne. rewrite Hapis in Hne.
    simpl in Hne. destruct apis as [|o apis']; [done|].
    apply Forall2_cons_inv_r in Hrows as (n & names' & (s & -> & -> & _) & _ & ->).
    simpl in Hlen. lia. }
  exists a, tops. split; [done|]. apply Hin. by left.
Qed.

(** C8, as amended. A table without the Product Name column ends the
    run with an uncaught KeyError before any aggregation (at line 22
    for FOB (INR), or at line 46 for Product Name). A table without
    the Unit column never gets a report. Its run stops before the
    aggregation when lines 12-57 raise: KeyError for FOB (INR) at line
    22, which needs that column to be absent, KeyError for
    Product Name at line 46, when that column is absent, or
    AttributeError at line 51, when Product Name is a numeric column.
    When lines 12-57 pass, the run shows the no-data warning if no row
    is left after filtering, and otherwise ends with an uncaught
    KeyError inside the aggregation: for Quantity in [groupby] when
    that column is absent too, else for Unit in the loop over the
    APIs. *)
Theorem missing_text_column_raises (df : DataFrame) (api_filter : str) :
  (df !! "Product Name" = None →
     run parse_number str_of_number df api_filter = Uncaught (KeyError "FOB (INR)")
     ∨ run parse_number str_of_number df api_filter = Uncaught (KeyError "Product Name"))
  ∧ (df !! "Unit" = None →
     (∀ records, run parse_number str_of_number df api_filter ≠ Report records)
     ∧ match prepare parse_number str_of_number df api_filter with
       | Raise e =>
           run parse_number str_of_number df api_filter = Uncaught e
           ∧ ((e = KeyError "FOB (INR)" ∧ df !! "FOB (INR)" = None)
              ∨ (e = KeyError "Product Name" ∧ df !! "Product Name" = None)
              ∨ (e = AttributeError
                 ∧ ∃ cells, df !! "Product Name" = Some (Float64 cells)))
       | Ok fdf =>
           run parse_number str_of_number df api_filter
           = if (shape0 fdf =? 0)%nat then Warning no_data
             else Uncaught (KeyError (match df !! "Quantity" with
                                      | Some _ => "Unit"
                                      | None => "Quantity"
                                      end))
       end).
Proof.
  split.
  - intros Hname. unfold run, prepare.
    destruct (normalize parse_number df) as [ndf|e] eqn:Hn; cbn [bind].
    + right. destruct (normalize_dtypes _ _ Hn) as (_ & _ & Hother).
      unfold add_api, Pd.getitem. rewrite Hother, Hname; [done|].
      unfold numeric_cols. set_solver.
    + left.
      destruct (normalize_cases parse_number df)
        as [[_ Hn']|[(_ & _ & Hn')|(_ & ? & ? & _ & _ & Hn')]]; congruence.
  - intros Hunit.
    assert (match prepare parse_number str_of_number df api_filter with
       | Raise e =>
           run parse_number str_of_number df api_filter = Uncaught e
           ∧ ((e = KeyError "FOB (INR)" ∧ df !! "FOB (INR)" = None)
              ∨ (e = KeyError "Product Name" ∧ df !! "Product Name" = None)
              ∨ (e = AttributeError
                 ∧ ∃ cells, df !! "Product Name" = Some (Float64 cells)))
       | Ok fdf =>
           run parse_number str_of_number df api_filter
           = if (shape0 fdf =? 0)%nat then Warning no_data
             else Uncaught (KeyError (match df !! "Quantity" with
                                      | Some _ => "Unit"
                                      | None => "Quantity"
                                      end))
       end) as Hends.
    { destruct (prepare parse_number str_of_number df api_filter) as [fdf|e] eqn:Hp.
      - destruct (Nat.eqb_spec (shape0 fdf) 0) as [H0|Hne].
        { unfold run. rewrite Hp. by rewrite H0. }
        rewrite (run_prepared _ _ _ Hp Hne).
        destruct (prepare_Ok _ _ _ _ _ Hp)
          as (ndf & Hn & _ & (names & apis & Hnames & Hapis & Hrows) & Hdt).
        destruct (normalize_dtypes _ _ Hn) as (Hfob & Hqty & Hother).
        destruct (is_float_true (fdf !! "FOB (USD)")) as [fob Hfob'].
        { by rewrite Hdt. }
        assert (fdf !! "Unit" = None) as Hunit'.
        { specialize (Hdt "Unit"). rewrite Hother, Hunit in Hdt.
          - destruct (fdf !! "Unit"); [|done]. by specialize (Hdt ltac:(done)).
          - unfold numeric_cols. set_solver. }
        destruct (df !! "Quantity") as [q0|] eqn:Hq0.
        + destruct (is_float_true (fdf !! "Quantity")) as [qty Hqty'].
          { rewrite Hdt by done. by rewrite Hqty. }
          destruct (first_top_api fdf names apis qty fob Hapis Hrows Hqty' Hfob' Hne)
            as (a & tops & Ht & _).
          unfold analysis_data. rewrite Ht. cbn [bind].
          cbn [traverse]. unfold analyse at 1, Pd.getitem.
          rewrite Hapis. cbn [bind].
          rewrite (mask_rows_object _ _ _ _ Hnames). cbn [bind Pd.str_extractall Pd.str_accessor].
          by rewrite (mask_rows_None _ _ _ Hunit').
        + assert (fdf !! "Quantity" = None) as Hqty'.
          { specialize (Hdt "Quantity" ltac:(done)). rewrite Hqty in Hdt.
            by destruct (fdf !! "Quantity"). }
          unfold analysis_data, top_apis, groupby_agg, Pd.getitem.
          rewrite Hapis, Hqty'. done.
      - split; [|by eapply prepare_Raise]. unfold run. by rewrite Hp. }
    split; [|exact Hends].
    intros records Hrun.
    destruct (prepare parse_number str_of_number df api_filter) as [fdf|e].
    + rewrite Hrun in Hends. by destruct (shape0 fdf =? 0)%nat.
    + destruct Hends as [Hends _]. congruence.
Qed.

(** Every record of a report carries a token other than the sentinel:
    the rows whose API is ["INVALID"] are not in the report. *)
Lemma report_without_sentinel (df : DataFrame) (api_filter : str) records :
  run parse_number str_of_number df api_filter = Report records →
  Forall (λ r, API r ≠ INVALID) records.
Proof.
  unfold run. intros H.
  destruct (prepare parse_number str_of_number df api_filter) as [fdf|] eqn:Hp; [|done].
  destruct (shape0 fdf =? 0)%nat; [done|].
  destruct (analysis_data fdf) as [records'|] eqn:Hr; [|done].
  injection H as ->.
  destruct (prepare_Ok _ _ _ _ _ Hp)
    as (_ & _ & _ & (names & apis & Hnames & Hapis & Hrows) & _).
  apply analysis_data_inv in Hr as [_ Hr].
  eapply Forall_impl; [exact Hr|]. intros r [Hin _] Heq.
  unfold api_tokens in Hin. rewrite Hapis in Hin.
  apply list_elem_of_omap in Hin as (o & Ho & Hid). simpl in Hid. subst o.
  apply list_elem_of_lookup in Ho as [i Hi].
  destruct (Forall2_lookup_r _ _ _ _ _ Hrows Hi) as (n & _ & s & _ & [= Hs] & Hne & _).
  congruence.
Qed.
End ReportTheorems.

(** ** The fields of a record *)

Module RecordTheorems.
Import ListFacts FrameFacts AnalysisFacts ReportFacts.

Lemma Qcdiv_1_r (x : Qc) : (x / 1)%Qc = x.
Proof.
  unfold Qcdiv. rewrite <- (Qcmult_1_l (/ 1)%Qc), Qcmult_inv_r by done.
  apply Qcmult_1_r.
Qed.

Lemma omap_id_fmap {A B} (f : A → option B) (l : list A) :
  omap id (f <$> l) = omap f l.
Proof. induction l as [|x l IH]; [done|]. cbn. destruct (f x); by rewrite IH. Qed.


(** C7, as amended. For every selected API group, the Category is a
    most frequent first whitespace-delimited word of the Product Name
    over the group's rows; when several words are tied for most
    frequent, it is the least of them in string order ([mode()]
    returns the modes sorted), not the one that occurs first. *)
Theorem category_is_least_most_frequent_word
    (filtered : DataFrame) (api : str) (r : AnalysisRecord) :
  analyse filtered api = Ok r →
  ∃ group cells,
    api_df filtered api = Ok group
    ∧ group !! "Product Name" = Some (Object cells)
    ∧ let words := omap (λ c : option str, c ≫= head ∘ Str.split) cells in
      Category r ∈ words
      ∧ (∀ w, (count w words ≤ count (Category r) words)%nat)
      ∧ (∀ w, w ∈ words → count w words = count (Category r) words →
              Str.le (Category r) w).
Proof.
  intros H.
  destruct (analyse_inv _ _ _ H)
    as (group & names & fw & total & fob & Hg & Hn & Hfw & Hc & _).
  destruct names as [cells|]; [|done]. cbn in Hfw. injection Hfw as <-.
  exists group, cells. split_and!; [done..|].
  apply first_mode_spec in Hc. by rewrite omap_id_fmap in Hc.
Qed.

End RecordTheorems.

Section SentinelTheorem.
Import FrameFacts.
Variable parse_number : str → option Qc.
Variable str_of_number : Qc → str.

(** C10. The sentinel collides with a real token: "INVALID SYRUP" has
    the valid token "INVALID" and [extract_api] returns it, the same
    value that a name without any valid token ("ABC") gets; whenever
    the first valid token of a name is "INVALID", line 47 drops the
    row, and no record of a report carries that token. *)
Theorem sentinel_collides_with_token :
  (valid_tokens (lit "INVALID SYRUP") = [INVALID]
   ∧ extract_api (lit "INVALID SYRUP") = INVALID)
  ∧ (valid_tokens (lit "ABC") = [] ∧ extract_api (lit "ABC") = INVALID)
  ∧ (∀ name, head (valid_tokens name) = Some INVALID → extract_api name = INVALID)
  ∧ (∀ df adf names,
       df !! "Product Name" = Some (Object names) →
       add_api str_of_number df = Ok adf →
       ∃ apis mask,
         adf !! "API" = Some (Object apis)
         ∧ mask = Pd.ne (Object apis) INVALID
         ∧ valid_df adf = Ok (Pd.mask_rows mask adf)
         ∧ ∀ i name, names !! i = Some (Some name) →
             head (valid_tokens name) = Some INVALID →
             mask !! i = Some false)
  ∧ (∀ df api_filter records,
       run parse_number str_of_number df api_filter = Report records →
       Forall (λ r, API r ≠ INVALID) records).
Proof.
  assert (∀ name, head (valid_tokens name) = Some INVALID → extract_api name = INVALID)
    as Hhead.
  { intros name H. unfold extract_api. by destruct (valid_tokens name); simplify_eq/=. }
  split_and!; [by vm_compute..|done| |].
  - intros df adf names Hnames Ha.
    apply add_api_Ok in Ha as (names_s & Hn & ->).
    rewrite Hnames in Hn. injection Hn as <-.
    eexists _, _. split_and!; [by rewrite lookup_insert_eq|done| |].
    + unfold valid_df, Pd.getitem. by rewrite lookup_insert_eq.
    + intros i name Hi Hname. cbn.
      rewrite !list_lookup_fmap, Hi. cbn.
      by rewrite (Hhead name Hname).
  - apply report_without_sentinel.
Qed.
End SentinelTheorem.

(** ** Sample runs *)

Module ReportSamples.
Import Sample FrameFacts ReportFacts RecordTheorems.

Example six_api_report :
  (λ r, (show (API r), this (Total_Shipments r)))
    <$> records_of (run_sample six_api_table "All")
  = [("METFORMIN", 60%Q); ("CETIRIZINE", 50%Q); ("AMOXICILLIN", 40%Q);
     ("PARACETAMOL", 30%Q); ("IBUPROFEN", 20%Q)]
  ∧ show <$> unique (api_tokens (filtered_sample six_api_table "All"))
    = ["ASPIRIN"; "IBUPROFEN"; "PARACETAMOL"; "AMOXICILLIN"; "CETIRIZINE"; "METFORMIN"].
Proof. split; by vm_compute. Qed.

Example sentinel_row_is_not_reported :
  (λ r, show (API r)) <$> records_of (run_sample sentinel_table "All") = ["ASPIRIN"]
  ∧ run_sample (Pd.mask_rows [true; false] sentinel_table) "All" = Warning no_data.
Proof. split; by vm_compute. Qed.

(** C2, witness. *)
Lemma report_cardinality_witness :
  prepare parse_number str_of_number six_api_table (lit "All")
    = Ok (filtered_sample six_api_table "All")
  ∧ shape0 (filtered_sample six_api_table "All") ≠ 0
  ∧ is_Some (six_api_table !! "Quantity")
  ∧ (∃ units, six_api_table !! "Unit" = Some (Object units))
  ∧ ∃ records,
      run parse_number str_of_number six_api_table (lit "All") = Report records
      ∧ length records
        = 5 `min` size (list_to_set (api_tokens (filtered_sample six_api_table "All")) : gset str)
      ∧ (length records ≤ 5)%nat
      ∧ (length records
         ≤ size (list_to_set (api_tokens (filtered_sample six_api_table "All")) : gset str))%nat.
Proof.
  assert (prepare parse_number str_of_number six_api_table (lit "All")
            = Ok (filtered_sample six_api_table "All")) as H1 by (by vm_compute).
  assert (shape0 (filtered_sample six_api_table "All") ≠ 0) as H2 by (by vm_compute).
  assert (is_Some (six_api_table !! "Quantity")) as H3 by (by eexists).
  assert (∃ units, six_api_table !! "Unit" = Some (Object units)) as H4 by (by eexists).
  split_and!; [exact H1|exact H2|exact H3|exact H4|].
  exact (report_cardinality parse_number str_of_number six_api_table _ (lit "All") H1 H2 H3 H4).
Defined.

(** C2, counterexample: [no_quantity_table] has one human-use row, a
    non-empty filtered set, and no report: the run stops in [groupby]
    with KeyError; [numeric_unit_table] has three such rows and a Unit
    column of numbers, and its run stops with TypeError. *)
Lemma no_report_without_quantity :
  prepare parse_number str_of_number no_quantity_table (lit "All")
    = Ok (filtered_sample no_quantity_table "All")
  ∧ shape0 (filtered_sample no_quantity_table "All") = 1
  ∧ run parse_number str_of_number no_quantity_table (lit "All")
    = Uncaught (KeyError "Quantity")
  ∧ shape0 (filtered_sample numeric_unit_table "All") = 3
  ∧ run parse_number str_of_number numeric_unit_table (lit "All") = Uncaught TypeError.
Proof. split_and!; [reflexivity|by vm_compute..]. Qed.



(** C7, witness. *)
Lemma category_is_least_most_frequent_word_witness :
  analyse (filtered_sample tie_table "All") (lit "PARACETAMOL")
    = Ok (record_at tie_table "All" 0)
  ∧ ∃ group cells,
      api_df (filtered_sample tie_table "All") (lit "PARACETAMOL") = Ok group
      ∧ group !! "Product Name" = Some (Object cells)
      ∧ let words := omap (λ c : option str, c ≫= head ∘ Str.split) cells in
        Category (record_at tie_table "All" 0) ∈ words
        ∧ (∀ w, (count w words ≤ count (Category (record_at tie_table "All" 0)) words)%nat)
        ∧ (∀ w, w ∈ words →
                count w words = count (Category (record_at tie_table "All" 0)) words →
                Str.le (Category (record_at tie_table "All" 0)) w).
Proof.
  assert (analyse (filtered_sample tie_table "All") (lit "PARACETAMOL")
            = Ok (record_at tie_table "All" 0)) as H by (by vm_compute).
  split; [exact H|].
  exact (category_is_least_most_frequent_word _ _ _ H).
Defined.

(** C7, counterexample: "ZYX" and "ABC" are tied (once each) and "ZYX"
    occurs first, yet the Category is "ABC". *)
Lemma category_is_not_first_occurring :
  (λ r, (show (API r), show (Category r))) <$> records_of (run_sample tie_table "All")
  = [("PARACETAMOL", "ABC")]
  ∧ omap (λ c : option str, show <$> (c ≫= head ∘ Str.split))
      [text "ZYX PARACETAMOL TABLET"; text "ABC PARACETAMOL TABLET"]
    = ["ZYX"; "ABC"].
Proof. split; by vm_compute. Qed.

(** C8, counterexample: without Unit the run stops inside the loop over
    the APIs with KeyError, and without Product Name at line 46; no
    message about the configuration is shown. *)
Lemma missing_text_column_is_uncaught :
  run_sample no_unit_table "All" = Uncaught (KeyError "Unit")
  ∧ run_sample no_name_table "All" = Uncaught (KeyError "Product Name").
Proof. split; by vm_compute. Qed.

End ReportSamples.

(** * Further properties of the code *)

(** ** More on the extractor *)

Module ExtractorProperties.
Import Re ReFacts StrFacts ExtractFacts ExtractTheorems.

Lemma extract_api_cases (name : str) :
  (valid_tokens name = [] ∧ extract_api name = INVALID)
  ∨ extract_api name ∈ valid_tokens name.
Proof.
  unfold extract_api. destruct (valid_tokens name) as [|t ts]; [by left|right; by left].
Qed.

Lemma INVALID_kept : keep_token INVALID = true.
Proof. by vm_compute. Qed.

Lemma INVALID_shape :
  trimmed INVALID ∧ Forall (λ c, is_separator c = false) INVALID
  ∧ Forall (λ c, Char.upper c = c) INVALID.
Proof. split_and!; [by split|by repeat constructor..]. Qed.

(** Whatever [extract_api] returns passed the comprehension's test and
    has the shape of a token. *)
Lemma extract_api_token (name : str) :
  keep_token (extract_api name) = true ∧ trimmed (extract_api name)
  ∧ Forall (λ c, is_separator c = false) (extract_api name)
  ∧ Forall (λ c, Char.upper c = c) (extract_api name).
Proof.
  destruct (extract_api_cases name) as [[_ ->]|H].
  - split; [apply INVALID_kept|apply INVALID_shape].
  - by apply valid_tokens_elem in H.
Qed.

(** X2. The value that [extract_api] returns, the sentinel included, is
    never one that the comprehension drops: it is not empty, not a word
    of the exclusion vocabulary, not of dosage form, and it has at least
    four characters. *)
Theorem extract_api_never_discarded (name : str) :
  extract_api name ≠ []
  ∧ (extract_api name ∉ exclude_terms)
  ∧ (¬ dosage_form (extract_api name))
  ∧ (4 ≤ length (extract_api name))%nat.
Proof.
  destruct (extract_api_token name) as (Hk & Ht & _ & _).
  apply keep_token_spec in Hk; [|done]. unfold discarded in Hk.
  split_and!; [naive_solver..|]. destruct (decide (4 ≤ length (extract_api name))%nat); [done|].
  exfalso. apply Hk. do 3 right. lia.
Qed.

(** X3. The value that [extract_api] returns is in upper case, holds
    none of the nine separator characters and has no whitespace at
    either end; in particular it is never ["All"], the entry of the
    filter that line 57 reads as "no filter". *)
Theorem extract_api_shape (name : str) :
  Str.upper (extract_api name) = extract_api name
  ∧ Forall (λ c, c ∉ separators) (extract_api name)
  ∧ trimmed (extract_api name)
  ∧ extract_api name ≠ lit "All".
Proof.
  destruct (extract_api_token name) as (_ & Ht & Hsep & Hup).
  assert (Str.upper (extract_api name) = extract_api name) as Hfix
    by (by apply upper_fixed).
  split_and!; [done| |done|].
  - eapply Forall_impl; [exact Hsep|]. intros c Hc. simpl in Hc.
    unfold is_separator in Hc. by apply bool_decide_eq_false in Hc.
  - intros E. rewrite E in Hfix. by vm_compute in Hfix.
Qed.

Lemma split_length p (s t : str) : t ∈ Re.split p s → (length t ≤ length s)%nat.
Proof.
  revert t. induction s as [|x s IH]; simpl; intros t Ht.
  - by apply list_elem_of_singleton in Ht as ->.
  - destruct (p x).
    + apply elem_of_cons in Ht as [->|Ht]; [simpl; lia|].
      specialize (IH t Ht). lia.
    + destruct (Re.split p s) as [|t' ts] eqn:E.
      * apply list_elem_of_singleton in Ht as ->. simpl. lia.
      * apply elem_of_cons in Ht as [->|Ht].
        -- specialize (IH t' ltac:(by left)). simpl. lia.
        -- specialize (IH t ltac:(by right)). lia.
Qed.

Lemma strip_length (s : str) : (length (Str.strip s) ≤ length s)%nat.
Proof.
  destruct (strip_spec s) as (pre & post & Hs & _ & _).
  rewrite Hs at 2. rewrite !length_app. lia.
Qed.

Lemma valid_tokens_length (name t : str) :
  t ∈ valid_tokens name → (4 ≤ length t ≤ length name)%nat.
Proof.
  intros Ht. pose proof (valid_tokens_elem name t Ht) as (Hk & Htr & _ & _).
  split.
  - apply keep_token_spec in Hk; [|done]. unfold discarded in Hk.
    destruct (decide (4 ≤ length t)%nat); [done|]. exfalso. apply Hk. do 3 right. lia.
  - unfold valid_tokens in Ht. apply list_elem_of_filter in Ht as [_ Ht].
    apply list_elem_of_fmap in Ht as (raw & -> & Hraw).
    apply split_length in Hraw. unfold Str.upper in Hraw. rewrite length_map in Hraw.
    pose proof (strip_length raw). lia.
Qed.

(** X5. A name of fewer than four ASCII characters has no valid token:
    the empty name, ["ABC"], and ["nan"], which is what [str] makes of a
    missing cell, all get the sentinel ["INVALID"]. (Beyond ASCII
    [str.upper] can lengthen a name.) *)
Theorem short_name_is_invalid (name : str) :
  is_ascii name → (length name < 4)%nat →
  valid_tokens name = [] ∧ extract_api name = lit "INVALID".
Proof.
  intros _ Hlen. destruct (extract_api_cases name) as [H|H]; [done|].
  apply valid_tokens_length in H. unfold extract_api in *.
  destruct (valid_tokens name) as [|t ts] eqn:E; [done|].
  assert (t ∈ valid_tokens name) as Ht by (rewrite E; by left).
  apply valid_tokens_length in Ht. lia.
Qed.

(** X1. [is_invalid] on any string: true exactly on the strings shorter
    than four characters and on the dosage forms, where a dosage form
    may be followed by one newline, which the [$] of the pattern lets
    through. *)
Theorem is_invalid_spec (token : str) :
  is_invalid token = true ↔
  (length token < 4)%nat
  ∨ ∃ body tail, token = body ++ tail ∧ dosage_form body
      ∧ (tail = [] ∨ tail = [Char.newline]).
Proof.
  unfold is_invalid. rewrite orb_true_iff, Nat.ltb_lt, dosage_match. tauto.
Qed.

Lemma extract_api_not_All (name : str) : extract_api name ≠ lit "All".
Proof.
  intros E.
  assert (Str.upper (extract_api name) = extract_api name) as Hfix
    by apply upper_fixed, extract_api_token.
  rewrite E in Hfix. by vm_compute in Hfix.
Qed.

End ExtractorProperties.

(** ** The human-use test (lines 50-51) *)

Module HumanFilter.
Import Re ReFacts StrFacts ExtractFacts.

Lemma last_cons_from_option (c : ascii) (l : str) (prev : option ascii) :
  from_option Some prev (list.last (c :: l)) = from_option Some (Some c) (list.last l).
Proof. rewrite last_cons. by destruct (list.last l). Qed.

(** [re.search] finds a match at some position of the subject. *)
Lemma search_from_spec ic r : ∀ s prev,
  search_from ic r prev s = true ↔
  ∃ pre rest p' s', s = pre ++ rest
    ∧ steps ic r (from_option Some prev (list.last pre)) rest p' s'.
Proof.
  induction s as [|c s IH]; intros prev; simpl.
  - case_bool_decide as H.
    + split; [intros _|done]. apply rmatch_Some in H as (p' & s' & H & _).
      by exists [], [], p', s'.
    + split; [done|]. intros (pre & rest & p' & s' & Hs & Hst).
      symmetry in Hs. apply app_eq_nil in Hs as [-> ->].
      exfalso. apply H. apply rmatch_Some. by exists p', s'.
  - case_bool_decide as H.
    + split; [intros _|done]. apply rmatch_Some in H as (p' & s' & H & _).
      by exists [], (c :: s), p', s'.
    + rewrite IH. split.
      * intros (pre & rest & p' & s' & -> & Hst).
        exists (c :: pre), rest, p', s'. split; [done|].
        by rewrite last_cons_from_option.
      * intros (pre & rest & p' & s' & Hs & Hst).
        destruct pre as [|x pre]; simpl in Hs.
        { subst rest. exfalso. apply H. apply rmatch_Some. by exists p', s'. }
        injection Hs as <- ->. exists pre, rest, p', s'. split; [done|].
        by rewrite last_cons_from_option in Hst.
Qed.

Lemma search_spec ic r s :
  search ic r s = true ↔
  ∃ pre rest p' s', s = pre ++ rest ∧ steps ic r (list.last pre) rest p' s'.
Proof.
  unfold search. rewrite search_from_spec.
  assert (∀ pre : str, from_option Some None (list.last pre) = list.last pre) as E
    by (intros pre; by destruct (list.last pre)).
  by setoid_rewrite E.
Qed.

Lemma steps_keywords p s p' s' :
  steps true
    (alts (word "TABLET")
       [word "CAPSULE"; word "INJECTION"; word "SYRUP"; word "CREAM";
        word "OINTMENT"; word "DROPS"]) p s p' s' ↔
  ∃ u, s = u ++ s' ∧ Str.upper u ∈ human_keywords
    ∧ p' = from_option Some p (list.last u).
Proof.
  cbn [alts steps]. rewrite !steps_word. unfold human_keywords.
  rewrite !fmap_cons, fmap_nil.
  split.
  - intros [H|[H|[H|[H|[H|[H|H]]]]]]; destruct H as (u & -> & Hu & ->);
      exists u; (split_and!; [done| |done]); rewrite Hu;
      change (Str.upper (lit ?w)) with (lit w); set_solver.
  - intros (u & -> & Hu & ->).
    rewrite !elem_of_cons, elem_of_nil in Hu.
    destruct Hu as [Hu|[Hu|[Hu|[Hu|[Hu|[Hu|[Hu|[]]]]]]]];
      [left|right; left|do 2 right; left|do 3 right; left|do 4 right; left
      |do 5 right; left|do 6 right];
      by exists u.
Qed.

(** A character that [upper] sends to a capital letter is a letter. *)
Lemma upper_letter_is_word (c : ascii) :
  Char.is_upper (Char.upper c) = true → Char.is_word c = true.
Proof. destruct c as [[] [] [] [] [] [] [] []]; by vm_compute. Qed.

(** A keyword, in any letter case, begins and ends with a letter. *)
Lemma keyword_ends (u : str) :
  Str.upper u ∈ human_keywords →
  word_at (head u) = true ∧ word_at (list.last u) = true.
Proof.
  unfold human_keywords. rewrite !fmap_cons, fmap_nil, !elem_of_cons, elem_of_nil.
  assert (Forall (λ c, Char.is_upper (Char.upper c) = true) u → u ≠ [] →
          word_at (head u) = true ∧ word_at (list.last u) = true) as H.
  { intros Hall Hne. split.
    - destruct u as [|c u]; [done|]. simpl. apply upper_letter_is_word.
      by apply Forall_cons in Hall as [? _].
    - destruct (list.last u) as [c|] eqn:E; [|by apply last_None in E].
      simpl. apply upper_letter_is_word.
      apply last_Some in E as [u' ->]. apply Forall_app in Hall as [_ Hall].
      by apply Forall_cons in Hall as [? _]. }
  intros Hu. apply H.
  - assert (Forall (λ c, Char.is_upper c = true) (Char.upper <$> u)) as Hall.
    { change (Char.upper <$> u) with (Str.upper u).
      destruct Hu as [->|[->|[->|[->|[->|[->|[->|[]]]]]]]]; by repeat constructor. }
    by rewrite Forall_fmap in Hall.
  - intros ->. destruct Hu as [Hu|[Hu|[Hu|[Hu|[Hu|[Hu|[Hu|[]]]]]]]]; done.
Qed.

Lemma xorb_true_r_false (b : bool) : xorb b true = true ↔ b = false.
Proof. by destruct b. Qed.
Lemma xorb_true_l_false (b : bool) : xorb true b = true ↔ b = false.
Proof. by destruct b. Qed.

(** X8. The human-use test of line 51 accepts exactly the names in which
    one of the seven dosage-form words, in any letter case, stands as a
    whole word; a longer word that only contains one, like the plural
    "TABLETS", does not count. *)
Theorem human_indicators_whole_word (s : str) :
  Re.search true human_indicators s = true ↔ human_use s.
Proof.
  rewrite search_spec. unfold human_indicators, human_use, whole_word_in.
  cbn [steps]. setoid_rewrite steps_keywords. split.
  - intros (pre & rest & p' & s' & -> & p1 & s1 & (Hb1 & -> & ->)
              & p2 & s2 & (u & -> & Hu & ->) & Hb2 & _ & _).
    destruct (keyword_ends u Hu) as [Hh Hl].
    exists u. split; [done|]. exists pre, s2. split_and!; [done| |].
    + destruct u as [|c u]; [done|]. simpl in Hb1, Hh. rewrite Hh in Hb1.
      by apply xorb_true_r_false in Hb1.
    + destruct (list.last u) as [c|] eqn:E; [|done]. simpl in Hb2, Hl.
      rewrite Hl in Hb2. by apply xorb_true_l_false in Hb2.
  - intros (u & Hu & pre & post & -> & Hpre & Hpost).
    destruct (keyword_ends u Hu) as [Hh Hl].
    exists pre, (u ++ post), (list.last u), post. split; [done|].
    exists (list.last pre), (u ++ post). split.
    { split_and!; [|done..]. rewrite Hpre.
      destruct u as [|c u]; [done|]. simpl in *. by rewrite Hh. }
    exists (list.last u), post. split.
    { exists u. split_and!; [done..|]. by destruct (list.last u). }
    split_and!; [|done..]. by rewrite Hl, Hpost.
Qed.

End HumanFilter.

(** ** More on the normaliser *)

Section NormalizeProperties.
Variable parse_number : str → option Qc.

Local Abbreviation coerced := (Spec.coerced parse_number).
Local Abbreviation usd_unusable := (Spec.usd_unusable parse_number).
Local Abbreviation usd_usable := (Spec.usd_usable parse_number).

(** Coercion leaves a column of numbers as it is. *)
Lemma coerced_all_numbers (s : Series) : all_numbers s → coerced s = s.
Proof.
  intros [l ->]. unfold Spec.coerced, Pd.fillna. cbn. f_equal.
  rewrite <- list_fmap_compose. by apply list_fmap_ext.
Qed.

Lemma coerced_len (s : Series) : Pd.len (coerced s) = Pd.len s.
Proof.
  unfold Spec.coerced, Pd.fillna. destruct s as [l|l]; cbn; by rewrite !length_fmap.
Qed.

Lemma numeric_cleanup_fixed (df : DataFrame) :
  (∀ c s, c ∈ numeric_cols → df !! c = Some s → all_numbers s) →
  numeric_cleanup parse_number df = df.
Proof.
  intros H. apply map_eq. intros c. rewrite numeric_cleanup_lookup.
  destruct (decide (c ∈ numeric_cols)) as [Hc|Hc]; [|done].
  destruct (df !! c) as [s|] eqn:E; [|done]. cbn.
  by rewrite (coerced_all_numbers s (H c s Hc E)).
Qed.

Lemma numeric_cleanup_all_numbers (df : DataFrame) (c : string) (s : Series) :
  c ∈ numeric_cols → numeric_cleanup parse_number df !! c = Some s → all_numbers s.
Proof.
  intros Hc. rewrite numeric_cleanup_numeric by done.
  destruct (df !! c) as [s0|]; [|done]. intros [= <-]. apply coerced_numbers.
Qed.

(** X6. Normalising a normalised table changes nothing: once it has
    succeeded, a second pass over its result succeeds and returns that
    same table. *)
Theorem normalize_idempotent (df df' : DataFrame) :
  normalize parse_number df = Ok df' → normalize parse_number df' = Ok df'.
Proof.
  intros Hn.
  destruct (normalize_cases parse_number df)
    as [[Hu Hn']|[(_ & _ & Hn')|(_ & s1 & inr & Hs1 & Hc1 & Hn')]];
    rewrite Hn' in Hn; [|done|]; injection Hn as <-.
  - assert (numeric_cleanup parse_number (numeric_cleanup parse_number df)
            = numeric_cleanup parse_number df) as Hfix.
    { apply numeric_cleanup_fixed. intros c s. apply numeric_cleanup_all_numbers. }
    rewrite <- Hfix at 2. apply normalize_usable.
    destruct Hu as (s & t & Hs & Ht & Hne).
    exists (coerced s), t. split_and!; [|by rewrite coerced_all_numbers by apply coerced_numbers|done].
    by rewrite (numeric_cleanup_numeric _ _ _ numeric_cols_usd), Hs.
  - set (usd := Float64 ((λ x, Some (x * inr_usd_rate)%Qc) <$> inr)).
    set (df' := <["FOB (USD)" := usd]> (numeric_cleanup parse_number df)).
    assert (numeric_cleanup parse_number df' = df') as Hfix.
    { apply numeric_cleanup_fixed. intros c s Hc. unfold df'.
      destruct (decide (c = "FOB (USD)")) as [->|Hne].
      - rewrite lookup_insert_eq. intros [= <-].
        exists ((λ x, (x * inr_usd_rate)%Qc) <$> inr). unfold usd.
        by rewrite <- list_fmap_compose.
      - rewrite lookup_insert_ne by done. by apply numeric_cleanup_all_numbers. }
    assert (fill_usd df' = Ok df') as Hfill.
    { rewrite (fill_usd_present df' inr).
      - unfold df'. by rewrite insert_insert_eq.
      - unfold df'. rewrite lookup_insert_ne by done.
        by rewrite (numeric_cleanup_numeric _ _ _ numeric_cols_inr), Hs1, <- Hc1. }
    unfold normalize. rewrite Hfix, fob_usd_fallback_cases.
    unfold df' at 1. rewrite lookup_insert_eq. cbn [Pd.sum usd].
    by case_bool_decide.
Qed.

Lemma numeric_cleanup_len (df : DataFrame) (c : string) :
  Pd.len <$> numeric_cleanup parse_number df !! c = Pd.len <$> df !! c.
Proof.
  rewrite numeric_cleanup_lookup. case_decide; [|done].
  destruct (df !! c) as [s|]; [|done].
  change (Some (Pd.len (coerced s)) = Some (Pd.len s)). by rewrite coerced_len.
Qed.

(** Normalisation keeps the number of rows of every column but
    FOB (USD), which it may replace. *)
Lemma normalize_len (df df' : DataFrame) (c : string) :
  normalize parse_number df = Ok df' → c ≠ "FOB (USD)" →
  Pd.len <$> df' !! c = Pd.len <$> df !! c.
Proof.
  intros Hn Hc.
  destruct (normalize_cases parse_number df)
    as [[Hu Hn']|[(_ & _ & Hn')|(Hu & s1 & inr & Hs1 & Hc1 & Hn')]];
    rewrite Hn' in Hn; [|done|]; injection Hn as <-.
  - apply numeric_cleanup_len.
  - rewrite lookup_insert_ne by done. apply numeric_cleanup_len.
Qed.

(** X7. Normalisation keeps the shape of the table: the columns other
    than the four numeric ones are not touched; every column other than
    FOB (USD) is there afterwards exactly when it was there before, and
    with the same number of rows; the result has a FOB (USD) column,
    which, where the table had none, has as many rows as FOB (INR). *)
Theorem normalize_keeps_shape (df df' : DataFrame) :
  normalize parse_number df = Ok df' →
  (∀ c, c ∉ numeric_cols → df' !! c = df !! c)
  ∧ (∀ c, c ≠ "FOB (USD)" → Pd.len <$> df' !! c = Pd.len <$> df !! c)
  ∧ is_Some (df' !! "FOB (USD)")
  ∧ (df !! "FOB (USD)" = None →
     Pd.len <$> df' !! "FOB (USD)" = Pd.len <$> df !! "FOB (INR)").
Proof.
  intros Hn. pose proof (normalize_len df df') as Hlen.
  destruct (normalize_cases parse_number df)
    as [[Hu Hn']|[(_ & _ & Hn')|(Hu & s1 & inr & Hs1 & Hc1 & Hn')]];
    rewrite Hn' in Hn; [|done|]; injection Hn as <-.
  - destruct Hu as (s & t & Hs & _ & _). split_and!.
    + intros c Hc. by apply numeric_cleanup_other.
    + intros c Hc. by apply Hlen.
    + rewrite (numeric_cleanup_numeric _ _ _ numeric_cols_usd), Hs. by eexists.
    + congruence.
  - split_and!.
    + intros c Hc. rewrite lookup_insert_ne; [by apply numeric_cleanup_other|].
      intros <-. apply Hc, numeric_cols_usd.
    + intros c Hc. by apply Hlen.
    + rewrite lookup_insert_eq. by eexists.
    + intros _. rewrite lookup_insert_eq, Hs1.
      change (Some (length ((λ x, Some (x * inr_usd_rate)%Qc) <$> inr)) = Some (Pd.len s1)).
      rewrite <- (coerced_len s1), Hc1. cbn. by rewrite !length_fmap.
Qed.

End NormalizeProperties.

(** ** Lines 46-57 as one mask *)

Module MaskFacts.
Import ListFacts FrameFacts.

Lemma select_fmap {A B} (f : A → B) (m : list bool) (l : list A) :
  select m (f <$> l) = f <$> select m l.
Proof.
  revert l. induction m as [|b m IH]; intros [|x l]; simpl; try done.
  destruct b; simpl; by rewrite IH.
Qed.

Lemma select_nil_r {A} (m : list bool) : select m ([] : list A) = [].
Proof. by destruct m. Qed.

(** Two masks in a row are one mask. *)
Lemma select_select {A B} (p q : A → bool) (l : list A) (k : list B) :
  select (q <$> select (p <$> l) l) (select (p <$> l) k)
  = select ((λ x, p x && q x) <$> l) k.
Proof.
  revert k. induction l as [|x l IH]; intros k; simpl; [done|].
  destruct k as [|y k]; simpl.
  - by rewrite !select_nil_r.
  - destruct (p x); simpl; [|apply IH].
    destruct (q x); simpl; by rewrite IH.
Qed.

Lemma mask_series_mask_series {A} (p q : A → bool) (l : list A) (s : Series) :
  Pd.mask_series (q <$> select (p <$> l) l) (Pd.mask_series (p <$> l) s)
  = Pd.mask_series ((λ x, p x && q x) <$> l) s.
Proof. destruct s; simpl; by rewrite select_select. Qed.

Lemma select_none {A B} (p : A → bool) (l : list A) (k : list B) :
  Forall (λ x, p x = false) l → select (p <$> l) k = [].
Proof.
  intros H. revert k. induction H as [|x l Hx _ IH]; intros [|y k]; simpl; try done.
  rewrite Hx. apply IH.
Qed.

Lemma select_some {A B} (p : A → bool) (l : list A) (k : list B) :
  length k = length l → select (p <$> l) k = [] → Forall (λ x, p x = false) l.
Proof.
  revert k. induction l as [|x l IH]; intros [|y k]; simpl; try done.
  intros [= Hlen]. destruct (p x) eqn:E; [done|]. intros H. constructor; eauto.
Qed.

End MaskFacts.

Section PrepareRows.
Import ListFacts FrameFacts MaskFacts.
Variable parse_number : str → option Qc.
Variable str_of_number : Qc → str.

Lemma some_inj_decide (x y : str) :
  bool_decide (Some x = Some y) = bool_decide (x = y).
Proof. apply bool_decide_ext. naive_solver. Qed.

Lemma some_ne_decide (x y : str) :
  bool_decide (Some x ≠ Some y) = negb (bool_decide (x = y)).
Proof. rewrite <- some_inj_decide. apply bool_decide_not. Qed.

Lemma prepare_rows (df ndf : DataFrame) (names : list (option str)) (api_filter : str) :
  normalize parse_number df = Ok ndf →
  ndf !! "Product Name" = Some (Object names) →
  let mask := keeps_row api_filter <$> names in
  ∃ fdf, prepare parse_number str_of_number df api_filter = Ok fdf
    ∧ fdf !! "API" = Some (Object ((λ n : option str, extract_api <$> n) <$> select mask names))
    ∧ ∀ c, c ≠ "API" → fdf !! c = Pd.mask_series mask <$> ndf !! c.
Proof.
  intros Hn Hnames mask. unfold prepare. rewrite Hn. cbn [bind].
  unfold add_api, Pd.getitem. rewrite Hnames. cbn [bind str_cells].
  set (cell := λ c : option str, match c with Some x => x | None => lit "nan" end).
  rewrite <- list_fmap_compose.
  set (api_of := (λ name, Some (extract_api name)) ∘ cell).
  set (adf := <["API" := Object (api_of <$> names)]> ndf).
  unfold valid_df, Pd.getitem. unfold adf at 1. rewrite lookup_insert_eq. cbn [bind Pd.ne].
  rewrite <- list_fmap_compose.
  set (p1 := (λ c : option str, bool_decide (c ≠ Some INVALID)) ∘ api_of).
  unfold human_df, Pd.getitem.
  rewrite mask_rows_lookup. unfold adf at 1. rewrite lookup_insert_ne by done.
  rewrite Hnames. cbn [fmap option_fmap option_map Pd.mask_series bind Pd.str_contains Pd.str_accessor].
  set (q := λ c : option str,
         match c with Some x => Re.search true human_indicators x | None => false end).
  set (m2 := q <$> select (p1 <$> names) names).
  set (hdf := Pd.mask_rows m2 (Pd.mask_rows (p1 <$> names) adf)).
  assert (∀ c, hdf !! c = Pd.mask_series ((λ x, p1 x && q x) <$> names) <$> adf !! c) as Hh.
  { intros c. unfold hdf. rewrite !mask_rows_lookup.
    destruct (adf !! c) as [s|]; [|done]. cbn. f_equal. apply mask_series_mask_series. }
  assert (∀ n, p1 n && q n = true → api_of n = extract_api <$> n) as Hcell.
  { intros [s|]; [done|]. by rewrite andb_false_r. }
  assert (∀ (p : option str → bool) (l : list (option str)),
            (∀ n, p n = true → api_of n = extract_api <$> n) →
            select (p <$> l) (api_of <$> l)
            = (λ n : option str, extract_api <$> n) <$> select (p <$> l) l) as Hsel.
  { intros p l Hp. induction l as [|n l IH]; [done|]. cbn.
    destruct (p n) eqn:E; [|done]. cbn. by rewrite IH, (Hp n E). }
  set (r := λ n : option str, bool_decide (api_of n = Some api_filter)).
  assert (∀ n, keeps_row api_filter n
               = p1 n && q n && (bool_decide (api_filter = lit "All") || r n)) as Hkeep.
  { intros [s|]; [|done]. unfold keeps_row, p1, r, api_of, cell, q. cbn [compose].
    by rewrite some_ne_decide, some_inj_decide. }
  unfold filtered_df. case_bool_decide as Hall.
  - exists hdf. split; [done|].
    assert (mask = (λ x, p1 x && q x) <$> names) as ->.
    { unfold mask. apply list_fmap_ext. intros _ n _. rewrite Hkeep.
      by rewrite orb_true_l, andb_true_r. }
    split.
    + rewrite Hh. unfold adf. rewrite lookup_insert_eq. cbn [fmap option_fmap option_map Pd.mask_series].
      by rewrite Hsel.
    + intros c Hc. rewrite Hh. unfold adf. by rewrite lookup_insert_ne.
  - assert (hdf !! "API" = Some (Object (api_of <$> select ((λ x, p1 x && q x) <$> names) names)))
      as Hapi.
    { rewrite Hh. unfold adf. rewrite lookup_insert_eq.
      cbn [fmap option_fmap option_map Pd.mask_series]. by rewrite select_fmap. }
    unfold Pd.getitem. rewrite Hapi. cbn [bind Pd.eq]. eexists. split; [done|].
    rewrite <- list_fmap_compose.
    assert (mask = (λ x, (p1 x && q x) && r x) <$> names) as ->.
    { unfold mask. apply list_fmap_ext. intros _ n _. rewrite Hkeep.
      by rewrite orb_false_l. }
    assert (∀ s, Pd.mask_series
                   (((λ c : option str, bool_decide (c = Some api_filter)) ∘ api_of)
                      <$> select ((λ x, p1 x && q x) <$> names) names)
                   (Pd.mask_series ((λ x, p1 x && q x) <$> names) s)
                 = Pd.mask_series ((λ x, (p1 x && q x) && r x) <$> names) s) as Hm.
    { intros s. apply (mask_series_mask_series (λ x, p1 x && q x) r). }
    split.
    + rewrite mask_rows_lookup, Hh. unfold adf. rewrite lookup_insert_eq.
      cbn [fmap option_fmap option_map]. rewrite Hm.
      cbn [Pd.mask_series]. rewrite Hsel; [done|].
      intros n Hn'. apply Hcell. by apply andb_true_iff in Hn' as [? _].
    + intros c Hc. rewrite mask_rows_lookup, Hh. unfold adf. rewrite lookup_insert_ne by done.
      destruct (ndf !! c) as [s|]; [|done]. cbn [fmap option_fmap option_map].
      by rewrite Hm.
Qed.

End PrepareRows.

(** ** How a run ends *)

Section RunProperties.
Import ListFacts FrameFacts AnalysisFacts ReportFacts MaskFacts.
Variable parse_number : str → option Qc.
Variable str_of_number : Qc → str.

Lemma product_name_not_numeric : "Product Name" ∉ numeric_cols.
Proof. unfold numeric_cols. set_solver. Qed.

(** X9. On a table that normalises and whose Product Name column is
    text, lines 46-57 raise nothing, and the three filters of lines 47,
    51 and 57 amount to one mask over the rows, read off the product
    name alone ([keeps_row]): every column of the filtered frame is
    the normalised column under that mask, the rows in their order,
    and the API column holds the tokens of the names that are kept. *)
Theorem prepare_is_one_mask (df ndf : DataFrame) (names : list (option str))
    (api_filter : str) :
  normalize parse_number df = Ok ndf →
  df !! "Product Name" = Some (Object names) →
  ∃ fdf, prepare parse_number str_of_number df api_filter = Ok fdf
    ∧ fdf !! "Product Name" = Some (Object (select (keeps_row api_filter <$> names) names))
    ∧ fdf !! "API"
      = Some (Object ((λ n : option str, extract_api <$> n)
                        <$> select (keeps_row api_filter <$> names) names))
    ∧ ∀ c, c ≠ "API" →
        fdf !! c = Pd.mask_series (keeps_row api_filter <$> names) <$> ndf !! c.
Proof.
  intros Hn Hnames.
  assert (ndf !! "Product Name" = Some (Object names)) as Hnames'.
  { destruct (normalize_dtypes _ _ _ Hn) as (_ & _ & Hother).
    by rewrite (Hother _ product_name_not_numeric). }
  destruct (prepare_rows parse_number str_of_number df ndf names api_filter Hn Hnames')
    as (fdf & Hp & Hapi & Hcols).
  exists fdf. split_and!; [done| |done..].
  by rewrite (Hcols "Product Name"), Hnames'.
Qed.

(** X10. On a table that normalises and whose Product Name column is
    text, the run ends with the no-data warning exactly when no row
    passes the three filters; it does so whichever other columns are
    missing, since nothing past line 60 is evaluated. *)
Theorem warning_iff_no_row_kept (df : DataFrame) (names : list (option str))
    (api_filter : str) :
  is_Ok (normalize parse_number df) →
  df !! "Product Name" = Some (Object names) →
  run parse_number str_of_number df api_filter = Warning no_data
  ↔ Forall (λ n, keeps_row api_filter n = false) names.
Proof.
  intros [ndf Hn] Hnames.
  assert (ndf !! "Product Name" = Some (Object names)) as Hnames'.
  { destruct (normalize_dtypes _ _ _ Hn) as (_ & _ & Hother).
    by rewrite (Hother _ product_name_not_numeric). }
  destruct (prepare_rows parse_number str_of_number df ndf names api_filter Hn Hnames')
    as (fdf & Hp & Hapi & _).
  unfold run. rewrite Hp. unfold shape0. rewrite Hapi. cbn [Pd.len].
  rewrite length_fmap. split.
  - intros H. destruct (Nat.eqb_spec (length (select (keeps_row api_filter <$> names) names)) 0)
      as [H0|H0]; [|by destruct (analysis_data fdf)].
    apply nil_length_inv in H0. by apply select_some in H0.
  - intros H. by rewrite (select_none _ _ _ H).
Qed.

(** X11. A Product Name column of numeric dtype (a column of numbers, or
    an empty one) stops the run at line 51 with an uncaught
    AttributeError: line 46 goes through [str], but the [.str]
    accessor of line 51 exists on text columns only. *)
Theorem numeric_product_name_raises (df : DataFrame) (cells : list (option Qc))
    (api_filter : str) :
  is_Ok (normalize parse_number df) →
  df !! "Product Name" = Some (Float64 cells) →
  run parse_number str_of_number df api_filter = Uncaught AttributeError.
Proof.
  intros [ndf Hn] Hnames.
  assert (ndf !! "Product Name" = Some (Float64 cells)) as Hnames'.
  { destruct (normalize_dtypes _ _ _ Hn) as (_ & _ & Hother).
    by rewrite (Hother _ product_name_not_numeric). }
  unfold run, prepare. rewrite Hn. cbn [bind].
  unfold add_api, Pd.getitem. rewrite Hnames'. cbn [bind].
  unfold valid_df, Pd.getitem. rewrite lookup_insert_eq. cbn [bind].
  unfold human_df, Pd.getitem.
  rewrite mask_rows_lookup, lookup_insert_ne, Hnames' by done. done.
Qed.

(** The record of an API of a frame whose Unit column is numeric. *)
Lemma analyse_numeric_unit (fdf : DataFrame) names apis qty us (api : str) :
  fdf !! "Product Name" = Some (Object names) →
  fdf !! "API" = Some (Object apis) →
  Forall2 valid_row names apis →
  fdf !! "Quantity" = Some (Float64 qty) →
  fdf !! "Unit" = Some (Float64 us) →
  Some api ∈ apis →
  analyse fdf api = Raise (numeric_unit_error fdf api).
Proof.
  intros Hnames Hapis Hrows Hqty Hus Hin.
  unfold numeric_unit_error, unit_numbers, api_df, analyse, Pd.getitem.
  rewrite Hapis. cbn [bind].
  pose (rows := Pd.eq (Object apis) api).
  change (Pd.eq (Object apis) api) with rows.
  rewrite (mask_rows_object rows _ _ _ Hnames). cbn [bind Pd.str_extractall Pd.str_accessor].
  rewrite (mask_rows_float rows _ _ _ Hus). cbn [bind Pd.str_split_first Pd.str_accessor].
  destruct (first_mode_total _ (group_has_first_word names apis Hrows api Hin))
    as [category Hcat].
  fold rows in Hcat. rewrite Hcat. cbn [bind].
  rewrite (mask_rows_float rows _ _ _ Hqty). cbn [bind Pd.sum].
  rewrite py_div_count. cbn [bind].
  unfold Pd.value_counts_index. cbn [Pd.values].
  set (vs := omap id (select rows us)).
  destruct vs as [|v vs'] eqn:E; [done|].
  set (shown := take 3 _).
  assert (shown ≠ [] ∧ Forall (λ x, ∃ q, x = SNum q) shown) as [Hne Hnum].
  { unfold shown. split.
    - intros H%(f_equal length). rewrite length_take, sort_by_length in H.
      cbn in H. lia.
    - apply Forall_take, Forall_forall. intros x Hx.
      rewrite elem_of_sort_by, elem_of_unique in Hx.
      apply list_elem_of_fmap in Hx as (q & -> & _). by exists q. }
  destruct shown as [|x xs]; [done|].
  apply Forall_cons in Hnum as [[q ->] _]. done.
Qed.

(** X12. A Unit column of numeric dtype stops every run that reaches the
    analysis. Without a Quantity column the run ends with KeyError in
    [groupby], as it does whatever the Unit column is. With one, the
    record of every API raises: TypeError at line 86, where the unit
    values are joined as text, when a row of the API has a unit value,
    and AttributeError at line 87 when none has; the run ends with the
    error of the API that the ranking puts first. *)
Theorem numeric_unit_raises (df fdf : DataFrame) (units : list (option Qc))
    (api_filter : str) :
  prepare parse_number str_of_number df api_filter = Ok fdf →
  shape0 fdf ≠ 0 →
  df !! "Unit" = Some (Float64 units) →
  match df !! "Quantity" with
  | None => run parse_number str_of_number df api_filter = Uncaught (KeyError "Quantity")
  | Some _ =>
      (∀ api, api ∈ api_tokens fdf →
         analyse fdf api = Raise (numeric_unit_error fdf api))
      ∧ ∃ api tops, top_apis fdf = Ok (api :: tops)
          ∧ api ∈ api_tokens fdf
          ∧ run parse_number str_of_number df api_filter
            = Uncaught (numeric_unit_error fdf api)
  end.
Proof.
  intros Hp Hne Hunit.
  rewrite (run_prepared _ _ _ _ _ Hp Hne).
  destruct (prepare_Ok _ _ _ _ _ Hp)
    as (ndf & Hn & _ & (names & apis & Hnames & Hapis & Hrows) & Hdt).
  destruct (normalize_dtypes _ _ _ Hn) as (Hfob & Hqty & Hother).
  destruct (is_float_true (fdf !! "FOB (USD)")) as [fob Hfob'].
  { by rewrite Hdt. }
  destruct (df !! "Quantity") as [q0|] eqn:Hq0.
  - destruct (is_float_true (fdf !! "Quantity")) as [qty Hqty'].
    { rewrite Hdt by done. by rewrite Hqty. }
    destruct (is_float_true (fdf !! "Unit")) as [us Hus].
    { rewrite Hdt by done. rewrite Hother, Hunit; [done|].
      unfold numeric_cols. set_solver. }
    assert (∀ api, api ∈ api_tokens fdf → Some api ∈ apis) as Htok.
    { intros api. unfold api_tokens. rewrite Hapis.
      intros (o & Ho & Hid)%list_elem_of_omap. simpl in Hid. by subst o. }
    assert (∀ api, Some api ∈ apis → api ∈ api_tokens fdf) as Htok'.
    { intros api Hin. unfold api_tokens. rewrite Hapis.
      apply list_elem_of_omap. by exists (Some api). }
    split.
    + intros api Hin%Htok. by eapply analyse_numeric_unit.
    + destruct (first_top_api fdf names apis qty fob Hapis Hrows Hqty' Hfob' Hne)
        as (a & tops & Ht & Hin).
      exists a, tops. split_and!; [done|by apply Htok'|].
      unfold analysis_data. rewrite Ht. cbn [bind traverse].
      by rewrite (analyse_numeric_unit fdf names apis qty us a).
  - assert (fdf !! "Quantity" = None) as Hqty'.
    { specialize (Hdt "Quantity" ltac:(done)). rewrite Hqty in Hdt.
      by destruct (fdf !! "Quantity"). }
    unfold analysis_data, top_apis, groupby_agg, Pd.getitem.
    rewrite Hapis, Hqty'. done.
Qed.

End RunProperties.

(** ** The ranking (lines 61-64) *)

Module SortFacts.
Import ListFacts.

Section Stable.
Context {A : Type} (leb : A → A → bool) (R2 : A → A → Prop).
Hypothesis leb_total : ∀ x y, leb x y = true ∨ leb y x = true.
Hypothesis leb_trans : ∀ x y z, leb x y = true → leb y z = true → leb x z = true.

Lemma insert_by_stable x l :
  StronglySorted (stable_order leb R2) l → Forall (R2 x) l →
  StronglySorted (stable_order leb R2) (insert_by leb x l).
Proof.
  intros Hs Hx. induction Hs as [|y l Hs IH Hy]; simpl.
  - by repeat constructor.
  - apply Forall_cons in Hx as [Hxy Hxl].
    destruct (leb x y) eqn:E.
    + constructor; [by constructor|]. constructor; [by split|].
      rewrite Forall_forall in Hy, Hxl. apply Forall_forall. intros z Hz. split.
      * eapply leb_trans; [exact E|]. by apply Hy.
      * intros _. by apply Hxl.
    + constructor; [by apply IH|].
      apply Forall_forall. intros z Hz.
      apply elem_of_Permutation_proper with (y := x :: l) in Hz; [|apply insert_by_perm].
      apply elem_of_cons in Hz as [->|Hz].
      * split; [|congruence]. destruct (leb_total x y); congruence.
      * rewrite Forall_forall in Hy. by apply Hy.
Qed.

(** [sort_by] is a stable sort. *)
Lemma sort_by_stable l :
  StronglySorted R2 l → StronglySorted (stable_order leb R2) (sort_by leb l).
Proof.
  induction 1 as [|x l _ IH Hx]; [constructor|].
  change (sort_by leb (x :: l)) with (insert_by leb x (sort_by leb l)).
  apply insert_by_stable; [done|].
  by rewrite sort_by_perm.
Qed.
End Stable.

Lemma StronglySorted_any {A} (l : list A) : StronglySorted (λ _ _, True) l.
Proof. induction l; constructor; [done|]. by apply Forall_true. Qed.

Lemma sort_by_sorted {A} (leb : A → A → bool) (l : list A) :
  (∀ x y, leb x y = true ∨ leb y x = true) →
  (∀ x y z, leb x y = true → leb y z = true → leb x z = true) →
  StronglySorted (λ x y, leb x y = true) (sort_by leb l).
Proof.
  intros Htot Htrans.
  pose proof (sort_by_stable leb (λ _ _, True) Htot Htrans l (StronglySorted_any l)) as H.
  eapply (StronglySorted_fmap id) in H; [by rewrite list_fmap_id in H|].
  by intros x y [? _].
Qed.

Lemma StronglySorted_lookup {A} (R : A → A → Prop) (l : list A) i j x y :
  StronglySorted R l → (i < j)%nat → l !! i = Some x → l !! j = Some y → R x y.
Proof.
  intros Hs. revert i j. induction Hs as [|z l _ IH Hz]; intros i j Hij Hi Hj; [done|].
  destruct j as [|j]; [lia|]. simpl in Hj.
  destruct i as [|i]; simpl in Hi.
  - injection Hi as ->. rewrite Forall_forall in Hz.
    by eapply Hz, list_elem_of_lookup_2.
  - eapply (IH i j); [lia|done..].
Qed.

End SortFacts.

Module RankingFacts.
Import ListFacts FrameFacts AnalysisFacts ReportFacts SortFacts.

Lemma by_quantity_total (x y : str * Qc * Qc) :
  by_quantity x y = true ∨ by_quantity y x = true.
Proof.
  rewrite !bool_decide_eq_true.
  destruct (Qclt_le_dec x.1.2 y.1.2) as [H|H]; [right; by apply Qclt_le_weak|by left].
Qed.

Lemma by_quantity_trans (x y z : str * Qc * Qc) :
  by_quantity x y = true → by_quantity y z = true → by_quantity x z = true.
Proof. rewrite !bool_decide_eq_true. intros H1 H2. by eapply Qcle_trans. Qed.

Lemma elem_of_nlargest n groups g : g ∈ nlargest n groups → g ∈ groups.
Proof.
  unfold nlargest. intros (i & Hi & _)%elem_of_take.
  by apply list_elem_of_lookup_2, elem_of_sort_by in Hi.
Qed.

(** Each row of the grouped frame holds the total of its group. *)
Lemma groupby_agg_quantity (filtered : DataFrame) groups :
  groupby_agg filtered = Ok groups →
  Forall (λ g, group_quantity filtered g.1.1 = Ok g.1.2) groups.
Proof.
  unfold groupby_agg, group_quantity, api_df, column_sum. intros H.
  apply bind_Ok in H as (api & Hapi & H). rewrite Hapi. cbn [bind].
  apply bind_Ok in H as (keys & _ & H).
  apply bind_Ok in H as (qty & Hqty%getitem_Ok & H).
  apply bind_Ok in H as (fob & _ & H).
  apply traverse_Ok in H.
  induction H as [|k g ks gs Hg _ IH]; constructor; [|done].
  apply bind_Ok in Hg as (tq & Htq & Hg). apply bind_Ok in Hg as (tf & _ & [= <-]). cbn.
  unfold Pd.getitem. by rewrite (mask_rows_lookup _ _ "Quantity"), Hqty.
Qed.

(** The records of the report are the first five rows of the grouped
    frame sorted by total quantity, in that order. *)
Lemma analysis_data_nlargest (filtered : DataFrame) records :
  analysis_data filtered = Ok records →
  ∃ groups, groupby_agg filtered = Ok groups
    ∧ Forall2 (λ g r, API r = g.1.1 ∧ Total_Shipments r = g.1.2
                      ∧ analyse filtered g.1.1 = Ok r)
        (nlargest 5 groups) records.
Proof.
  unfold analysis_data, top_apis. intros H.
  apply bind_Ok in H as (tops & Ht & H).
  apply bind_Ok in Ht as (groups & Hg & [= <-]).
  exists groups. split; [done|].
  pose proof (groupby_agg_quantity _ _ Hg) as Hq. rewrite Forall_forall in Hq.
  apply traverse_Ok, Forall2_fmap_l in H.
  assert (Forall (λ g, g ∈ groups) (nlargest 5 groups)) as Hin.
  { apply Forall_forall. intros g. apply elem_of_nlargest. }
  induction H as [|g r gs rs Hr _ IH]; [constructor|].
  apply Forall_cons in Hin as [Hg1 Hin]. constructor; [|by apply IH].
  pose proof (analyse_inv _ _ _ Hr)
    as (group & ? & ? & total & ? & Hgr & _ & _ & _ & Hsum & _ & Hapi & _ & Htot & _).
  split_and!; [done| |done].
  specialize (Hq g Hg1). unfold group_quantity in Hq. cbn in Hgr. rewrite Hgr in Hq.
  cbn [bind] in Hq. congruence.
Qed.

End RankingFacts.

Module RankingTheorems.
Import ListFacts FrameFacts AnalysisFacts ReportFacts SortFacts RankingFacts.

Lemma StronglySorted_fmap_inv {A B} (f : A → B) (R : B → B → Prop) (l : list A) :
  StronglySorted R (f <$> l) → StronglySorted (λ x y, R (f x) (f y)) l.
Proof.
  induction l as [|x l IH]; [constructor|]. rewrite fmap_cons.
  intros [Hx Hs]%StronglySorted_cons. constructor; [by apply IH|].
  by rewrite Forall_fmap in Hx.
Qed.

(** The rows behind a report: the grouped frame, sorted by total
    quantity with ties in key order, of which the report shows the
    first five. *)
Lemma report_order (filtered : DataFrame) records :
  analysis_data filtered = Ok records →
  ∃ sorted,
    StronglySorted (stable_order by_quantity by_key) sorted
    ∧ Forall2 (λ g r, API r = g.1.1 ∧ Total_Shipments r = g.1.2
                      ∧ analyse filtered g.1.1 = Ok r) (take 5 sorted) records
    ∧ (λ g : str * Qc * Qc, g.1.1) <$> sorted ≡ₚ unique (api_tokens filtered)
    ∧ Forall (λ g, group_quantity filtered g.1.1 = Ok g.1.2) sorted.
Proof.
  intros (groups & Hg & Hrec)%analysis_data_nlargest.
  exists (sort_by by_quantity groups).
  pose proof (groupby_agg_inv _ _ Hg) as Hkeys.
  split_and!; [|done| |].
  - apply sort_by_stable; [apply by_quantity_total|apply by_quantity_trans|].
    apply (StronglySorted_fmap_inv (λ g : str * Qc * Qc, g.1.1) (λ a b, str_leb a b = true)).
    rewrite Hkeys. apply sort_by_sorted; [apply str_leb_total|apply str_leb_trans].
  - by rewrite sort_by_perm, Hkeys, sort_by_perm.
  - rewrite sort_by_perm. by apply groupby_agg_quantity.
Qed.

Lemma report_row (sorted : list (str * Qc * Qc)) records (P : _ → AnalysisRecord → Prop) i r :
  Forall2 P (take 5 sorted) records → records !! i = Some r →
  ∃ g, sorted !! i = Some g ∧ (i < 5)%nat ∧ P g r.
Proof.
  intros H Hi. destruct (Forall2_lookup_r _ _ _ _ _ H Hi) as (g & Hg & HP).
  apply lookup_take_Some in Hg as [Hg Hlt]. by exists g.
Qed.

Lemma report_left_out (filtered : DataFrame) (sorted : list (str * Qc * Qc)) records a :
  Forall2 (λ g r, API r = g.1.1 ∧ Total_Shipments r = g.1.2
                  ∧ analyse filtered g.1.1 = Ok r) (take 5 sorted) records →
  (λ g : str * Qc * Qc, g.1.1) <$> sorted ≡ₚ unique (api_tokens filtered) →
  a ∈ api_tokens filtered → a ∉ API <$> records →
  ∃ g, g ∈ drop 5 sorted ∧ g.1.1 = a.
Proof.
  intros Hrec Hperm Ha Hout.
  apply elem_of_unique in Ha. rewrite <- Hperm in Ha.
  apply list_elem_of_fmap in Ha as (g & -> & Hg).
  rewrite <- (take_drop 5 sorted) in Hg. apply elem_of_app in Hg as [Hg|Hg]; [|by exists g].
  exfalso. apply Hout.
  apply list_elem_of_lookup in Hg as [i Hi].
  destruct (Forall2_lookup_l _ _ _ _ _ Hrec Hi) as (r & Hr & Hapi & _).
  apply list_elem_of_fmap. exists r. split; [done|]. by eapply list_elem_of_lookup_2.
Qed.

(** X14. On a filtered frame whose quantities add without error (whole
    numbers of total magnitude below 2^53, so that every sum is the
    true sum), the report lists the APIs by descending Total Shipments,
    and an API of the frame that the report leaves out has a total
    quantity no greater than that of any API listed. *)
Theorem report_ranked_by_quantity (filtered : DataFrame) (records : list AnalysisRecord) :
  exact_quantities filtered →
  analysis_data filtered = Ok records →
  (∀ i j ri rj, (i < j)%nat → records !! i = Some ri → records !! j = Some rj →
     (Total_Shipments rj ≤ Total_Shipments ri)%Qc)
  ∧ (∀ a total r, a ∈ api_tokens filtered → a ∉ API <$> records →
       group_quantity filtered a = Ok total → r ∈ records →
       (total ≤ Total_Shipments r)%Qc).
Proof.
  intros _ (sorted & Hs & Hrec & Hperm & Hq)%report_order. split.
  - intros i j ri rj Hij Hi Hj.
    destruct (report_row _ _ _ _ _ Hrec Hi) as (gi & Hgi & _ & _ & -> & _).
    destruct (report_row _ _ _ _ _ Hrec Hj) as (gj & Hgj & _ & _ & -> & _).
    destruct (StronglySorted_lookup _ _ _ _ _ _ Hs Hij Hgi Hgj) as [H _].
    by apply bool_decide_eq_true in H.
  - intros a total r Ha Hout Htotal Hr.
    destruct (report_left_out _ _ _ _ Hrec Hperm Ha Hout) as (g & Hg & <-).
    apply list_elem_of_lookup in Hr as [i Hi].
    destruct (report_row _ _ _ _ _ Hrec Hi) as (g' & Hg' & Hlt & _ & -> & _).
    assert (g' ∈ take 5 sorted) as Hin.
    { apply (list_elem_of_lookup_2 _ i). by apply lookup_take_Some. }
    rewrite <- (take_drop 5 sorted) in Hs.
    destruct (StronglySorted_app_1_elem_of _ _ _ _ _ Hs Hin Hg) as [H _].
    apply bool_decide_eq_true in H.
    rewrite Forall_forall in Hq.
    assert (g ∈ sorted) as Hgs.
    { rewrite <- (take_drop 5 sorted). apply elem_of_app. by right. }
    specialize (Hq g Hgs). congruence.
Qed.


End RankingTheorems.

(** ** The records and the rows *)

Module RecordFacts.
Import ListFacts FrameFacts AnalysisFacts ReportFacts SortFacts RankingFacts RankingTheorems.

Lemma select_length_count `{EqDecision A} (x : A) (l : list A) :
  length (select ((λ c, bool_decide (c = x)) <$> l) l) = count x l.
Proof.
  unfold count. induction l as [|y l IH]; [done|]. rewrite fmap_cons. cbn [select].
  case_bool_decide as E.
  - rewrite filter_cons_True by done. cbn [length]. by rewrite IH.
  - by rewrite filter_cons_False.
Qed.

Lemma count_omap_id `{EqDecision A} (x : A) (l : list (option A)) :
  count x (omap id l) = count (Some x) l.
Proof.
  unfold count. induction l as [|[y|] l IH]; [done| |].
  - change (omap id (Some y :: l)) with (y :: omap id l).
    destruct (decide (y = x)) as [->|Hne].
    + rewrite !filter_cons_True by done. cbn [length]. by rewrite IH.
    + rewrite !filter_cons_False by congruence. exact IH.
  - change (omap id (None :: l)) with (omap id l).
    rewrite filter_cons_False by done. exact IH.
Qed.

(** The number of rows of a group is the number of rows of the frame
    that carry its token. *)
Lemma api_df_shape0 (filtered group : DataFrame) (api : str) :
  api_df filtered api = Ok group →
  shape0 group = count api (api_tokens filtered).
Proof.
  unfold api_df, shape0, api_tokens. intros H.
  apply bind_Ok in H as (col & Hcol%getitem_Ok & [= <-]).
  rewrite mask_rows_lookup, Hcol. destruct col as [l|l]; cbn.
  - by rewrite select_length_count, count_omap_id.
  - clear. unfold count. cbn. induction l as [|c l IH]; [done|]. by cbn.
Qed.

End RecordFacts.

Module RecordInvariants.
Import ListFacts FrameFacts AnalysisFacts ReportFacts SortFacts RankingFacts RankingTheorems RecordFacts.

(** X17. No API is listed twice in the report; the Export Count of a
    record is the number of rows of the filtered frame with that API,
    which is at least 1, so that the guard [max(shape[0], 1)] of line
    85 never replaces the count: Avg Qty/Export is Total Shipments
    divided by Export Count. *)
Theorem report_records_count_rows (filtered : DataFrame) (records : list AnalysisRecord) :
  analysis_data filtered = Ok records →
  NoDup (API <$> records)
  ∧ Forall (λ r,
      Export_Count r = count (API r) (api_tokens filtered)
      ∧ (1 ≤ Export_Count r)%nat
      ∧ Avg_Qty_Export r = (Total_Shipments r / Qc_of_nat (Export_Count r))%Qc) records.
Proof.
  intros Hr. split.
  - destruct (report_order _ _ Hr) as (sorted & _ & Hrec & Hperm & _).
    assert (API <$> records = take 5 ((λ g : str * Qc * Qc, g.1.1) <$> sorted)) as ->.
    { rewrite <- fmap_take. clear -Hrec.
      induction Hrec as [|g r gs rs (Hapi & _) _ IH]; [done|]. cbn. by rewrite Hapi, IH. }
    eapply sublist_NoDup; [|apply sublist_take].
    rewrite Hperm. apply NoDup_unique.
  - apply analysis_data_inv in Hr as [_ Hr].
    eapply Forall_impl; [exact Hr|]. intros r [Hin Han]. cbn beta.
    pose proof (analyse_inv _ _ _ Han)
      as (group & ? & ? & total & ? & Hgr & _ & _ & _ & _ & _ & _ & Hcount & Htot & Havg & _).
    pose proof (api_df_shape0 _ _ _ Hgr) as Hshape.
    assert (1 ≤ count (API r) (api_tokens filtered))%nat as Hpos.
    { apply (count_pos (api_tokens filtered) (API r)) in Hin. lia. }
    rewrite Hcount, Hshape. split_and!; [done..|].
    rewrite Hshape in Havg. rewrite Nat.max_l in Havg by done.
    rewrite py_div_Ok in Havg by (apply Qc_of_nat_nonzero; lia).
    injection Havg as <-. by rewrite Htot.
Qed.

End RecordInvariants.

(** ** The select box (line 55) *)

Module FilterFacts.
Import ListFacts.

Lemma unique_fmap_Some (l : list str) : unique (Some <$> l) = Some <$> unique l.
Proof.
  induction l as [|x l IH]; [done|]. cbn [unique fmap list_fmap]. rewrite IH. f_equal.
  clear. induction (unique l) as [|y k IH]; [done|]. rewrite fmap_cons.
  destruct (decide (y = x)) as [->|Hne].
  - by rewrite !filter_cons_False by naive_solver.
  - rewrite !filter_cons_True by naive_solver. by rewrite fmap_cons, IH.
Qed.

Lemma traverse_texts (l : list str) :
  traverse (λ c : option str,
    match c with Some s => Ok s | None => Raise TypeError end) (Some <$> l) = Ok l.
Proof. induction l as [|x l IH]; [done|]. rewrite fmap_cons. cbn [traverse bind]. by rewrite IH. Qed.

Lemma sorted_unique_texts (l : list str) :
  sorted_unique (Some <$> l) = Ok (Some <$> sort_by str_leb (unique l)).
Proof.
  unfold sorted_unique. rewrite unique_fmap_Some.
  destruct (unique l) as [|x [|y k]]; [done..|].
  change (Some <$> x :: y :: k) with (Some x :: Some y :: (Some <$> k)) at 1.
  cbv iota.
  change (Some x :: Some y :: (Some <$> k)) with (Some <$> x :: y :: k).
  by rewrite traverse_texts.
Qed.

Lemma select_same_spec {A} (p : A → bool) (l : list A) (x : A) :
  x ∈ select (p <$> l) l ↔ x ∈ l ∧ p x = true.
Proof.
  induction l as [|y l IH].
  - cbn. split; [by intros ?%elem_of_nil|by intros [?%elem_of_nil _]].
  - rewrite fmap_cons. cbn [select]. destruct (p y) eqn:E.
    + rewrite !elem_of_cons, IH. split.
      * intros [->|[? ?]]; [by split; [left|]|by split; [right|]].
      * intros [[->|?] ?]; [by left|by right].
    + rewrite elem_of_cons, IH. split.
      * intros [? ?]. by split; [right|].
      * intros [[->|?] ?]; [congruence|done].
Qed.

Lemma all_Some {A} (l : list (option A)) :
  Forall is_Some l → ∃ k, l = Some <$> k.
Proof.
  induction 1 as [|o l [x ->] _ [k ->]]; [by exists []|]. by exists (x :: k).
Qed.

Lemma omap_id_Some {A} (l : list A) : omap id (Some <$> l) = l.
Proof. induction l as [|x l IH]; [done|]. cbn. by rewrite IH. Qed.

Lemma keeps_row_Some (api_filter : str) (n : option str) :
  keeps_row api_filter n = true → is_Some n.
Proof. destruct n; [by eexists|done]. Qed.

End FilterFacts.

Section FilterOptions.
Import ListFacts FrameFacts AnalysisFacts ReportFacts MaskFacts SortFacts ExtractorProperties
  FilterFacts.
Variable parse_number : str → option Qc.
Variable str_of_number : Qc → str.

(** X13. The select box of line 55 offers ["All"] and then the distinct
    API tokens of the human-use rows in string order (each token is
    less than or equal to every token after it), each once; ["All"] is
    not among the tokens, since a token is in upper case; and each
    token offered selects at least one row, so that with an offered
    token the run never ends with the no-data warning. *)
Theorem offered_api_has_rows (df human : DataFrame) :
  prepare parse_number str_of_number df (lit "All") = Ok human →
  ∃ apis tokens,
    human !! "API" = Some (Object apis)
    ∧ filter_options apis = Ok (Some <$> (lit "All" :: tokens))
    ∧ StronglySorted Str.le tokens
    ∧ NoDup (lit "All" :: tokens)
    ∧ (∀ a, a ∈ tokens ↔ a ∈ api_tokens human)
    ∧ ∀ a, a ∈ tokens →
        ∃ fdf, prepare parse_number str_of_number df a = Ok fdf ∧ shape0 fdf ≠ 0.
Proof.
  intros Hp.
  destruct (prepare_Ok _ _ _ _ _ Hp) as (ndf & Hn & Hobj & _ & _).
  apply is_float_false in Hobj as [names Hnames].
  destruct (prepare_rows parse_number str_of_number df ndf names (lit "All") Hn Hnames)
    as (human' & Hp' & Hapi & _).
  rewrite Hp in Hp'. injection Hp' as <-.
  set (kept := select (keeps_row (lit "All") <$> names) names) in *.
  destruct (all_Some kept) as [ks Hks].
  { apply Forall_forall. intros n [_ Hk]%select_same_spec. by eapply keeps_row_Some. }
  assert (human !! "API" = Some (Object (Some <$> (extract_api <$> ks)))) as Hapi'.
  { rewrite Hapi, Hks. by rewrite <- !list_fmap_compose. }
  exists (Some <$> (extract_api <$> ks)), (sort_by str_leb (unique (extract_api <$> ks))).
  assert (∀ a, a ∈ sort_by str_leb (unique (extract_api <$> ks))
            ↔ a ∈ api_tokens human) as Htok.
  { intros a. unfold api_tokens. rewrite Hapi', omap_id_Some.
    by rewrite elem_of_sort_by, elem_of_unique. }
  split_and!; [done| | | |done|].
  - unfold filter_options. by rewrite sorted_unique_texts.
  - pose proof (sort_by_sorted str_leb (unique (extract_api <$> ks))
                  str_leb_total str_leb_trans) as H.
    eapply (StronglySorted_fmap id) in H; [by rewrite list_fmap_id in H|].
    intros a b Hab. by apply str_leb_le.
  - constructor.
    + rewrite elem_of_sort_by, elem_of_unique.
      intros (s & Hs & _)%list_elem_of_fmap. symmetry in Hs. by apply extract_api_not_All in Hs.
    + rewrite sort_by_perm. apply NoDup_unique.
  - intros a Ha. rewrite elem_of_sort_by, elem_of_unique in Ha.
    apply list_elem_of_fmap in Ha as (s & -> & Hs).
    assert (Some s ∈ kept) as Hin by (rewrite Hks; by apply list_elem_of_fmap_2).
    apply select_same_spec in Hin as [Hin Hk].
    destruct (prepare_rows parse_number str_of_number df ndf names (extract_api s) Hn Hnames)
      as (fdf & Hf & Hfapi & _).
    exists fdf. split; [done|]. unfold shape0. rewrite Hfapi. cbn [Pd.len].
    rewrite length_fmap.
    assert (Some s ∈ select (keeps_row (extract_api s) <$> names) names) as Hsel.
    { apply select_same_spec. split; [done|]. cbn in Hk |- *.
      apply andb_true_iff in Hk as [Hk _]. rewrite Hk. cbn.
      rewrite (bool_decide_eq_true_2 (extract_api s = extract_api s)) by done.
      apply orb_true_r. }
    intros H0. apply nil_length_inv in H0. rewrite H0 in Hsel. by apply elem_of_nil in Hsel.
Qed.

End FilterOptions.

(** ** The text fields of a record *)

Module GroupFacts.
Import ListFacts FrameFacts AnalysisFacts ReportFacts SortFacts.

(** The columns of a group that [analyse] reads, and the fields that
    it computes from the text columns and from the units. *)
Lemma analyse_columns (filtered : DataFrame) (api : str) (r : AnalysisRecord) :
  analyse filtered api = Ok r →
  ∃ group names units qty,
    api_df filtered api = Ok group
    ∧ group !! "Product Name" = Some (Object names)
    ∧ group !! "Unit" = Some (Object units)
    ∧ group !! "Quantity" = Some (Float64 qty)
    ∧ (let found := concat ((λ c : option str,
           match c with
           | Some x => Re.findall false strengths_pattern x
           | None => []
           end) <$> names) in
       let strengths := take 3 (unique found) in
       Common_Strengths r =
         if existsb (λ s, negb (bool_decide (s = []))) strengths
         then Str.join (lit ", ") strengths else lit "Standard")
    ∧ (let packaging := take 3 (Pd.value_counts_index (Object units)) in
       match packaging with
       | [] => Ok (lit "Various")
       | _ => join_scalars (lit ", ") packaging
       end = Ok (Packaging_Types r))
    ∧ (let unit_upper := Object ((λ c : option str, Str.upper <$> c) <$> units) in
       Total_Nos r
       = foldr Qcplus 0%Qc (omap id (select (Pd.eq unit_upper (lit "NOS")) qty))
       ∧ Total_Kg r
         = foldr Qcplus 0%Qc
             (omap id (select (Pd.isin unit_upper [lit "KG"; lit "KGS"]) qty)))
    ∧ Total_Shipments r = foldr Qcplus 0%Qc (omap id qty).
Proof.
  unfold analyse, api_df. intros H.
  apply bind_Ok in H as (col & Hcol & H). rewrite Hcol. cbn [bind].
  apply bind_Ok in H as (names & Hnames%getitem_Ok & H).
  apply bind_Ok in H as (found & Hfound & H).
  apply bind_Ok in H as (units & Hunits%getitem_Ok & H).
  apply bind_Ok in H as (first_words & Hfw & H).
  apply bind_Ok in H as (category & Hcat & H).
  apply bind_Ok in H as (qty & Hqty%getitem_Ok & H).
  apply bind_Ok in H as (total & Htotal & H).
  apply bind_Ok in H as (avg_qty & Havg & H).
  apply bind_Ok in H as (packaging & Hpack & H).
  apply bind_Ok in H as (unit_upper & Hupper & H).
  apply bind_Ok in H as (nos & Hnos & H).
  apply bind_Ok in H as (kg & Hkg & H).
  apply bind_Ok in H as (fob & Hfob & H).
  apply bind_Ok in H as (fob_total & Hft & H).
  apply bind_Ok in H as (fob_pack & Hfp & H).
  apply bind_Ok in H as (price_unit & Hprice & [= <-]).
  destruct names as [names|]; [|done].
  destruct units as [units|]; [|done].
  destruct qty as [|qty]; [done|].
  cbn in Hfound, Hupper, Htotal. injection Hfound as <-. injection Hupper as <-.
  injection Htotal as <-. cbn in Hnos, Hkg. injection Hnos as <-. injection Hkg as <-.
  eexists _, names, units, qty. cbn [Common_Strengths Packaging_Types Total_Nos Total_Kg Total_Shipments].
  split_and!; done.
Qed.

End GroupFacts.

Module PackagingTheorem.
Import ListFacts FrameFacts AnalysisFacts ReportFacts SortFacts GroupFacts.

Lemma count_fmap_inj `{EqDecision A, EqDecision B} (f : A → B) `{!Inj (=) (=) f}
    (x : A) (l : list A) :
  count (f x) (f <$> l) = count x l.
Proof.
  unfold count. induction l as [|y l IH]; [done|]. rewrite fmap_cons.
  destruct (decide (y = x)) as [->|Hne].
  - rewrite !filter_cons_True by done. cbn [length]. by rewrite IH.
  - rewrite !filter_cons_False; [done..|]. intros E. by apply (inj f) in E.
Qed.

Lemma join_scalars_Ok (sep : str) (xs : list scalar) (joined : str) :
  join_scalars sep xs = Ok joined →
  ∃ texts, xs = SStr <$> texts ∧ joined = Str.join sep texts.
Proof.
  unfold join_scalars. intros H. apply bind_Ok in H as (texts & Ht & [= <-]).
  exists texts. split; [|done]. apply traverse_Ok in Ht.
  induction Ht as [|x t xs ts Hx _ IH]; [done|]. rewrite fmap_cons, <- IH.
  destruct x; [|done]. by injection Hx as ->.
Qed.

(** X20. Packaging Types is ["Various"] when no row of the group has a
    unit; otherwise it lists, joined by [", "], at most three distinct
    unit values of the group, a more frequent one before a less
    frequent one, and no unit that is left out is more frequent than
    one that is listed. *)
Theorem packaging_types_most_frequent (filtered : DataFrame) (api : str) (r : AnalysisRecord) :
  analyse filtered api = Ok r →
  ∃ group cells,
    api_df filtered api = Ok group
    ∧ group !! "Unit" = Some (Object cells)
    ∧ let units := omap id cells in
      (units = [] ∧ Packaging_Types r = lit "Various")
      ∨ ∃ shown,
          Packaging_Types r = Str.join (lit ", ") shown
          ∧ length shown = 3 `min` length (unique units)
          ∧ shown ≠ []
          ∧ NoDup shown
          ∧ (∀ u, u ∈ shown → u ∈ units)
          ∧ (∀ i j ui uj, (i < j)%nat → shown !! i = Some ui → shown !! j = Some uj →
               (count uj units ≤ count ui units)%nat)
          ∧ (∀ u v, u ∈ units → u ∉ shown → v ∈ shown →
               (count u units ≤ count v units)%nat).
Proof.
  intros (group & names & cells & qty & Hg & _ & Hunits & _ & _ & Hpack & _)%analyse_columns.
  exists group, cells. split_and!; [done..|]. cbn zeta in *.
  set (units := omap id cells).
  unfold Pd.value_counts_index in Hpack. cbn [Pd.values] in Hpack. fold units in Hpack.
  set (vs := SStr <$> units) in *.
  set (leb := λ x y : scalar, (count y vs <=? count x vs)%nat) in *.
  set (sorted := sort_by leb (unique vs)) in *.
  assert (StronglySorted (λ x y, leb x y = true) sorted) as Hs.
  { apply sort_by_sorted.
    - intros x y. unfold leb. rewrite !Nat.leb_le. lia.
    - intros x y z. unfold leb. rewrite !Nat.leb_le. lia. }
  assert (∀ x, x ∈ sorted ↔ x ∈ vs) as Hin.
  { intros x. unfold sorted. by rewrite elem_of_sort_by, elem_of_unique. }
  assert (NoDup sorted) as Hnd.
  { unfold sorted. rewrite sort_by_perm. apply NoDup_unique. }
  assert (length sorted = length (unique units)) as Hlen.
  { unfold sorted, vs. rewrite sort_by_length.
    rewrite <- (length_fmap SStr (unique units)). f_equal.
    clear. induction units as [|x l IH]; [done|]. cbn [unique fmap list_fmap]. rewrite IH.
    f_equal. clear. induction (unique l) as [|y k IH]; [done|]. rewrite fmap_cons.
    destruct (decide (y = x)) as [->|Hne].
    - by rewrite !filter_cons_False by naive_solver.
    - rewrite !filter_cons_True by naive_solver. by rewrite fmap_cons, IH. }
  destruct (take 3 sorted) as [|x xs] eqn:E.
  - left. injection Hpack as <-. split; [|done].
    destruct sorted as [|y ys]; [|done].
    destruct units as [|u us]; [done|]. exfalso.
    assert (SStr u ∈ ([] : list scalar)) as H; [|by apply elem_of_nil in H].
    apply Hin. unfold vs. by left.
  - right. change (join_scalars (lit ", ") (x :: xs) = Ok (Packaging_Types r)) in Hpack.
    rewrite <- E in Hpack.
    apply join_scalars_Ok in Hpack as (shown & Hshown & Hjoin).
    exists shown.
    assert (∀ i u, shown !! i = Some u → sorted !! i = Some (SStr u) ∧ (i < 3)%nat) as Hlook.
    { intros i u Hi. apply lookup_take_Some. rewrite Hshown, list_lookup_fmap, Hi. done. }
    assert (∀ u, u ∈ shown → SStr u ∈ take 3 sorted) as Htake.
    { intros u Hu. rewrite Hshown. by apply list_elem_of_fmap_2. }
    split_and!.
    + done.
    + rewrite <- Hlen, <- (length_take sorted 3), Hshown. by rewrite length_fmap.
    + intros ->. by rewrite E in Hshown.
    + apply (NoDup_fmap_1 SStr). rewrite <- Hshown.
      eapply sublist_NoDup; [exact Hnd|apply sublist_take].
    + intros u Hu. apply list_elem_of_lookup in Hu as [i Hi].
      destruct (Hlook i u Hi) as [Hi' _].
      apply list_elem_of_lookup_2, Hin in Hi'. unfold vs in Hi'.
      by apply (list_elem_of_fmap_inj SStr) in Hi'.
    + intros i j ui uj Hij Hi Hj.
      destruct (Hlook i ui Hi) as [Hi' _]. destruct (Hlook j uj Hj) as [Hj' _].
      pose proof (StronglySorted_lookup _ _ _ _ _ _ Hs Hij Hi' Hj') as H.
      unfold leb, vs in H. apply Nat.leb_le in H. by rewrite !(count_fmap_inj SStr) in H.
    + intros u v Hu Hout Hv.
      assert (SStr u ∈ drop 3 sorted) as Hd.
      { assert (SStr u ∈ sorted) as H by (apply Hin; unfold vs; by apply list_elem_of_fmap_2).
        rewrite <- (take_drop 3 sorted) in H. apply elem_of_app in H as [H|H]; [|done].
        exfalso. apply Hout. rewrite Hshown in H.
        by apply (list_elem_of_fmap_inj SStr) in H. }
      rewrite <- (take_drop 3 sorted) in Hs.
      pose proof (StronglySorted_app_1_elem_of _ _ _ _ _ Hs (Htake v Hv) Hd) as H.
      unfold leb, vs in H. apply Nat.leb_le in H. by rewrite !(count_fmap_inj SStr) in H.
Qed.

End PackagingTheorem.

Module FindallFacts.
Import Re ReFacts.

Section Value.
Context {A : Type} (ic : bool).
Implicit Types k : option ascii → str → option A.

Lemma plus_loop_value p s k a :
  plus_loop p s k = Some a →
  ∃ prev' s', steps ic (Plus p) None s prev' s' ∧ k prev' s' = Some a.
Proof.
  revert a. induction s as [|c s IH]; intros a; simpl; [done|].
  destruct (p c) eqn:Hc; [|done].
  destruct (plus_loop p s k) as [b|] eqn:Hl.
  - intros [= <-]. destruct (IH b eq_refl) as (p' & s' & (x & xs & -> & Hall & ->) & Hk).
    exists (list.last (c :: x :: xs)), s'. split; [|done].
    exists c, (x :: xs). split_and!; [done|by constructor|done].
  - intros Hk. exists (Some c), s. split; [|done].
    exists c, []. split_and!; [done|by repeat constructor|done].
Qed.

(** What the matcher hands to its continuation is a match of the
    pattern. *)
Lemma rmatch_value r : ∀ prev s k a,
  rmatch ic r prev s k = Some a →
  ∃ prev' s', steps ic r prev s prev' s' ∧ k prev' s' = Some a.
Proof.
  induction r as [|c|p|r1 IH1 r2 IH2|r1 IH1 r2 IH2|r1 IH1|p| | |];
    intros prev s k a; simpl.
  - intros Hk. by exists prev, s.
  - destruct s as [|x s]; [done|]. destruct (chr_eq ic c x) eqn:E; [|done].
    intros Hk. exists (Some x), s. split; [by exists x|done].
  - destruct s as [|x s]; [done|]. destruct (p x) eqn:E; [|done].
    intros Hk. exists (Some x), s. split; [by exists x|done].
  - intros (p1 & s1 & H1 & H)%IH1. apply IH2 in H as (p2 & s2 & H2 & Hk).
    exists p2, s2. split; [by exists p1, s1|done].
  - destruct (rmatch ic r1 prev s k) as [b|] eqn:E1.
    + intros [= <-]. apply IH1 in E1 as (p' & s' & H & Hk).
      exists p', s'. split; [by left|done].
    + intros (p' & s' & H & Hk)%IH2. exists p', s'. split; [by right|done].
  - destruct (rmatch ic r1 prev s k) as [b|] eqn:E1.
    + intros [= <-]. apply IH1 in E1 as (p' & s' & H & Hk).
      exists p', s'. split; [by left|done].
    + intros Hk. exists prev, s. split; [by right|done].
  - intros (p' & s' & H & Hk)%plus_loop_value. by exists p', s'.
  - destruct prev; [done|]. intros Hk. by exists None, s.
  - destruct s as [|c [|c' s]]; [| |done].
    + intros Hk. exists prev, []. split; [|done]. split_and!; [by left|done..].
    + case_bool_decide as Hc; [|done]. subst c.
      intros Hk. exists prev, [Char.newline]. split; [|done]. split_and!; [by right|done..].
  - destruct (xorb _ _) eqn:E; [|done]. intros Hk. by exists prev, s.
Qed.
End Value.

(** Every item that [findall] returns is a non-empty match of the
    pattern and a part of the subject, for a pattern whose matches do
    not depend on what is around them and are never empty. *)
Lemma findall_from_sound ic r (P : str → Prop) :
  (∀ p s p' s', steps ic r p s p' s' → ∃ m, s = m ++ s' ∧ P m ∧ m ≠ []) →
  ∀ fuel prev s,
    Forall (λ m, P m ∧ ∃ pre post, s = pre ++ m ++ post)
      (findall_from fuel ic r prev s).
Proof.
  intros Hr. induction fuel as [|fuel IH]; intros prev s; cbn [findall_from]; [constructor|].
  assert (∀ c s', s = c :: s' →
            Forall (λ m, P m ∧ ∃ pre post, s = pre ++ m ++ post)
              (findall_from fuel ic r (Some c) s')) as Hskip.
  { intros c s' ->. eapply Forall_impl; [apply IH|].
    intros m (Hm & pre & post & ->). split; [done|]. by exists (c :: pre), post. }
  destruct (rmatch ic r prev s (λ prev' s', Some (prev', s'))) as [[prev' rest]|] eqn:E.
  - apply rmatch_value in E as (p' & s' & Hst & [= -> ->]).
    destruct (Hr _ _ _ _ Hst) as (m & -> & Hm & Hne).
    rewrite length_app, Nat.add_sub, take_app_length.
    destruct m as [|c m]; [done|].
    constructor.
    + split; [done|]. by exists [], rest.
    + eapply Forall_impl; [apply IH|].
      intros m' (Hm' & pre & post & ->). split; [done|].
      exists ((c :: m) ++ pre), post. by rewrite <- !app_assoc.
  - destruct s as [|c s']; [constructor|]. by apply Hskip.
Qed.

Lemma steps_exact (l : str) : ∀ p s p' s',
  steps false (foldr (λ c r, Cat (Chr c) r) Eps l) p s p' s' → s = l ++ s'.
Proof.
  induction l as [|c l IH]; intros p s p' s'; simpl.
  - by intros [_ ->].
  - intros (p1 & s1 & (x & -> & Hx & ->) & H). apply IH in H as ->.
    unfold chr_eq in Hx. apply bool_decide_eq_true in Hx. by subst.
Qed.

Lemma steps_strength p s p' s' :
  steps false strengths_pattern p s p' s' →
  ∃ m, s = m ++ s' ∧ strength_form m ∧ m ≠ [].
Proof.
  assert (∀ w, w = "MG" ∨ w = "ML" →
    steps false (Cat (Plus Char.is_digit) (Cat (Opt (Cls Char.is_space)) (word w)))
      p s p' s' → ∃ m, s = m ++ s' ∧ strength_form m ∧ m ≠ []) as H.
  { intros w Hw (p1 & s1 & (x & xs & -> & Hall & _) & p2 & s2 & Hopt & Hword).
    apply steps_exact in Hword as ->.
    destruct Hopt as [(c & -> & Hc & _)|[_ <-]].
    - exists ((x :: xs) ++ [c] ++ lit w). split_and!; [by rewrite <- !app_assoc| |done].
      exists (x :: xs), [c], (lit w). split_and!; [done..|by eauto|by destruct Hw as [-> | ->]; [left|right]].
    - exists ((x :: xs) ++ [] ++ lit w). split_and!; [by rewrite <- !app_assoc| |done].
      exists (x :: xs), [], (lit w). split_and!; [done..|by left|by destruct Hw as [-> | ->]; [left|right]]. }
  unfold strengths_pattern. cbn [steps]. intros [Hs|Hs]; [apply (H "MG")|apply (H "ML")]; auto.
Qed.

Lemma findall_strengths (s : str) :
  Forall (λ m, strength_form m ∧ ∃ pre post, s = pre ++ m ++ post)
    (findall false strengths_pattern s).
Proof. apply findall_from_sound. intros p s0 p' s'. apply steps_strength. Qed.

End FindallFacts.

Module StrengthsTheorem.
Import ListFacts FrameFacts AnalysisFacts ReportFacts GroupFacts FindallFacts.

Lemma existsb_nonempty (l : list str) :
  existsb (λ s, negb (bool_decide (s = []))) l = true → l ≠ [].
Proof. by destruct l. Qed.

(** X19. Common Strengths is ["Standard"], or up to three distinct
    strengths joined by [", "], each of them written in some product
    name of the group as digits, an optional whitespace character and
    MG or ML in capitals. The search is case-sensitive: a group whose
    names hold no such text (one that writes "500mg", say) gets
    ["Standard"]. *)
Theorem common_strengths_from_names (filtered : DataFrame) (api : str) (r : AnalysisRecord) :
  analyse filtered api = Ok r →
  ∃ group cells,
    api_df filtered api = Ok group
    ∧ group !! "Product Name" = Some (Object cells)
    ∧ (Common_Strengths r = lit "Standard"
       ∨ ∃ shown,
           Common_Strengths r = Str.join (lit ", ") shown
           ∧ shown ≠ [] ∧ (length shown ≤ 3)%nat ∧ NoDup shown
           ∧ Forall (λ s, strength_form s
                          ∧ ∃ name pre post, Some name ∈ cells ∧ name = pre ++ s ++ post)
               shown)
    ∧ ((∀ name s pre post, Some name ∈ cells → strength_form s →
          name ≠ pre ++ s ++ post) →
       Common_Strengths r = lit "Standard").
Proof.
  intros (group & cells & units & qty & Hg & Hnames & _ & _ & Hcommon & _)%analyse_columns.
  exists group, cells. cbn zeta in Hcommon. set (found := concat _) in *.
  assert (Forall (λ s, strength_form s
            ∧ ∃ name pre post, Some name ∈ cells ∧ name = pre ++ s ++ post) found) as Hfound.
  { unfold found. apply Forall_concat, Forall_fmap, Forall_forall.
    intros [name|] Hin; [|constructor]. cbn.
    eapply Forall_impl; [apply findall_strengths|].
    intros m (Hm & pre & post & ->). split; [done|]. by exists (pre ++ m ++ post), pre, post. }
  split_and!; [done..| |].
  - destruct (existsb _ _) eqn:E; [right|by left].
    exists (take 3 (unique found)). split_and!; [done| | | |].
    + by apply existsb_nonempty in E.
    + rewrite length_take. lia.
    + eapply sublist_NoDup; [apply NoDup_unique|apply sublist_take].
    + apply Forall_take. apply Forall_forall. intros s Hs. rewrite elem_of_unique in Hs.
      rewrite Forall_forall in Hfound. exact (Hfound s Hs).
  - intros Hnone. destruct found as [|m ms]; [done|]. exfalso.
    apply Forall_cons in Hfound as [(Hform & name & pre & post & Hin & Heq) _].
    by apply (Hnone name m pre post).
Qed.

End StrengthsTheorem.

(** ** Sums over the groups *)

Module SumFacts.
Import ListFacts.

Lemma Qc_sum_perm (l1 l2 : list Qc) : l1 ≡ₚ l2 → Qc_sum l1 = Qc_sum l2.
Proof.
  unfold Qc_sum. induction 1 as [|x l1 l2 _ IH|x y l|l1 l2 l3 _ IH1 _ IH2]; simpl.
  - done.
  - by rewrite IH.
  - ring.
  - by rewrite IH1.
Qed.

Lemma Qc_sum_zero {A} (l : list A) : Qc_sum ((λ _, 0%Qc) <$> l) = 0%Qc.
Proof. unfold Qc_sum. induction l as [|x l IH]; [done|]. cbn. rewrite IH. ring. Qed.

Lemma Qc_sum_plus {A} (f g : A → Qc) (l : list A) :
  Qc_sum ((λ k, (f k + g k)%Qc) <$> l) = (Qc_sum (f <$> l) + Qc_sum (g <$> l))%Qc.
Proof.
  unfold Qc_sum. induction l as [|x l IH]; cbn; [ring|]. rewrite IH. ring.
Qed.

(** Exactly one key of a duplicate-free list is the given one. *)
Lemma Qc_sum_indicator `{EqDecision A} (a : A) (v : Qc) (ks : list A) :
  NoDup ks → a ∈ ks →
  Qc_sum ((λ k, if decide (k = a) then v else 0%Qc) <$> ks) = v.
Proof.
  unfold Qc_sum. induction 1 as [|k ks Hk Hnd IH]; [by intros ?%elem_of_nil|].
  intros [Heq|Hin]%elem_of_cons; cbn.
  - subst k. rewrite decide_True by done.
    assert (foldr Qcplus 0%Qc ((λ k, if decide (k = a) then v else 0%Qc) <$> ks) = 0%Qc) as ->.
    { transitivity (Qc_sum ((λ _ : A, 0%Qc) <$> ks)); [|apply Qc_sum_zero].
      unfold Qc_sum. f_equal. apply list_fmap_ext.
      intros i k Hk'. apply list_elem_of_lookup_2 in Hk'. by rewrite decide_False by congruence. }
    ring.
  - rewrite decide_False by (intros ->; done). rewrite IH by done. ring.
Qed.

Lemma sum_indicator `{EqDecision A} (a : A) (ks : list A) :
  NoDup ks → a ∈ ks →
  sum_list ((λ k, if decide (k = a) then 1 else 0) <$> ks) = 1.
Proof.
  induction 1 as [|k ks Hk Hnd IH]; [by intros ?%elem_of_nil|].
  intros [Heq|Hin]%elem_of_cons; cbn.
  - subst k. rewrite decide_True by done.
    assert (sum_list ((λ k, if decide (k = a) then 1 else 0) <$> ks) = 0) as ->; [|done].
    clear IH. induction ks as [|k ks IH]; [done|]. cbn.
    apply not_elem_of_cons in Hk as [Hne Hk]. apply NoDup_cons in Hnd as [_ Hnd].
    rewrite decide_False by done. by apply IH.
  - rewrite decide_False by (intros ->; done). by rewrite IH.
Qed.

Lemma sum_list_plus {A} (f g : A → nat) (l : list A) :
  sum_list ((λ k, f k + g k) <$> l) = sum_list (f <$> l) + sum_list (g <$> l).
Proof. induction l as [|x l IH]; cbn; [done|]. rewrite IH. lia. Qed.

(** The groups partition the rows: the counts of the keys add up to
    the number of rows. *)
Lemma count_partition `{EqDecision A} (ks l : list A) :
  NoDup ks → (∀ a, a ∈ l → a ∈ ks) →
  sum_list ((λ k, count k l) <$> ks) = length l.
Proof.
  intros Hnd. induction l as [|x l IH]; intros Hin.
  - unfold count. cbn. clear. induction ks; [done|]. by cbn.
  - assert (sum_list ((λ k, count k (x :: l)) <$> ks)
            = sum_list ((λ k, (if decide (k = x) then 1 else 0) + count k l) <$> ks)) as ->.
    { f_equal. apply list_fmap_ext. intros _ k _. unfold count.
      destruct (decide (k = x)) as [->|Hne].
      - by rewrite filter_cons_True.
      - by rewrite filter_cons_False by congruence. }
    rewrite sum_list_plus, sum_indicator; [|done|apply Hin; by left].
    rewrite IH; [done|]. intros a Ha. apply Hin. by right.
Qed.

(** The same for a column summed group by group. *)
Lemma Qc_sum_partition (ks : list str) (apis : list (option str)) (qty : list (option Qc)) :
  NoDup ks → (∀ a, Some a ∈ apis → a ∈ ks) → Forall is_Some apis →
  length qty = length apis →
  Qc_sum ((λ k, Qc_sum (omap id
            (select ((λ c : option str, bool_decide (c = Some k)) <$> apis) qty))) <$> ks)
  = Qc_sum (omap id qty).
Proof.
  intros Hnd Hin Hall. revert qty Hin.
  induction Hall as [|c apis [a ->] _ IH]; intros qty Hin Hlen.
  - destruct qty; [|done]. cbn. apply Qc_sum_zero.
  - destruct qty as [|v qty]; [done|]. injection Hlen as Hlen.
    set (w := match v with Some x => x | None => 0%Qc end).
    assert (Qc_sum (omap id (v :: qty)) = (w + Qc_sum (omap id qty))%Qc) as ->.
    { unfold w. destruct v; cbn; [done|]. unfold Qc_sum. ring. }
    rewrite <- (IH qty); [|intros b Hb; apply Hin; by right|done].
    rewrite <- (Qc_sum_indicator a w ks Hnd) at 1 by (apply Hin; by left).
    rewrite <- Qc_sum_plus. f_equal. apply list_fmap_ext. intros _ k _.
    rewrite fmap_cons. cbn [select].
    destruct (decide (k = a)) as [->|Hne].
    + rewrite bool_decide_eq_true_2 by done. unfold w. destruct v; cbn; [done|].
      unfold Qc_sum. ring.
    + rewrite bool_decide_eq_false_2 by congruence. unfold Qc_sum. ring.
Qed.

End SumFacts.

Section Conservation.
Import ListFacts FrameFacts AnalysisFacts ReportFacts MaskFacts SortFacts RankingFacts
  RankingTheorems RecordFacts FilterFacts SumFacts.
Variable parse_number : str → option Qc.
Variable str_of_number : Qc → str.

Lemma select_length_eq {A B} (m : list bool) (l : list A) (k : list B) :
  length l = length k → length (select m l) = length (select m k).
Proof.
  revert l k. induction m as [|b m IH]; intros [|x l] [|y k]; simpl; try done.
  intros [= H]. destruct b; simpl; by rewrite (IH l k H).
Qed.

Lemma run_Report (df fdf : DataFrame) (api_filter : str) records :
  prepare parse_number str_of_number df api_filter = Ok fdf →
  run parse_number str_of_number df api_filter = Report records →
  analysis_data fdf = Ok records.
Proof.
  intros Hp. unfold run. rewrite Hp. destruct (shape0 fdf =? 0)%nat; [done|].
  destruct (analysis_data fdf); [|done]. by intros [= ->].
Qed.

(** X18. When the filtered frame has at most five APIs, the report
    accounts for every row of it (the table having as many Quantity
    cells as Product Name cells): the Export Counts add up to the
    number of rows, and, the quantities of the frame adding without
    error (whole numbers of total magnitude below 2^53), the Total
    Shipments add up to the sum of the Quantity column. *)
Theorem report_accounts_for_every_row (df fdf : DataFrame) (api_filter : str)
    (records : list AnalysisRecord) :
  exact_quantities fdf →
  prepare parse_number str_of_number df api_filter = Ok fdf →
  run parse_number str_of_number df api_filter = Report records →
  Pd.len <$> df !! "Quantity" = Pd.len <$> df !! "Product Name" →
  (length (unique (api_tokens fdf)) ≤ 5)%nat →
  sum_list (Export_Count <$> records) = shape0 fdf
  ∧ column_sum fdf "Quantity" = Ok (Qc_sum (Total_Shipments <$> records)).
Proof.
  intros _ Hp Hrun Hrect Hfive.
  pose proof (run_Report _ _ _ _ Hp Hrun) as Hr.
  destruct (prepare_Ok _ _ _ _ _ Hp) as (ndf & Hn & Hobj & _ & _).
  apply is_float_false in Hobj as [names Hnames].
  destruct (prepare_rows parse_number str_of_number df ndf names api_filter Hn Hnames)
    as (fdf' & Hp' & Hapi & Hcols).
  rewrite Hp in Hp'. injection Hp' as <-.
  set (mask := keeps_row api_filter <$> names) in *.
  destruct (all_Some (select mask names)) as [ks Hks].
  { apply Forall_forall. intros n [_ Hk]%select_same_spec. by eapply keeps_row_Some. }
  set (tokens := extract_api <$> ks).
  assert (fdf !! "API" = Some (Object (Some <$> tokens))) as Hapi'.
  { rewrite Hapi, Hks. unfold tokens. by rewrite <- !list_fmap_compose. }
  assert (api_tokens fdf = tokens) as Htok.
  { unfold api_tokens. by rewrite Hapi', omap_id_Some. }
  (* the Quantity column *)
  assert (∃ qn, ndf !! "Quantity" = Some (Float64 qn) ∧ length qn = length names)
    as (qn & Hqn & Hqlen).
  { destruct (normalize_dtypes _ _ _ Hn) as (_ & Hq & Hother).
    pose proof (normalize_len parse_number df ndf "Quantity" Hn ltac:(done)) as Hl.
    assert (df !! "Product Name" = Some (Object names)) as Hdfn.
    { rewrite <- Hother, Hnames; [done|]. unfold numeric_cols. set_solver. }
    rewrite Hrect, Hdfn in Hl. rewrite Hdfn in Hrect.
    destruct (df !! "Quantity") as [q0|]; [|done].
    destruct (is_float_true _ Hq) as [qn Hqn]. exists qn. split; [done|].
    rewrite Hqn in Hl. by injection Hl. }
  set (qty := select mask qn).
  assert (fdf !! "Quantity" = Some (Float64 qty)) as Hqty.
  { by rewrite (Hcols "Quantity"), Hqn. }
  assert (length qty = length (Some <$> tokens)) as Hlen.
  { unfold qty, tokens. rewrite !length_fmap, <- (length_fmap Some ks), <- Hks.
    by apply select_length_eq. }
  (* the rows of the report *)
  destruct (report_order _ _ Hr) as (sorted & _ & Hrec & Hperm & Hq).
  rewrite Htok in Hperm.
  assert (take 5 sorted = sorted) as Htake.
  { apply take_ge. rewrite <- (length_fmap (λ g : str * Qc * Qc, g.1.1)), Hperm.
    by rewrite <- Htok. }
  rewrite Htake in Hrec.
  assert (NoDup (unique tokens)) as Hnd by apply NoDup_unique.
  split.
  - assert (Export_Count <$> records
            = (λ k, count k tokens) <$> ((λ g : str * Qc * Qc, g.1.1) <$> sorted)) as ->.
    { rewrite <- list_fmap_compose. clear -Hrec Htok.
      induction Hrec as [|g r gs rs (Hapi & _ & Han) _ IH]; [done|]. cbn. rewrite IH. f_equal.
      pose proof (analyse_inv _ _ _ Han)
        as (group & ? & ? & ? & ? & Hgr & _ & _ & _ & _ & _ & _ & Hcount & _).
      rewrite Hcount, <- Htok. by apply api_df_shape0. }
    rewrite Hperm, count_partition; [|done|intros a; by rewrite elem_of_unique].
    unfold shape0. rewrite Hapi'. cbn. by rewrite length_fmap.
  - assert (Total_Shipments <$> records
            = (λ k, Qc_sum (omap id
                 (select ((λ c : option str, bool_decide (c = Some k)) <$> (Some <$> tokens)) qty)))
                <$> ((λ g : str * Qc * Qc, g.1.1) <$> sorted)) as ->.
    { rewrite <- list_fmap_compose. clear -Hrec Hq Hapi' Hqty.
      induction Hrec as [|g r gs rs (Hapi & Htot & _) _ IH]; [done|].
      apply Forall_cons in Hq as [Hg Hq]. cbn [fmap list_fmap]. rewrite (IH Hq). f_equal.
      rewrite Htot. unfold group_quantity, api_df, column_sum, Pd.getitem in Hg.
      rewrite Hapi' in Hg. cbn [bind] in Hg. rewrite mask_rows_lookup, Hqty in Hg.
      cbn in Hg. by injection Hg as <-. }
    rewrite (Qc_sum_perm _ _ (fmap_Permutation _ _ _ Hperm)).
    rewrite Qc_sum_partition; [|done| |apply Forall_fmap, Forall_true; intros x; by eexists|done].
    + unfold column_sum, Pd.getitem. by rewrite Hqty.
    + intros a Ha. apply elem_of_unique. by apply (list_elem_of_fmap_inj_2 Some) in Ha.
Qed.

End Conservation.

Module UnitTotals.
Import ListFacts FrameFacts AnalysisFacts ReportFacts SumFacts GroupFacts.

(** Three masks of which exactly one holds on each row split the sum
    of a column. *)
Lemma Qc_sum_split3 {A} (p1 p2 p3 : A → bool) (l : list A) (q : list (option Qc)) :
  (∀ x, (p1 x = true ∧ p2 x = false ∧ p3 x = false)
        ∨ (p1 x = false ∧ p2 x = true ∧ p3 x = false)
        ∨ (p1 x = false ∧ p2 x = false ∧ p3 x = true)) →
  length l = length q →
  (Qc_sum (omap id (select (p1 <$> l) q)) + Qc_sum (omap id (select (p2 <$> l) q))
   + Qc_sum (omap id (select (p3 <$> l) q)))%Qc
  = Qc_sum (omap id q).
Proof.
  intros Hp. revert q. induction l as [|x l IH]; intros [|v q]; try done.
  intros [= Hlen]. rewrite !fmap_cons. cbn [select]. specialize (IH q Hlen).
  assert (∀ w : list (option Qc),
              Qc_sum (omap id (v :: w))
              = (match v with Some y => y | None => 0 end + Qc_sum (omap id w))%Qc) as Hv.
  { intros w. destruct v; cbn; [done|]. unfold Qc_sum. ring. }
  destruct (Hp x) as [(-> & -> & ->)|[(-> & -> & ->)|(-> & -> & ->)]];
    rewrite !Hv, <- IH; ring.
Qed.

Lemma unit_masks (units : list (option str)) :
  Pd.eq (Object ((λ c : option str, Str.upper <$> c) <$> units)) (lit "NOS")
  = unit_reads [lit "NOS"] <$> units
  ∧ Pd.isin (Object ((λ c : option str, Str.upper <$> c) <$> units)) [lit "KG"; lit "KGS"]
    = unit_reads [lit "KG"; lit "KGS"] <$> units.
Proof.
  cbn [Pd.eq Pd.isin]. rewrite <- !list_fmap_compose. split.
  - apply list_fmap_ext. intros _ [u|] _; cbn; [|done].
    apply bool_decide_ext. rewrite list_elem_of_singleton.
    split; [by intros [= ->]|by intros ->].
  - apply list_fmap_ext. by intros _ [u|] _.
Qed.

(** X21. On a filtered frame whose quantities add without error (whole
    numbers of total magnitude below 2^53): Total Nos is the quantity
    of the group's rows whose unit reads NOS in any letter case, Total
    Kg that of the rows whose unit reads KG or KGS; no row counts
    toward both, and a row with another unit or none counts toward
    neither: with the rest, the two add up to Total Shipments. *)
Theorem nos_and_kg_split_shipments (filtered : DataFrame) (api : str) (r : AnalysisRecord) :
  exact_quantities filtered →
  analyse filtered api = Ok r →
  ∃ group units qty,
    api_df filtered api = Ok group
    ∧ group !! "Unit" = Some (Object units)
    ∧ group !! "Quantity" = Some (Float64 qty)
    ∧ Total_Nos r = Qc_sum (omap id (select (unit_reads [lit "NOS"] <$> units) qty))
    ∧ Total_Kg r = Qc_sum (omap id (select (unit_reads [lit "KG"; lit "KGS"] <$> units) qty))
    ∧ (length units = length qty →
       (Total_Nos r + Total_Kg r
        + Qc_sum (omap id (select
            ((λ c, negb (unit_reads [lit "NOS"; lit "KG"; lit "KGS"] c)) <$> units) qty)))%Qc
       = Total_Shipments r).
Proof.
  intros _ (group & names & units & qty & Hg & _ & Hunits & Hqty & _ & _ & [Hnos Hkg] & Htot)%analyse_columns.
  destruct (unit_masks units) as [E1 E2]. rewrite E1 in Hnos. rewrite E2 in Hkg.
  exists group, units, qty. split_and!; [done..|].
  intros Hlen. rewrite Hnos, Hkg, Htot. apply Qc_sum_split3; [|done].
  intros [u|]; cbn; [|by do 2 right].
  destruct (decide (Str.upper u = lit "NOS")) as [E|E].
  - left. rewrite E. by vm_compute.
  - destruct (decide (Str.upper u ∈ [lit "KG"; lit "KGS"])) as [E'|E'].
    + right; left. rewrite (bool_decide_eq_true_2 _ E').
      rewrite (bool_decide_eq_false_2 (Str.upper u ∈ [lit "NOS"])) by set_solver.
      rewrite (bool_decide_eq_true_2 (Str.upper u ∈ [lit "NOS"; lit "KG"; lit "KGS"])) by set_solver.
      done.
    + do 2 right. rewrite (bool_decide_eq_false_2 _ E').
      rewrite (bool_decide_eq_false_2 (Str.upper u ∈ [lit "NOS"])) by set_solver.
      rewrite (bool_decide_eq_false_2 (Str.upper u ∈ [lit "NOS"; lit "KG"; lit "KGS"])) by set_solver.
      done.
Qed.

End UnitTotals.

Module RankingIgnoresFob.
Import ListFacts FrameFacts AnalysisFacts ReportFacts SortFacts RankingFacts.

Lemma insert_by_fmap {A B} (f : A → B) (leb : A → A → bool) (leb' : B → B → bool)
    (x : A) (l : list A) :
  (∀ x y, leb' (f x) (f y) = leb x y) →
  f <$> insert_by leb x l = insert_by leb' (f x) (f <$> l).
Proof.
  intros H. induction l as [|y l IH]; [done|]. cbn [insert_by fmap list_fmap].
  rewrite H. destruct (leb x y); [done|]. cbn. by rewrite <- IH.
Qed.

(** Sorting commutes with a projection that the comparison factors
    through. *)
Lemma sort_by_fmap {A B} (f : A → B) (leb : A → A → bool) (leb' : B → B → bool)
    (l : list A) :
  (∀ x y, leb' (f x) (f y) = leb x y) →
  f <$> sort_by leb l = sort_by leb' (f <$> l).
Proof.
  intros H. induction l as [|x l IH]; [done|].
  change (sort_by leb (x :: l)) with (insert_by leb x (sort_by leb l)).
  rewrite (insert_by_fmap f leb leb' _ _ H), IH. done.
Qed.

(** X16. The Total_FOB that line 63 aggregates plays no part in the
    choice of the APIs: putting other numbers in the FOB (USD) column
    of the filtered frame leaves the top APIs as they are. *)
Theorem top_apis_ignore_fob (filtered : DataFrame) (fob' : list (option Qc))
    (tops : list str) :
  top_apis filtered = Ok tops →
  top_apis (<["FOB (USD)" := Float64 fob']> filtered) = Ok tops.
Proof.
  unfold top_apis. intros H. apply bind_Ok in H as (groups & Hg & [= <-]).
  unfold groupby_agg in Hg.
  apply bind_Ok in Hg as (api & Hapi%getitem_Ok & Hg).
  apply bind_Ok in Hg as (keys & Hkeys & Hg).
  apply bind_Ok in Hg as (qty & Hqty%getitem_Ok & Hg).
  apply bind_Ok in Hg as (fob & _ & Hg).
  set (h := λ g : str * Qc * Qc,
         (g.1, foldr Qcplus 0%Qc (omap id (select (Pd.eq api g.1.1) fob')))).
  assert (groupby_agg (<["FOB (USD)" := Float64 fob']> filtered) = Ok (h <$> groups)) as ->.
  { unfold groupby_agg, Pd.getitem.
    rewrite lookup_insert_ne, Hapi by done. cbn [bind]. rewrite Hkeys. cbn [bind].
    rewrite lookup_insert_ne, Hqty by done. cbn [bind].
    rewrite lookup_insert_eq. cbn [bind].
    apply traverse_Ok, Forall2_fmap_r. apply traverse_Ok in Hg.
    eapply Forall2_impl; [exact Hg|]. intros k g Hk. cbn beta in Hk |- *.
    apply bind_Ok in Hk as (tq & Htq & Hk). apply bind_Ok in Hk as (tf & _ & [= <-]).
    rewrite Htq. done. }
  cbn [bind]. f_equal. unfold nlargest.
  rewrite <- (sort_by_fmap h by_quantity by_quantity) by done.
  rewrite <- fmap_take, <- list_fmap_compose. done.
Qed.

End RankingIgnoresFob.

(** ** Sample runs for the further properties *)

Module PropertySamples.
Import Sample.

(** The report of [tied_table]: ASPIRIN and ZINC both total 10 and
    ASPIRIN comes first; "75mg" in lower case is no strength; the unit
    "nos" counts as NOS and the missing unit as nothing. *)
Example tied_report :
  (λ r, (show (API r), this (Total_Shipments r), Export_Count r,
         show (Common_Strengths r), show (Packaging_Types r),
         this (Total_Nos r), this (Total_Kg r)))
    <$> records_of (run_sample tied_table "All")
  = [("ASPIRIN", 10%Q, 1, "Standard", "KG", 0%Q, 10%Q);
     ("ZINC", 10%Q, 2, "50 MG", "nos", 4%Q, 0%Q)].
Proof. by vm_compute. Qed.

(** The human-use test wants the keyword as a whole word. *)
Example human_use_samples :
  Re.search true human_indicators (lit "aspirin tablet.") = true
  ∧ Re.search true human_indicators (lit "ASPIRIN TABLETS") = false
  ∧ Re.search true human_indicators (lit "ASPIRIN TABLET_5") = false.
Proof. split_and!; by vm_compute. Qed.

(** X5, witness. *)
Lemma short_name_is_invalid_witness :
  is_ascii (lit "nan") ∧ (length (lit "nan") < 4)%nat
  ∧ valid_tokens (lit "nan") = [] ∧ extract_api (lit "nan") = lit "INVALID".
Proof.
  assert (is_ascii (lit "nan")) as H0 by (repeat constructor; cbn; lia).
  assert (length (lit "nan") < 4)%nat as H by (cbn; lia).
  split_and!; [exact H0|exact H|..];
    apply (ExtractorProperties.short_name_is_invalid _ H0 H).
Defined.

(** X6, witness. *)
Lemma normalize_idempotent_witness :
  normalize parse_number inr_table = Ok (normalized inr_table)
  ∧ normalize parse_number (normalized inr_table) = Ok (normalized inr_table).
Proof.
  assert (normalize parse_number inr_table = Ok (normalized inr_table)) as H by reflexivity.
  split; [exact H|]. exact (normalize_idempotent parse_number _ _ H).
Defined.

(** X7, witness. *)
Lemma normalize_keeps_shape_witness :
  normalize parse_number tied_table = Ok (normalized tied_table)
  ∧ (∀ c, c ∉ numeric_cols → normalized tied_table !! c = tied_table !! c)
  ∧ (∀ c, c ≠ "FOB (USD)" →
       Pd.len <$> normalized tied_table !! c = Pd.len <$> tied_table !! c)
  ∧ is_Some (normalized tied_table !! "FOB (USD)")
  ∧ (tied_table !! "FOB (USD)" = None →
     Pd.len <$> normalized tied_table !! "FOB (USD)" = Pd.len <$> tied_table !! "FOB (INR)").
Proof.
  assert (normalize parse_number tied_table = Ok (normalized tied_table)) as H by reflexivity.
  split; [exact H|]. exact (normalize_keeps_shape parse_number _ _ H).
Defined.

(** X9, witness. *)
Lemma prepare_is_one_mask_witness :
  normalize parse_number six_api_table = Ok (normalized six_api_table)
  ∧ six_api_table !! "Product Name"
    = Some (Object (text_cells (six_api_table !! "Product Name")))
  ∧ let names := text_cells (six_api_table !! "Product Name") in
    ∃ fdf, prepare parse_number str_of_number six_api_table (lit "ASPIRIN") = Ok fdf
      ∧ fdf !! "Product Name"
        = Some (Object (select (keeps_row (lit "ASPIRIN") <$> names) names))
      ∧ fdf !! "API"
        = Some (Object ((λ n : option str, extract_api <$> n)
                          <$> select (keeps_row (lit "ASPIRIN") <$> names) names))
      ∧ ∀ c, c ≠ "API" →
          fdf !! c = Pd.mask_series (keeps_row (lit "ASPIRIN") <$> names)
                       <$> normalized six_api_table !! c.
Proof.
  assert (normalize parse_number six_api_table = Ok (normalized six_api_table)) as H1
    by reflexivity.
  assert (six_api_table !! "Product Name"
          = Some (Object (text_cells (six_api_table !! "Product Name")))) as H2 by reflexivity.
  split_and!; [exact H1|exact H2|].
  exact (prepare_is_one_mask parse_number str_of_number _ _ _ (lit "ASPIRIN") H1 H2).
Defined.

(** X10, witness. *)
Lemma warning_iff_no_row_kept_witness :
  is_Ok (normalize parse_number six_api_table)
  ∧ six_api_table !! "Product Name"
    = Some (Object (text_cells (six_api_table !! "Product Name")))
  ∧ (run parse_number str_of_number six_api_table (lit "ZINC") = Warning no_data
     ↔ Forall (λ n, keeps_row (lit "ZINC") n = false)
         (text_cells (six_api_table !! "Product Name"))).
Proof.
  assert (is_Ok (normalize parse_number six_api_table)) as H1 by (by eexists).
  assert (six_api_table !! "Product Name"
          = Some (Object (text_cells (six_api_table !! "Product Name")))) as H2 by reflexivity.
  split_and!; [exact H1|exact H2|].
  exact (warning_iff_no_row_kept parse_number str_of_number _ _ (lit "ZINC") H1 H2).
Defined.

(** X11, witness. *)
Lemma numeric_product_name_raises_witness :
  is_Ok (normalize parse_number numeric_name_table)
  ∧ numeric_name_table !! "Product Name" = Some (Float64 [num 1; None; num 3])
  ∧ run parse_number str_of_number numeric_name_table (lit "All") = Uncaught AttributeError.
Proof.
  assert (is_Ok (normalize parse_number numeric_name_table)) as H1 by (by eexists).
  assert (numeric_name_table !! "Product Name" = Some (Float64 [num 1; None; num 3])) as H2
    by reflexivity.
  split_and!; [exact H1|exact H2|].
  exact (numeric_product_name_raises parse_number str_of_number _ _ (lit "All") H1 H2).
Defined.

(** X12, witness. *)
Lemma numeric_unit_raises_witness :
  prepare parse_number str_of_number numeric_unit_table (lit "All")
    = Ok (filtered_sample numeric_unit_table "All")
  ∧ shape0 (filtered_sample numeric_unit_table "All") ≠ 0
  ∧ numeric_unit_table !! "Unit" = Some (Float64 [num 1; num 2; None])
  ∧ match numeric_unit_table !! "Quantity" with
    | None => run parse_number str_of_number numeric_unit_table (lit "All")
              = Uncaught (KeyError "Quantity")
    | Some _ =>
        (∀ api, api ∈ api_tokens (filtered_sample numeric_unit_table "All") →
           analyse (filtered_sample numeric_unit_table "All") api
           = Raise (numeric_unit_error (filtered_sample numeric_unit_table "All") api))
        ∧ ∃ api tops, top_apis (filtered_sample numeric_unit_table "All") = Ok (api :: tops)
            ∧ api ∈ api_tokens (filtered_sample numeric_unit_table "All")
            ∧ run parse_number str_of_number numeric_unit_table (lit "All")
              = Uncaught (numeric_unit_error (filtered_sample numeric_unit_table "All") api)
    end.
Proof.
  assert (prepare parse_number str_of_number numeric_unit_table (lit "All")
            = Ok (filtered_sample numeric_unit_table "All")) as H1 by reflexivity.
  assert (shape0 (filtered_sample numeric_unit_table "All") ≠ 0) as H2 by (by vm_compute).
  assert (numeric_unit_table !! "Unit" = Some (Float64 [num 1; num 2; None])) as H4
    by reflexivity.
  split_and!; [exact H1|exact H2|exact H4|].
  exact (numeric_unit_raises parse_number str_of_number _ _ _ (lit "All") H1 H2 H4).
Defined.

(** Each of the three errors occurs: TypeError with a unit value,
    AttributeError when the rows of the API have none, KeyError
    without Quantity. *)
Example numeric_unit_errors :
  run_sample numeric_unit_table "All" = Uncaught TypeError
  ∧ run_sample (<["Unit" := Float64 [None; num 2; None]]> tied_table) "ZINC"
    = Uncaught AttributeError
  ∧ run_sample (delete "Quantity" numeric_unit_table) "All" = Uncaught (KeyError "Quantity").
Proof. split_and!; by vm_compute. Qed.

(** X14, witness. *)
Lemma report_ranked_by_quantity_witness :
  exact_quantities (filtered_sample six_api_table "All")
  ∧ analysis_data (filtered_sample six_api_table "All")
    = Ok (records_of (run_sample six_api_table "All"))
  ∧ (∀ i j ri rj, (i < j)%nat →
       records_of (run_sample six_api_table "All") !! i = Some ri →
       records_of (run_sample six_api_table "All") !! j = Some rj →
       (Total_Shipments rj ≤ Total_Shipments ri)%Qc)
  ∧ (∀ a total r, a ∈ api_tokens (filtered_sample six_api_table "All") →
       a ∉ API <$> records_of (run_sample six_api_table "All") →
       group_quantity (filtered_sample six_api_table "All") a = Ok total →
       r ∈ records_of (run_sample six_api_table "All") →
       (total ≤ Total_Shipments r)%Qc).
Proof.
  assert (exact_quantities (filtered_sample six_api_table "All")) as H0.
  { exists [num 10; num 20; num 30; num 40; num 50; num 60; num 5].
    split; [reflexivity|]. exists [10; 20; 30; 40; 50; 60; 5]%Z.
    split; [reflexivity|by vm_compute]. }
  assert (analysis_data (filtered_sample six_api_table "All")
            = Ok (records_of (run_sample six_api_table "All"))) as H by (by vm_compute).
  split_and!; [exact H0|exact H|..];
    apply (RankingTheorems.report_ranked_by_quantity _ _ H0 H).
Defined.


(** X17, witness. *)
Lemma report_records_count_rows_witness :
  analysis_data (filtered_sample six_api_table "All")
    = Ok (records_of (run_sample six_api_table "All"))
  ∧ NoDup (API <$> records_of (run_sample six_api_table "All"))
  ∧ Forall (λ r,
      Export_Count r = count (API r) (api_tokens (filtered_sample six_api_table "All"))
      ∧ (1 ≤ Export_Count r)%nat
      ∧ Avg_Qty_Export r = (Total_Shipments r / Qc_of_nat (Export_Count r))%Qc)
      (records_of (run_sample six_api_table "All")).
Proof.
  assert (analysis_data (filtered_sample six_api_table "All")
            = Ok (records_of (run_sample six_api_table "All"))) as H by (by vm_compute).
  split; [exact H|]. exact (RecordInvariants.report_records_count_rows _ _ H).
Defined.

(** X13, witness. *)
Lemma offered_api_has_rows_witness :
  prepare parse_number str_of_number six_api_table (lit "All")
    = Ok (filtered_sample six_api_table "All")
  ∧ ∃ apis tokens,
      filtered_sample six_api_table "All" !! "API" = Some (Object apis)
      ∧ filter_options apis = Ok (Some <$> (lit "All" :: tokens))
      ∧ StronglySorted Str.le tokens
      ∧ NoDup (lit "All" :: tokens)
      ∧ (∀ a, a ∈ tokens ↔ a ∈ api_tokens (filtered_sample six_api_table "All"))
      ∧ ∀ a, a ∈ tokens →
          ∃ fdf, prepare parse_number str_of_number six_api_table a = Ok fdf
                 ∧ shape0 fdf ≠ 0.
Proof.
  assert (prepare parse_number str_of_number six_api_table (lit "All")
            = Ok (filtered_sample six_api_table "All")) as H by reflexivity.
  split; [exact H|]. exact (offered_api_has_rows parse_number str_of_number _ _ H).
Defined.

(** X20, witness. *)
Lemma packaging_types_most_frequent_witness :
  analyse (filtered_sample tied_table "All") (lit "ZINC") = Ok (analysed tied_table "ZINC")
  ∧ ∃ group cells,
      api_df (filtered_sample tied_table "All") (lit "ZINC") = Ok group
      ∧ group !! "Unit" = Some (Object cells)
      ∧ let units := omap id cells in
        (units = [] ∧ Packaging_Types (analysed tied_table "ZINC") = lit "Various")
        ∨ ∃ shown,
            Packaging_Types (analysed tied_table "ZINC") = Str.join (lit ", ") shown
            ∧ length shown = 3 `min` length (unique units)
            ∧ shown ≠ []
            ∧ NoDup shown
            ∧ (∀ u, u ∈ shown → u ∈ units)
            ∧ (∀ i j ui uj, (i < j)%nat → shown !! i = Some ui → shown !! j = Some uj →
                 (count uj units ≤ count ui units)%nat)
            ∧ (∀ u v, u ∈ units → u ∉ shown → v ∈ shown →
                 (count u units ≤ count v units)%nat).
Proof.
  assert (analyse (filtered_sample tied_table "All") (lit "ZINC")
            = Ok (analysed tied_table "ZINC")) as H by (by vm_compute).
  split; [exact H|]. exact (PackagingTheorem.packaging_types_most_frequent _ _ _ H).
Defined.

(** X19, witness. *)
Lemma common_strengths_from_names_witness :
  analyse (filtered_sample tied_table "All") (lit "ZINC") = Ok (analysed tied_table "ZINC")
  ∧ ∃ group cells,
      api_df (filtered_sample tied_table "All") (lit "ZINC") = Ok group
      ∧ group !! "Product Name" = Some (Object cells)
      ∧ (Common_Strengths (analysed tied_table "ZINC") = lit "Standard"
         ∨ ∃ shown,
             Common_Strengths (analysed tied_table "ZINC") = Str.join (lit ", ") shown
             ∧ shown ≠ [] ∧ (length shown ≤ 3)%nat ∧ NoDup shown
             ∧ Forall (λ s, strength_form s
                            ∧ ∃ name pre post, Some name ∈ cells ∧ name = pre ++ s ++ post)
                 shown)
      ∧ ((∀ name s pre post, Some name ∈ cells → strength_form s →
            name ≠ pre ++ s ++ post) →
         Common_Strengths (analysed tied_table "ZINC") = lit "Standard").
Proof.
  assert (analyse (filtered_sample tied_table "All") (lit "ZINC")
            = Ok (analysed tied_table "ZINC")) as H by (by vm_compute).
  split; [exact H|]. exact (StrengthsTheorem.common_strengths_from_names _ _ _ H).
Defined.

(** X18, witness. *)
Lemma report_accounts_for_every_row_witness :
  exact_quantities (filtered_sample tied_table "All")
  ∧ prepare parse_number str_of_number tied_table (lit "All")
    = Ok (filtered_sample tied_table "All")
  ∧ run parse_number str_of_number tied_table (lit "All")
    = Report (records_of (run_sample tied_table "All"))
  ∧ Pd.len <$> tied_table !! "Quantity" = Pd.len <$> tied_table !! "Product Name"
  ∧ (length (unique (api_tokens (filtered_sample tied_table "All"))) ≤ 5)%nat
  ∧ sum_list (Export_Count <$> records_of (run_sample tied_table "All"))
    = shape0 (filtered_sample tied_table "All")
  ∧ column_sum (filtered_sample tied_table "All") "Quantity"
    = Ok (Qc_sum (Total_Shipments <$> records_of (run_sample tied_table "All"))).
Proof.
  assert (exact_quantities (filtered_sample tied_table "All")) as H0.
  { exists [num 4; num 10; num 6].
    split; [reflexivity|]. exists [4; 10; 6]%Z.
    split; [reflexivity|by vm_compute]. }
  assert (prepare parse_number str_of_number tied_table (lit "All")
            = Ok (filtered_sample tied_table "All")) as H1 by reflexivity.
  assert (run parse_number str_of_number tied_table (lit "All")
            = Report (records_of (run_sample tied_table "All"))) as H2 by (by vm_compute).
  assert (Pd.len <$> tied_table !! "Quantity" = Pd.len <$> tied_table !! "Product Name") as H3
    by reflexivity.
  assert (length (unique (api_tokens (filtered_sample tied_table "All"))) ≤ 5)%nat as H4
    by (vm_compute; lia).
  split_and!; [exact H0|exact H1|exact H2|exact H3|exact H4|..];
    apply (report_accounts_for_every_row parse_number str_of_number _ _ _ _
             H0 H1 H2 H3 H4).
Defined.

(** X21, witness. *)
Lemma nos_and_kg_split_shipments_witness :
  exact_quantities (filtered_sample tied_table "All")
  ∧ analyse (filtered_sample tied_table "All") (lit "ZINC") = Ok (analysed tied_table "ZINC")
  ∧ ∃ group units qty,
      api_df (filtered_sample tied_table "All") (lit "ZINC") = Ok group
      ∧ group !! "Unit" = Some (Object units)
      ∧ group !! "Quantity" = Some (Float64 qty)
      ∧ Total_Nos (analysed tied_table "ZINC")
        = Qc_sum (omap id (select (unit_reads [lit "NOS"] <$> units) qty))
      ∧ Total_Kg (analysed tied_table "ZINC")
        = Qc_sum (omap id (select (unit_reads [lit "KG"; lit "KGS"] <$> units) qty))
      ∧ (length units = length qty →
         (Total_Nos (analysed tied_table "ZINC") + Total_Kg (analysed tied_table "ZINC")
          + Qc_sum (omap id (select
              ((λ c, negb (unit_reads [lit "NOS"; lit "KG"; lit "KGS"] c)) <$> units) qty)))%Qc
         = Total_Shipments (analysed tied_table "ZINC")).
Proof.
  assert (exact_quantities (filtered_sample tied_table "All")) as H0.
  { exists [num 4; num 10; num 6].
    split; [reflexivity|]. exists [4; 10; 6]%Z.
    split; [reflexivity|by vm_compute]. }
  assert (analyse (filtered_sample tied_table "All") (lit "ZINC")
            = Ok (analysed tied_table "ZINC")) as H by (by vm_compute).
  split_and!; [exact H0|exact H|].
  exact (UnitTotals.nos_and_kg_split_shipments _ _ _ H0 H).
Defined.

(** X16, witness. *)
Lemma top_apis_ignore_fob_witness :
  top_apis (filtered_sample six_api_table "All")
    = Ok (API <$> records_of (run_sample six_api_table "All"))
  ∧ top_apis (<["FOB (USD)" := Float64 (replicate 7 (num 9))]> (filtered_sample six_api_table "All"))
    = Ok (API <$> records_of (run_sample six_api_table "All")).
Proof.
  assert (top_apis (filtered_sample six_api_table "All")
            = Ok (API <$> records_of (run_sample six_api_table "All"))) as H
    by (by vm_compute).
  split; [exact H|]. exact (RankingIgnoresFob.top_apis_ignore_fob _ _ _ H).
Defined.

End PropertySamples.
